(** * The audience rule engine of xeno-crm-backend

    A shallow embedding of
    - [buildWhereClause] (routes/campaigns) and [buildWhereClauseForSegment]
      (routes/segments): the rule predicate compilers;
    - [convertNaturalLanguageToRules] and [callProviderForRulesWithRetries]
      (routes/ai): the natural-language rule inferencer with its provider
      orchestration.

    Conventions of the embedding.
    - A JavaScript string is a [string] of 8-bit characters read as the UTF-16
      code units below 256 (ASCII and Latin-1); indices are [nat].
    - A number is a binary64 value: NaN, an infinity, or the rational a
      finite double is, kept in lowest terms ([Q] through [Qred]); the two
      zeros are one.  [Number] of a decimal token is the double nearest to
      what the token denotes (ties to the even significand), [Infinity] from
      [2^1024 - 2^970] on; a product is rounded the same way.
    - Regular expressions are terms of [regex], run by a backtracking matcher
      that follows the ECMAScript order of alternatives and quantifiers.
    - The clock, the HTTP provider and the process environment are explicit
      inputs; exceptions are values of [result]. *)

From Stdlib Require Import List Bool Arith Lia ZArith NArith QArith Qround.
From Stdlib Require Import Ascii String.
Import ListNotations.

Local Open Scope string_scope.
Local Open Scope nat_scope.

(* ================================================================== *)
(** * JavaScript strings *)
(* ================================================================== *)

Module JsString.

Definition code (c : ascii) : N := N_of_ascii c.

Definition in_range (lo hi : N) (c : ascii) : bool :=
  (N.leb lo (code c) && N.leb (code c) hi)%bool.

(** [\d] *)
Definition is_digit (c : ascii) : bool := in_range 48 57 c.

(** [\D] *)
Definition is_non_digit (c : ascii) : bool := negb (is_digit c).

(** [\s] restricted to code units below 256: TAB, LF, VT, FF, CR, SP, NBSP. *)
Definition is_space (c : ascii) : bool :=
  (in_range 9 13 c || N.eqb (code c) 32 || N.eqb (code c) 160)%bool.

Definition is_upper (c : ascii) : bool := in_range 65 90 c.
Definition is_lower (c : ascii) : bool := in_range 97 122 c.

(** [[a-zA-Z]] *)
Definition is_alpha (c : ascii) : bool := (is_upper c || is_lower c)%bool.

(** [\w], the word characters that decide [\b]. *)
Definition is_word (c : ascii) : bool :=
  (is_alpha c || is_digit c || N.eqb (code c) 95)%bool.

(** [[a-zA-Z_]] *)
Definition is_alpha_us (c : ascii) : bool :=
  (is_alpha c || N.eqb (code c) 95)%bool.

(** [[A-Za-z ]] *)
Definition is_alpha_sp (c : ascii) : bool :=
  (is_alpha c || N.eqb (code c) 32)%bool.

(** One character of [String.prototype.toLowerCase]: A-Z, and the Latin-1
    capitals U+00C0-U+00DE except the multiplication sign U+00D7. *)
Definition lower_char (c : ascii) : ascii :=
  if (is_upper c || (in_range 192 222 c && negb (N.eqb (code c) 215)))%bool
  then ascii_of_N (code c + 32)
  else c.

Fixpoint toLowerCase (s : string) : string :=
  match s with
  | EmptyString => EmptyString
  | String c s' => String (lower_char c) (toLowerCase s')
  end.

(** [s.startsWith(p)] *)
Fixpoint startsWith (p s : string) : bool :=
  match p, s with
  | EmptyString, _ => true
  | String a p', String b s' => (Ascii.eqb a b && startsWith p' s')%bool
  | String _ _, EmptyString => false
  end.

(** [s.indexOf(p)], with [None] for -1. *)
Fixpoint indexOf_from (p s : string) (i : nat) : option nat :=
  if startsWith p s then Some i
  else match s with
       | EmptyString => None
       | String _ s' => indexOf_from p s' (S i)
       end.

Definition indexOf (s p : string) : option nat := indexOf_from p s 0.

(** [s.includes(p)] *)
Definition includes (s p : string) : bool :=
  match indexOf s p with Some _ => true | None => false end.

Fixpoint drop (n : nat) (s : string) : string :=
  match n, s with
  | O, _ => s
  | S _, EmptyString => EmptyString
  | S n', String _ s' => drop n' s'
  end.

Fixpoint take (n : nat) (s : string) : string :=
  match n, s with
  | O, _ => EmptyString
  | S _, EmptyString => EmptyString
  | S n', String c s' => String c (take n' s')
  end.

(** [s.substring(a, b)] on non-negative arguments: both ends are clamped to
    the length and swapped when [a > b]. *)
Definition substring (s : string) (a b : nat) : string :=
  let a' := Nat.min a (String.length s) in
  let b' := Nat.min b (String.length s) in
  let lo := Nat.min a' b' in
  let hi := Nat.max a' b' in
  take (hi - lo) (drop lo s).

Fixpoint trimStart (s : string) : string :=
  match s with
  | EmptyString => EmptyString
  | String c s' => if is_space c then trimStart s' else s
  end.

Fixpoint rev_string (s acc : string) : string :=
  match s with
  | EmptyString => acc
  | String c s' => rev_string s' (String c acc)
  end.

Definition trimEnd (s : string) : string :=
  rev_string (trimStart (rev_string s EmptyString)) EmptyString.

(** [s.trim()] *)
Definition trim (s : string) : string := trimEnd (trimStart s).

End JsString.

Import JsString.

(* ================================================================== *)
(** * Regular expressions *)
(* ================================================================== *)

Module Regex.

(** The fragment of ECMAScript patterns the source uses.  A quantifier only
    ever applies to a character class there, except the greedy [?] on a
    non-capturing group. *)
Inductive regex : Type :=
| Lit (s : string)
| Rep (cls : ascii -> bool) (min : nat) (max : option nat) (lazy : bool)
| Seq (r1 r2 : regex)
| Alt (r1 r2 : regex)
| Opt (r : regex)
| Group (n : nat) (r : regex)
| WordB.

(** A position in the subject: the character before it, the text from it on,
    and its index. *)
Record cursor : Type := mkCursor {
  prev : option ascii;
  rest : string;
  pos : nat
}.

Definition captures : Type := list (nat * (nat * nat)).

Definition start_cursor (s : string) : cursor := mkCursor None s 0.

Definition step (cu : cursor) : option (ascii * cursor) :=
  match rest cu with
  | EmptyString => None
  | String c s' => Some (c, mkCursor (Some c) s' (S (pos cu)))
  end.

Fixpoint eat (p : string) (cu : cursor) : option cursor :=
  match p with
  | EmptyString => Some cu
  | String a p' =>
      match step cu with
      | Some (c, cu') => if Ascii.eqb a c then eat p' cu' else None
      | None => None
      end
  end.

Definition word_before (cu : cursor) : bool :=
  match prev cu with Some c => is_word c | None => false end.

Definition word_after (cu : cursor) : bool :=
  match rest cu with String c _ => is_word c | EmptyString => false end.

Definition at_word_boundary (cu : cursor) : bool :=
  xorb (word_before cu) (word_after cu).

Definition may_repeat (max : option nat) : bool :=
  match max with Some O => false | _ => true end.

Definition dec_max (max : option nat) : option nat :=
  match max with Some m => Some (Nat.pred m) | None => None end.

Definition or_else {A} (x : option A) (y : unit -> option A) : option A :=
  match x with Some _ => x | None => y tt end.

Section Matcher.
Context {A : Type}.

(** The quantified class, by recursion on the remaining text: a greedy
    quantifier first tries one more character, a lazy one first tries to
    stop. *)
Fixpoint rep_from (cls : ascii -> bool) (lazy : bool)
    (s : string) (pv : option ascii) (i : nat)
    (min : nat) (max : option nat)
    (k : cursor -> option A) : option A :=
  let stop := fun _ : unit =>
    if Nat.eqb min 0 then k (mkCursor pv s i) else None in
  let more := fun _ : unit =>
    match s with
    | String c s' =>
        if (cls c && may_repeat max)%bool
        then rep_from cls lazy s' (Some c) (S i) (Nat.pred min) (dec_max max) k
        else None
    | EmptyString => None
    end in
  if lazy then or_else (stop tt) more else or_else (more tt) stop.

(** Backtracking matcher in continuation-passing style: [k] is what
    remains of the pattern. *)
Fixpoint run (r : regex) (cu : cursor) (caps : captures)
    (k : cursor -> captures -> option A) : option A :=
  match r with
  | Lit s =>
      match eat s cu with Some cu' => k cu' caps | None => None end
  | Rep cls min max lazy =>
      rep_from cls lazy (rest cu) (prev cu) (pos cu) min max
        (fun cu' => k cu' caps)
  | Seq r1 r2 =>
      run r1 cu caps (fun cu' caps' => run r2 cu' caps' k)
  | Alt r1 r2 =>
      or_else (run r1 cu caps k) (fun _ => run r2 cu caps k)
  | Opt r1 =>
      or_else (run r1 cu caps k) (fun _ => k cu caps)
  | Group n r1 =>
      run r1 cu caps
        (fun cu' caps' => k cu' ((n, (pos cu, pos cu')) :: caps'))
  | WordB =>
      if at_word_boundary cu then k cu caps else None
  end.
End Matcher.

(** A match: [index] is [m.index], [stop] the index after [m[0]]. *)
Record rmatch : Type := mkMatch {
  index : nat;
  stop : nat;
  groups : captures;
  after : cursor
}.

Definition match_at (r : regex) (cu : cursor) : option rmatch :=
  run r cu [] (fun cu' caps => Some (mkMatch (pos cu) (pos cu') caps cu')).

(** Leftmost match at or after the cursor. *)
Fixpoint search_from (r : regex) (s : string) (pv : option ascii) (i : nat)
  : option rmatch :=
  or_else (match_at r (mkCursor pv s i))
    (fun _ => match s with
              | String c s' => search_from r s' (Some c) (S i)
              | EmptyString => None
              end).

(** [s.match(r)] for a pattern without the [g] flag. *)
Definition exec (r : regex) (s : string) : option rmatch :=
  search_from r s None 0.

(** [r.test(s)] *)
Definition test (r : regex) (s : string) : bool :=
  match exec r s with Some _ => true | None => false end.

(** [Array.from(s.matchAll(r))]: the search resumes where the previous match
    stopped, one character further after an empty match.  [skip] counts the
    positions still covered by the previous match. *)
Fixpoint matchAll_from (r : regex) (s : string) (pv : option ascii) (i : nat)
    (skip : nat) : list rmatch :=
  let next := fun (sk : nat) =>
    match s with
    | String c s' => matchAll_from r s' (Some c) (S i) sk
    | EmptyString => []
    end in
  match skip with
  | S sk => next sk
  | O =>
      match match_at r (mkCursor pv s i) with
      | Some m => m :: next (Nat.pred (stop m - i))
      | None => next 0
      end
  end.

Definition matchAll (r : regex) (s : string) : list rmatch :=
  matchAll_from r s None 0 0.

Fixpoint lookup_group (n : nat) (caps : captures) : option (nat * nat) :=
  match caps with
  | [] => None
  | (m, span) :: caps' => if Nat.eqb n m then Some span else lookup_group n caps'
  end.

(** [m[n]] for [n >= 1]; the empty string stands for an unset group. *)
Definition group (s : string) (m : rmatch) (n : nat) : string :=
  match lookup_group n (groups m) with
  | Some (a, b) => substring s a b
  | None => EmptyString
  end.

(** [m[0]] *)
Definition whole (s : string) (m : rmatch) : string :=
  substring s (index m) (stop m).

(** Pattern combinators. *)
Definition plus (cls : ascii -> bool) : regex := Rep cls 1 None false.
Definition star (cls : ascii -> bool) : regex := Rep cls 0 None false.
Definition lazy_plus (cls : ascii -> bool) : regex := Rep cls 1 None true.
Definition lazy_upto (cls : ascii -> bool) (n : nat) : regex :=
  Rep cls 0 (Some n) true.

Fixpoint alts (rs : list regex) : regex :=
  match rs with
  | [] => Lit ""
  | [r] => r
  | r :: rs' => Alt r (alts rs')
  end.

Fixpoint seqs (rs : list regex) : regex :=
  match rs with
  | [] => Lit ""
  | [r] => r
  | r :: rs' => Seq r (seqs rs')
  end.

(** [\d+(?:\.\d+)?] *)
Definition decimal : regex :=
  Seq (plus is_digit) (Opt (Seq (Lit ".") (plus is_digit))).

End Regex.

Import Regex.

(* ================================================================== *)
(** * Data model *)
(* ================================================================== *)

(** A JavaScript number: [NaN], [Infinity] or [-Infinity], or a finite
    double, given by the rational it is. *)
Inductive JsNum : Type :=
| NaN
| Infinity (negative : bool)
| Finite (q : Q).

Bind Scope Q_scope with JsNum.

Coercion Finite : Q >-> JsNum.

(** A condition value is a number or a string. *)
Inductive Value : Type :=
| VNum (n : JsNum)
| VStr (s : string).

Record Condition : Type := mkCondition {
  field : string;
  operator : string;
  value : Value
}.

(** The rule document, as returned by the inferencer and read by the
    compilers.  [connectors = None] is an absent (or undefined) key,
    [provider = None] is [null]. *)
Record RuleDocument : Type := mkRuleDocument {
  logic : string;
  conditions : list Condition;
  connectors : option (list string);
  provider : option string
}.

(* ================================================================== *)
(** * Numbers of the inferencer *)
(* ================================================================== *)

Module JsNumber.

Definition digit_value (c : ascii) : N := code c - 48.

Fixpoint digits_value (s : string) (acc : N) : N :=
  match s with
  | EmptyString => acc
  | String c s' => digits_value s' (acc * 10 + digit_value c)
  end.

Fixpoint split_dot (s : string) : string * string :=
  match s with
  | EmptyString => (EmptyString, EmptyString)
  | String c s' =>
      if Ascii.eqb c "."%char then (EmptyString, s')
      else let '(a, b) := split_dot s' in (String c a, b)
  end.

(** ** Rounding to binary64

    A finite double is [m * 2^e] with [|m| < 2^53] and
    [-1074 <= e <= 971]. *)

(** The multiple of [2^e] nearest to [n / d], as its factor; a tie goes to
    the even factor.  [0 <= n] and [0 < d]. *)
Definition nearest_factor (e n d : Z) : Z :=
  let num := if (0 <=? e)%Z then n else (n * 2 ^ (- e))%Z in
  let den := if (0 <=? e)%Z then (d * 2 ^ e)%Z else d in
  let m := (num / den)%Z in
  let r := (num mod den)%Z in
  if (2 * r <? den)%Z then m
  else if (den <? 2 * r)%Z then (m + 1)%Z
  else if Z.even m then m else (m + 1)%Z.

(** The [k] with [2^k <= n / d < 2^(k+1)], for [0 < n] and [0 < d]. *)
Definition floor_log2 (n d : Z) : Z :=
  let k := (Z.log2 n - Z.log2 d)%Z in
  if (0 <=? k)%Z
  then (if (d * 2 ^ k <=? n)%Z then k else k - 1)%Z
  else (if (d <=? n * 2 ^ (- k))%Z then k else k - 1)%Z.

(** The double nearest to [n / d], for [0 < n] and [0 < d]: the last bit
    of a 53-bit significand weighs [2^(k - 52)], and no less than
    [2^-1074]; a result of [2^1024] or more is [Infinity]. *)
Definition round_positive (n d : Z) : JsNum :=
  let e := Z.max (floor_log2 n d - 52) (-1074) in
  let m := nearest_factor e n d in
  if ((971 <? e) || ((e =? 971) && (2 ^ 53 <=? m)))%Z%bool
  then Infinity false
  else if (0 <=? e)%Z then Finite (inject_Z (m * 2 ^ e))
  else Finite (Qred (Qmake m (Z.to_pos (2 ^ (- e))))).

Definition negate (x : JsNum) : JsNum :=
  match x with
  | NaN => NaN
  | Infinity negative => Infinity (negb negative)
  | Finite q => Finite (Qred (- q))
  end.

(** The double nearest to a rational. *)
Definition round_double (q : Q) : JsNum :=
  match Qnum q with
  | Z0 => Finite 0
  | Zpos n => round_positive (Zpos n) (Zpos (Qden q))
  | Zneg n => negate (round_positive (Zpos n) (Zpos (Qden q)))
  end.

(** [Number(tok)] for a token matched by [\d+(?:\.\d+)?]: the double
    nearest to [digits / 10^(number of fraction digits)], correctly rounded
    whatever the number of digits, as V8 does. *)
Definition Number_decimal (tok : string) : JsNum :=
  let '(ip, fp) := split_dot tok in
  let scale := N.pow 10 (N.of_nat (String.length fp)) in
  let mant := digits_value fp (digits_value ip 0) in
  round_double (Qmake (Z.of_N mant) (Z.to_pos (Z.of_N scale))).

Definition of_int (z : Z) : JsNum := Finite (inject_Z z).

(** [Math.round(x)]: the integer nearest to [x], ties upwards; it is a
    double whenever [x] is one. *)
Definition Math_round (x : JsNum) : JsNum :=
  match x with
  | Finite q => of_int (Qfloor (q + (1 # 2)))
  | _ => x
  end.

Definition is_zero (q : Q) : bool := (Qnum q =? 0)%Z.

Definition is_negative (q : Q) : bool := (Qnum q <? 0)%Z.

(** [x * y] *)
Definition mul (x y : JsNum) : JsNum :=
  match x, y with
  | NaN, _ | _, NaN => NaN
  | Infinity a, Infinity b => Infinity (xorb a b)
  | Infinity a, Finite q | Finite q, Infinity a =>
      if is_zero q then NaN else Infinity (xorb a (is_negative q))
  | Finite p, Finite q => round_double (p * q)
  end.

End JsNumber.

Import JsNumber.

(* ================================================================== *)
(** * Stage A: local heuristic extraction *)
(* ================================================================== *)

Module StageA.

Record NumberMatch : Type := mkNumberMatch {
  raw : string;
  nm_value : JsNum;
  nm_index : nat
}.

Record Best : Type := mkBest {
  b_value : JsNum;
  b_index : nat;
  b_dist : nat
}.

Record Candidate : Type := mkCandidate {
  c_field : string;
  c_operator : string;
  c_value : JsNum;
  c_index : nat
}.

Record Matched : Type := mkMatched {
  val : JsNum;
  idx : nat
}.

(** [Math.abs(a - b)] on indices. *)
Definition abs_diff (a b : nat) : nat := (a - b) + (b - a).

(** [/(\d+(?:\.\d+)?)/g] *)
Definition numberPattern : regex := Group 1 decimal.

(** [/(?:spent|spending|spend)\D{0,20}?(\d+(?:\.\d+)?)/] *)
Definition spendPattern : regex :=
  seqs [alts [Lit "spent"; Lit "spending"; Lit "spend"];
        lazy_upto is_non_digit 20;
        Group 1 decimal].

(** [/over\s*(\d+(?:\.\d+)?)/] *)
Definition overPattern : regex :=
  seqs [Lit "over"; star is_space; Group 1 decimal].

(** [/visited\D{0,20}?(\d+(?:\.\d+)?)/] *)
Definition visitedPattern : regex :=
  seqs [Lit "visited"; lazy_upto is_non_digit 20; Group 1 decimal].

(** [/(\d+(?:\.\d+)?)\s*(?:times|visits)/] *)
Definition timesPattern : regex :=
  seqs [Group 1 decimal; star is_space; alts [Lit "times"; Lit "visits"]].

(** [/([a-zA-Z_]+) (?:count|counts|number of|no of)
      (?:greater than|more than|over|less than|under|>=|>|<=|<|=)?\s*(\d+(?:\.\d+)?)/g],
    written on one line in the source, with single spaces. *)
Definition countPattern : regex :=
  seqs [Group 1 (plus is_alpha_us);
        Lit " ";
        alts [Lit "count"; Lit "counts"; Lit "number of"; Lit "no of"];
        Lit " ";
        Opt (alts [Lit "greater than"; Lit "more than"; Lit "over";
                   Lit "less than"; Lit "under";
                   Lit ">="; Lit ">"; Lit "<="; Lit "<"; Lit "="]);
        star is_space;
        Group 2 decimal].

(** [/([A-Za-z ]+?) between (\d+(?:\.\d+)?) and (\d+(?:\.\d+)?)/g] *)
Definition betweenPattern : regex :=
  seqs [Group 1 (lazy_plus is_alpha_sp);
        Lit " between ";
        Group 2 decimal;
        Lit " and ";
        Group 3 decimal].

(** [/\bor\b/] and [/\band\b/] *)
Definition orWord : regex := seqs [WordB; Lit "or"; WordB].
Definition andWord : regex := seqs [WordB; Lit "and"; WordB].

Definition includes_any (s : string) (ws : list string) : bool :=
  existsb (includes s) ws.

(** The operator read off a window of text: the chain
    [(greater...) ? '>' : ((less...) ? '<' : defaultOp)]. *)
Definition windowOp (nearby : string) (greater less : list string)
    (defaultOp : string) : string :=
  if includes_any nearby greater then ">"
  else if includes_any nearby less then "<"
  else defaultOp.

Section Prompt.

Variable lowercasePrompt : string.

Definition numberMatches : list NumberMatch :=
  map (fun m => mkNumberMatch (whole lowercasePrompt m)
                  (Number_decimal (group lowercasePrompt m 1))
                  (index m))
      (matchAll numberPattern lowercasePrompt).

(** The inner loop of [findNearestNumber]: [best] survives from one number
    to the next and is replaced on a strictly smaller distance only. *)
Definition nearer (ki : nat) (best : option Best) (nm : NumberMatch)
  : option Best :=
  let dist := abs_diff (nm_index nm) ki in
  match best with
  | None => Some (mkBest (nm_value nm) (nm_index nm) dist)
  | Some b =>
      if dist <? b_dist b
      then Some (mkBest (nm_value nm) (nm_index nm) dist)
      else best
  end.

Fixpoint findNearestNumber_loop (keywordVariants : list string)
    (best : option Best) : option (JsNum * nat) :=
  match keywordVariants with
  | [] => None
  | kw :: kws =>
      match indexOf lowercasePrompt kw with
      | None => findNearestNumber_loop kws best
      | Some ki =>
          let best' := fold_left (nearer ki) numberMatches best in
          match best' with
          | Some b => Some (b_value b, b_index b)
          | None => findNearestNumber_loop kws best'
          end
      end
  end.

Definition findNearestNumber (keywordVariants : list string)
  : option (JsNum * nat) :=
  findNearestNumber_loop keywordVariants None.

(** [keywordVariants.map(k => lowercasePrompt.indexOf(k)).filter(i => i >= 0)[0] ?? 0] *)
Definition firstKeywordIndex (keywordVariants : list string) : nat :=
  hd 0 (flat_map (fun k => match indexOf lowercasePrompt k with
                           | Some i => [i]
                           | None => []
                           end) keywordVariants).

(** [pushNumericCondition]; the result is what it pushes.  Its fourth
    parameter, [preferGreaterKeywords], is never read.  Subtraction on [nat]
    stops at 0, which is [Math.max(0, ... - 20)]. *)
Definition pushNumericCondition (fld : string) (keywordVariants : list string)
    (defaultOp : string) : list Candidate :=
  match findNearestNumber keywordVariants with
  | Some (v, ni) =>
      let ki := firstKeywordIndex keywordVariants in
      let start := Nat.min ki ni - 20 in
      let end_ := Nat.min (String.length lowercasePrompt) (Nat.max ki ni + 20) in
      let nearby := substring lowercasePrompt start end_ in
      let op := windowOp nearby ["more than"; "over"] ["less than"; "under"]
                  defaultOp in
      [mkCandidate fld op v ki]
  | None => []
  end.

(** The window [substring(max(0, idx - 20), min(length, idx + 20))]. *)
Definition nearbyOf (i : nat) : string :=
  substring lowercasePrompt (i - 20)
    (Nat.min (String.length lowercasePrompt) (i + 20)).

(** Spending family. *)
Definition spendMatched : option Matched :=
  match exec spendPattern lowercasePrompt with
  | Some m1 =>
      let m1_0 := whole lowercasePrompt m1 in
      let m1_1 := group lowercasePrompt m1 1 in
      Some (mkMatched (Number_decimal m1_1)
              (index m1 + match indexOf m1_0 m1_1 with
                          | Some j => j
                          | None => 0
                          end))
  | None =>
      match exec overPattern lowercasePrompt with
      | Some m2 =>
          if includes lowercasePrompt "spend"
          then Some (mkMatched (Number_decimal (group lowercasePrompt m2 1))
                       (index m2))
          else None
      | None => None
      end
  end.

Definition spendingCandidates : list Candidate :=
  if (includes lowercasePrompt "spend" || includes lowercasePrompt "spent"
      || includes lowercasePrompt "spending")%bool
  then match spendMatched with
       | Some matched =>
           let nearby := nearbyOf (idx matched) in
           let op := windowOp nearby ["more than"; "over"]
                       ["less than"; "under"] ">=" in
           [mkCandidate "totalSpending" op (val matched) (idx matched)]
       | None =>
           pushNumericCondition "totalSpending"
             ["spent"; "spending"; "spend"; "over"; "more than"] ">="
       end
  else [].

(** Visit-count family. *)
Definition visitMatched : option Matched :=
  match exec visitedPattern lowercasePrompt with
  | Some m1 =>
      Some (mkMatched (Number_decimal (group lowercasePrompt m1 1)) (index m1))
  | None =>
      match exec timesPattern lowercasePrompt with
      | Some m2 =>
          Some (mkMatched (Number_decimal (group lowercasePrompt m2 1))
                  (index m2))
      | None => None
      end
  end.

Definition visitTriggered : bool :=
  (includes lowercasePrompt "visit" || includes lowercasePrompt "visits"
   || includes lowercasePrompt "times" || includes lowercasePrompt "came")%bool.

Definition visitCandidates : list Candidate :=
  if visitTriggered
  then match visitMatched with
       | Some matched =>
           let nearby := nearbyOf (idx matched) in
           let op := windowOp nearby ["more than"; "over"] ["less than"] ">=" in
           [mkCandidate "visitCount" op (val matched) (idx matched)]
       | None =>
           pushNumericCondition "visitCount"
             ["visit"; "visits"; "times"; "time"; "came"] ">="
       end
  else [].

(** Recency family. *)
Definition timeKeywords : list string :=
  ["month"; "months"; "day"; "days"; "last"].

Definition unitIsMonth : bool :=
  existsb (includes lowercasePrompt) ["month"; "months"].

(** [Math.round(timeNum) * 30] or [Math.round(timeNum)] *)
Definition daysOf (timeNum : JsNum) : JsNum :=
  if unitIsMonth then mul (Math_round timeNum) 30 else Math_round timeNum.

Definition recencyCandidates : list Candidate :=
  if (includes lowercasePrompt "month" || includes lowercasePrompt "months"
      || includes lowercasePrompt "day" || includes lowercasePrompt "days"
      || includes lowercasePrompt "last")%bool
  then match findNearestNumber timeKeywords with
       | Some (timeNum, _) =>
           let ki := firstKeywordIndex timeKeywords in
           [mkCandidate "lastVisit" "before" (daysOf timeNum) ki]
       | None => []
       end
  else [].

(** Generic "<noun> count" pattern; a number token is never [NaN]. *)
Definition countCandidate (m : rmatch) : list Candidate :=
  let noun := group lowercasePrompt m 1 in
  let num := Number_decimal (group lowercasePrompt m 2) in
  let fieldName := noun ++ "Count" in
  let ki := index m in
  let surrounding :=
    substring lowercasePrompt (ki - 20) (ki + (stop m - index m) + 20) in
  let op := windowOp surrounding ["greater than"; "more than"; "over"]
              ["less than"; "under"] ">=" in
  [mkCandidate fieldName op num ki].

Definition countCandidates : list Candidate :=
  flat_map countCandidate (matchAll countPattern lowercasePrompt).

(** "between A and B" pattern. *)
Definition betweenCandidate (m : rmatch) : list Candidate :=
  let phrase := trim (group lowercasePrompt m 1) in
  let low := Number_decimal (group lowercasePrompt m 2) in
  let high := Number_decimal (group lowercasePrompt m 3) in
  if (includes phrase "spend" || includes phrase "spent"
      || includes phrase "spending")%bool
  then [mkCandidate "totalSpending" ">=" low (index m);
        mkCandidate "totalSpending" "<=" high (index m + 1)]
  else if (includes phrase "visit" || includes phrase "visits"
           || includes phrase "times")%bool
  then [mkCandidate "visitCount" ">=" low (index m);
        mkCandidate "visitCount" "<=" high (index m + 1)]
  else [].

Definition betweenCandidates : list Candidate :=
  flat_map betweenCandidate (matchAll betweenPattern lowercasePrompt).

(** [conditionCandidates] after all the pushes, in push order. *)
Definition pushedCandidates : list Candidate :=
  spendingCandidates ++ visitCandidates ++ recencyCandidates
  ++ countCandidates ++ betweenCandidates.

End Prompt.

(** [conditionCandidates.sort((a, b) => a.index - b.index)]: the sort is
    stable, so a candidate goes after those already placed whose index is
    not greater. *)
Fixpoint insert_by_index (c : Candidate) (l : list Candidate) : list Candidate :=
  match l with
  | [] => [c]
  | h :: t =>
      if c_index c <? c_index h then c :: h :: t
      else h :: insert_by_index c t
  end.

Definition sort_by_index (l : list Candidate) : list Candidate :=
  fold_left (fun acc c => insert_by_index c acc) l [].

Definition conditionOf (c : Candidate) : Condition :=
  mkCondition (c_field c) (c_operator c) (VNum (c_value c)).

(** The loop over adjacent candidates that fills [connectors]. *)
Fixpoint connectorsOf (lowercasePrompt : string) (cs : list Candidate)
  : list string :=
  match cs with
  | a :: ((b :: _) as cs') =>
      let between := trim (substring lowercasePrompt (c_index a) (c_index b)) in
      (if test orWord between then "OR" else "AND")
        :: connectorsOf lowercasePrompt cs'
  | _ => []
  end.

(** The local [rules] object as it stands before the provider gates
    (source lines up to the assignment of [rules.logic]). *)
Record Rules : Type := mkRules {
  r_logic : string;
  r_conditions : list Condition;
  r_connectors : option (list string)
}.

Definition localRules (prompt : string) : Rules :=
  let lowercasePrompt := toLowerCase prompt in
  let conditionCandidates := sort_by_index (pushedCandidates lowercasePrompt) in
  let conds := map conditionOf conditionCandidates in
  let connectors :=
    if 1 <? List.length conditionCandidates
    then connectorsOf lowercasePrompt conditionCandidates
    else [] in
  let rules_connectors :=
    if 0 <? List.length connectors then Some connectors else None in
  let no_connectors :=
    match rules_connectors with
    | None => true
    | Some l => Nat.eqb (List.length l) 0
    end in
  let lg :=
    if (no_connectors && test orWord lowercasePrompt
        && negb (test andWord lowercasePrompt))%bool
    then "OR" else "AND" in
  mkRules lg conds rules_connectors.

(** [{ ...rules, provider: null }] *)
Definition localDocument (prompt : string) : RuleDocument :=
  let rules := localRules prompt in
  mkRuleDocument (r_logic rules) (r_conditions rules) (r_connectors rules) None.

(** The comparison operators. *)
Definition comparison_op (op : string) : Prop :=
  op = ">" \/ op = "<" \/ op = ">=" \/ op = "<=".

End StageA.

Import StageA.

(* ================================================================== *)
(** * The rule predicate compilers *)
(* ================================================================== *)

Module Compiler.

(** Strict equality of two strings. *)
Notation "a === b" := (String.eqb a b) (at level 70, no associativity).

(** The Prisma filter objects the compilers build: [{ gt: n }], ... *)
Inductive NumFilter : Type :=
| gt (n : JsNum)
| lt (n : JsNum)
| gte (n : JsNum)
| lte (n : JsNum).

Inductive DateFilter (JsDate : Type) : Type :=
| date_lt (d : JsDate)
| date_gt (d : JsDate).

Inductive StringFilter : Type :=
| contains (v : Value).

Arguments date_lt {JsDate} d.
Arguments date_gt {JsDate} d.

(** [conditionWhere]: an object with at most the four keys below; [None] is
    an absent key, so [emptyWhere] is [{}]. *)
Record ConditionWhere (JsDate : Type) : Type := mkConditionWhere {
  w_totalSpending : option NumFilter;
  w_visitCount : option NumFilter;
  w_lastVisit : option (DateFilter JsDate);
  w_email : option StringFilter
}.

Arguments mkConditionWhere {JsDate} _ _ _ _.
Arguments w_totalSpending {JsDate} _.
Arguments w_visitCount {JsDate} _.
Arguments w_lastVisit {JsDate} _.
Arguments w_email {JsDate} _.

Definition emptyWhere {JsDate : Type} : ConditionWhere JsDate :=
  mkConditionWhere None None None None.

(** [where]: [{}], [{ AND: [...] }] or [{ OR: [...] }]. *)
Record Where (JsDate : Type) : Type := mkWhere {
  AND : option (list (ConditionWhere JsDate));
  OR : option (list (ConditionWhere JsDate))
}.

Arguments mkWhere {JsDate} _ _.
Arguments AND {JsDate} _.
Arguments OR {JsDate} _.

(** [l.map(f)] with the position of each element at hand. *)
Fixpoint mapi_from {A B : Type} (f : nat -> A -> B) (i : nat) (l : list A)
  : list B :=
  match l with
  | [] => []
  | x :: l' => f i x :: mapi_from f (S i) l'
  end.

Definition mapi {A B : Type} (f : nat -> A -> B) (l : list A) : list B :=
  mapi_from f 0 l.

Section Builders.

(** [ToNumber] on strings and the calendar step
    [d.setDate(d.getDate() - n)] are those of the host; the compilers do not
    depend on what they compute. *)
Variable StringToNumber : string -> JsNum.
Variable JsDate : Type.
Variable setDateBack : JsDate -> JsNum -> JsDate.

(** [Number(condition.value)] *)
Definition Number (v : Value) : JsNum :=
  match v with
  | VNum n => n
  | VStr s => StringToNumber s
  end.

(** The body of the [map] callback of [buildWhereClause]; [now] is the value
    of [new Date()] at that call. *)
Definition conditionWhere (now : JsDate) (condition : Condition)
  : ConditionWhere JsDate :=
  let fld := field condition in
  let op := operator condition in
  if fld === "totalSpending" then
    if op === ">" then
      mkConditionWhere (Some (gt (Number (value condition)))) None None None
    else if op === "<" then
      mkConditionWhere (Some (lt (Number (value condition)))) None None None
    else if op === ">=" then
      mkConditionWhere (Some (gte (Number (value condition)))) None None None
    else if op === "<=" then
      mkConditionWhere (Some (lte (Number (value condition)))) None None None
    else emptyWhere
  else if fld === "visitCount" then
    if op === ">" then
      mkConditionWhere None (Some (gt (Number (value condition)))) None None
    else if op === "<" then
      mkConditionWhere None (Some (lt (Number (value condition)))) None None
    else emptyWhere
  else if fld === "lastVisit" then
    let daysAgo := setDateBack now (Number (value condition)) in
    if op === "before" then
      mkConditionWhere None None (Some (date_lt daysAgo)) None
    else if op === "after" then
      mkConditionWhere None None (Some (date_gt daysAgo)) None
    else emptyWhere
  else if fld === "email" then
    if op === "contains" then
      mkConditionWhere None None None (Some (contains (value condition)))
    else emptyWhere
  else emptyWhere.

(** [buildWhereClause] of the campaign routes.  The guard
    [rules.conditions && Array.isArray(rules.conditions)] holds of every
    [RuleDocument].  [new Date()] is evaluated inside the callback:
    [clock i] is the time it reads while condition [i] is mapped. *)
Definition buildWhereClause (clock : nat -> JsDate) (rules : RuleDocument)
  : Where JsDate :=
  let conds :=
    mapi (fun i condition => conditionWhere (clock i) condition)
      (conditions rules) in
  if logic rules === "OR"
  then mkWhere None (Some conds)
  else mkWhere (Some conds) None.

(** The body of the [map] callback of [buildWhereClauseForSegment]: no
    [lastVisit] case. *)
Definition conditionWhereForSegment (condition : Condition)
  : ConditionWhere JsDate :=
  let fld := field condition in
  let op := operator condition in
  if fld === "totalSpending" then
    if op === ">" then
      mkConditionWhere (Some (gt (Number (value condition)))) None None None
    else if op === "<" then
      mkConditionWhere (Some (lt (Number (value condition)))) None None None
    else if op === ">=" then
      mkConditionWhere (Some (gte (Number (value condition)))) None None None
    else if op === "<=" then
      mkConditionWhere (Some (lte (Number (value condition)))) None None None
    else emptyWhere
  else if fld === "visitCount" then
    if op === ">" then
      mkConditionWhere None (Some (gt (Number (value condition)))) None None
    else if op === "<" then
      mkConditionWhere None (Some (lt (Number (value condition)))) None None
    else emptyWhere
  else if fld === "email" then
    if op === "contains" then
      mkConditionWhere None None None (Some (contains (value condition)))
    else emptyWhere
  else emptyWhere.

(** [buildWhereClauseForSegment] of the segment routes. *)
Definition buildWhereClauseForSegment (rules : RuleDocument) : Where JsDate :=
  let conds := map conditionWhereForSegment (conditions rules) in
  if logic rules === "OR"
  then mkWhere None (Some conds)
  else mkWhere (Some conds) None.

(** The (field, operator) pairs for which [buildWhereClause] has a case. *)
Definition supported (condition : Condition) : bool :=
  let fld := field condition in
  let op := operator condition in
  if fld === "totalSpending" then
    ((op === ">") || (op === "<") || (op === ">=") || (op === "<="))%bool
  else if fld === "visitCount" then ((op === ">") || (op === "<"))%bool
  else if fld === "lastVisit" then ((op === "before") || (op === "after"))%bool
  else if fld === "email" then op === "contains"
  else false.

(** The list of per-condition constraints a filter carries. *)
Definition clauses (w : Where JsDate) : list (ConditionWhere JsDate) :=
  match AND w, OR w with
  | Some l, _ => l
  | None, Some l => l
  | None, None => []
  end.

(** ** What a filter selects

    The store reads a filter object as the conjunction of its keys, [AND] as
    "every element holds" and [OR] as "some element holds"; how a single
    comparison is evaluated against a record is left to the store. *)
Variable Customer : Type.
Variable sat_totalSpending : NumFilter -> Customer -> bool.
Variable sat_visitCount : NumFilter -> Customer -> bool.
Variable sat_lastVisit : DateFilter JsDate -> Customer -> bool.
Variable sat_email : StringFilter -> Customer -> bool.

Definition sat_key {F : Type} (sat : F -> Customer -> bool) (key : option F)
    (c : Customer) : bool :=
  match key with
  | Some f => sat f c
  | None => true
  end.

Definition matchesCondition (cw : ConditionWhere JsDate) (c : Customer) : bool :=
  (sat_key sat_totalSpending (w_totalSpending cw) c
   && sat_key sat_visitCount (w_visitCount cw) c
   && sat_key sat_lastVisit (w_lastVisit cw) c
   && sat_key sat_email (w_email cw) c)%bool.

Definition matchesWhere (w : Where JsDate) (c : Customer) : bool :=
  (match AND w with
   | Some cws => forallb (fun cw => matchesCondition cw c) cws
   | None => true
   end
   &&
   match OR w with
   | Some cws => existsb (fun cw => matchesCondition cw c) cws
   | None => true
   end)%bool.

End Builders.

(** The document of the permissiveness test. *)
Definition unknownFieldRules : RuleDocument :=
  mkRuleDocument "AND" [mkCondition "unknownField" ">" (VNum 1)] None None.

End Compiler.

Import Compiler.

(* ================================================================== *)
(** * Stage B: provider orchestration *)
(* ================================================================== *)

Module Inferencer.

(** A value produced by [JSON.parse]; an object is its list of keys, the
    first binding of a key being the one in force. *)
#[local] Set Warnings "-register-all".
Inductive Json : Type :=
| JNull
| JBool (b : bool)
| JNum (q : Q)
| JStr (s : string)
| JArr (items : list Json)
| JObj (members : list (string * Json)).

(** [!j] is false. *)
Definition truthy (j : Json) : bool :=
  match j with
  | JNull => false
  | JBool b => b
  | JNum q => negb (Qeq_bool q 0)
  | JStr s => negb (s === "")
  | JArr _ => true
  | JObj _ => true
  end.

Fixpoint get (key : string) (members : list (string * Json)) : option Json :=
  match members with
  | [] => None
  | (k, v) :: members' => if k === key then Some v else get key members'
  end.

(** The part of [process.env] the inferencer reads; [None] is an unset
    variable. *)
Record Env : Type := mkEnv {
  ENABLE_PROVIDER_NL_TO_RULES : option string;
  PROVIDER_FIRST_NL_TO_RULES : option string;
  GEMINI_API_KEY : option string;
  OPENAI_API_KEY : option string;
  GEMINI_API_URL : option string
}.

(** Truthiness of an environment variable. *)
Definition is_set (v : option string) : bool :=
  match v with
  | Some s => negb (s === "")
  | None => false
  end.

Definition is_true (v : option string) : bool :=
  match v with
  | Some s => s === "true"
  | None => false
  end.

(** The text [callProviderApi] returns, as far as its caller looks at it:
    whether it is the empty string, and what [extractJsonFromText] finds in
    it ([None] for [null]). *)
Record ProviderText : Type := mkProviderText {
  is_empty : bool;
  extracted_json : option Json
}.

(** The outcome of one request of [callProviderApi]: [axios.post] rejects
    (network error, non-2xx status, the 20 s timeout) or anything else in
    the [try] throws, or a text is returned. *)
Inductive Reply : Type :=
| Rejects
| Resolves (text : ProviderText).

Inductive Event : Type :=
| ApiCall            (* one invocation of [callProviderApi] *)
| Sleep (ms : nat).  (* one [setTimeout] backoff *)

(** The world the inferencer acts on: the number of requests posted so far
    and the events in the order they happened. *)
Record World : Type := mkWorld {
  posted : nat;
  trace : list Event
}.

Definition initial : World := mkWorld 0 [].

Inductive Error : Type :=
| RequestFailed
| EmptyProviderResponse
| FailedToParseJson
| ProviderFailedAfterRetries
| ZodError.

Inductive result (A : Type) : Type :=
| Ok (a : A)
| Throw (e : Error).

Arguments Ok {A} a.
Arguments Throw {A} e.

(** State and exceptions. *)
Definition M (A : Type) : Type := World -> result A * World.

Definition ret {A} (a : A) : M A := fun w => (Ok a, w).

Definition throw {A} (e : Error) : M A := fun w => (Throw e, w).

Definition bind {A B} (m : M A) (f : A -> M B) : M B :=
  fun w => match m w with
           | (Ok a, w') => f a w'
           | (Throw e, w') => (Throw e, w')
           end.

Definition try_catch {A} (m : M A) (handler : Error -> M A) : M A :=
  fun w => match m w with
           | (Ok a, w') => (Ok a, w')
           | (Throw e, w') => handler e w'
           end.

Definition emit (ev : Event) : M unit :=
  fun w => (Ok tt, mkWorld (posted w) (trace w ++ [ev])).

Notation "x <- m ;; k" := (bind m (fun x => k))
  (at level 61, m at next level, right associativity).
Notation "m ;;; k" := (bind m (fun _ => k))
  (at level 61, right associativity).

Definition apiCalls (w : World) : nat :=
  List.length (filter (fun ev => match ev with ApiCall => true | _ => false end)
                 (trace w)).

(** ** Schema validation *)

Record ParsedRules : Type := mkParsedRules {
  p_logic : string;
  p_conditions : list Condition;
  p_connectors : option (list string)
}.

(** [z.enum(['AND', 'OR'])] *)
Definition parseConnector (j : Json) : option string :=
  match j with
  | JStr s => if ((s === "AND") || (s === "OR"))%bool then Some s else None
  | _ => None
  end.

(** [z.union([z.string(), z.number()])] *)
Definition parseValue (j : Json) : option Value :=
  match j with
  | JStr s => Some (VStr s)
  | JNum q => Some (VNum (Finite q))
  | _ => None
  end.

Definition parseString (j : Json) : option string :=
  match j with
  | JStr s => Some s
  | _ => None
  end.

(** [ConditionSchema]: an object whose three keys are present and well typed;
    other keys are stripped. *)
Definition parseCondition (j : Json) : option Condition :=
  match j with
  | JObj members =>
      match get "field" members, get "operator" members, get "value" members with
      | Some f, Some o, Some v =>
          match parseString f, parseString o, parseValue v with
          | Some f', Some o', Some v' => Some (mkCondition f' o' v')
          | _, _, _ => None
          end
      | _, _, _ => None
      end
  | _ => None
  end.

(** [z.array(schema)] *)
Fixpoint parseAll {A} (parse : Json -> option A) (items : list Json)
  : option (list A) :=
  match items with
  | [] => Some []
  | j :: items' =>
      match parse j, parseAll parse items' with
      | Some a, Some l => Some (a :: l)
      | _, _ => None
      end
  end.

Definition parseArray {A} (parse : Json -> option A) (j : Json)
  : option (list A) :=
  match j with
  | JArr items => parseAll parse items
  | _ => None
  end.

(** [RulesSchema.parse(providerResp)] on a value that is not [undefined]:
    [logic] and [conditions] are required, [connectors] may be absent; the
    number of connectors is not checked. *)
Definition RulesSchema_parse (providerResp : Json) : result ParsedRules :=
  match providerResp with
  | JObj members =>
      match get "logic" members, get "conditions" members with
      | Some lg, Some cs =>
          match parseConnector lg, parseArray parseCondition cs with
          | Some lg', Some cs' =>
              match get "connectors" members with
              | None => Ok (mkParsedRules lg' cs' None)
              | Some cn =>
                  match parseArray parseConnector cn with
                  | Some cn' => Ok (mkParsedRules lg' cs' (Some cn'))
                  | None => Throw ZodError
                  end
              end
          | _, _ => Throw ZodError
          end
      | _, _ => Throw ZodError
      end
  | _ => Throw ZodError
  end.

(** A reply the inferencer cannot use: the request is rejected, the text is
    empty, no JSON is found in it, or the JSON fails the schema or has no
    condition. *)
Definition unusable (r : Reply) : bool :=
  match r with
  | Rejects => true
  | Resolves t =>
      (is_empty t
       || match extracted_json t with
          | None => true
          | Some j =>
              (negb (truthy j)
               || match RulesSchema_parse j with
                  | Throw _ => true
                  | Ok p => Nat.eqb (List.length (p_conditions p)) 0
                  end)%bool
          end)%bool
  end.

Section Provider.

(** The provider, as the sequence of its replies: what the [n]-th posted
    request comes back with. *)
Variable replies : nat -> Reply.

Variable env : Env.

(** [axios.post(...)] followed by the text extraction. *)
Definition post : M (option ProviderText) :=
  fun w =>
    let w' := mkWorld (S (posted w)) (trace w) in
    match replies (posted w) with
    | Rejects => (Throw RequestFailed, w')
    | Resolves text => (Ok (Some text), w')
    end.

(** [callProviderApi]: the Gemini endpoint when its URL and key are set,
    else the OpenAI endpoint when its key is set, else [null]. *)
Definition callProviderApi : M (option ProviderText) :=
  emit ApiCall ;;;
  if (is_set (GEMINI_API_URL env) && is_set (GEMINI_API_KEY env))%bool then post
  else if is_set (OPENAI_API_KEY env) then post
  else ret None.

(** Whether [callProviderApi] has an endpoint to post to. *)
Definition hasEndpoint : bool :=
  ((is_set (GEMINI_API_URL env) && is_set (GEMINI_API_KEY env))
   || is_set (OPENAI_API_KEY env))%bool.

(** One pass through the [try] block of [callProviderForRulesWithRetries]. *)
Definition attemptOnce : M Json :=
  text <- callProviderApi ;;
  match text with
  | None => throw EmptyProviderResponse
  | Some t =>
      if is_empty t then throw EmptyProviderResponse
      else match extracted_json t with
           | None => throw FailedToParseJson
           | Some j => if truthy j then ret j else throw FailedToParseJson
           end
  end.

(** The [while (attempt < attempts)] loop, by recursion on the attempts that
    remain; [attempt] is the counter before its increment. *)
Fixpoint retryLoop (remaining attempt : nat) (lastErr : option Error) : M Json :=
  match remaining with
  | O =>
      throw (match lastErr with
             | Some e => e
             | None => ProviderFailedAfterRetries
             end)
  | S remaining' =>
      let attempt' := S attempt in
      try_catch attemptOnce
        (fun err =>
           let backoff := Nat.pow 2 attempt' * 200 in
           emit (Sleep backoff) ;;;
           retryLoop remaining' attempt' (Some err))
  end.

Definition callProviderForRulesWithRetries (attempts : nat) : M Json :=
  retryLoop attempts 0 None.

Definition enableProvider : bool := is_true (ENABLE_PROVIDER_NL_TO_RULES env).

(** [GEMINI_API_KEY || OPENAI_API_KEY], as a condition. *)
Definition apiKey : bool :=
  (is_set (GEMINI_API_KEY env) || is_set (OPENAI_API_KEY env))%bool.

Definition providerFirst : bool :=
  (is_true (PROVIDER_FIRST_NL_TO_RULES env)
   || (enableProvider && is_set (GEMINI_API_KEY env)))%bool.

Definition providerName : string :=
  if is_set (GEMINI_API_KEY env) then "GEMINI"
  else if is_set (OPENAI_API_KEY env) then "OPENAI"
  else "NONE".

(** The provider gates of [convertNaturalLanguageToRules]. *)
Definition firstGate : bool :=
  (enableProvider && apiKey && providerFirst)%bool.

Definition secondGate (prompt : string) : bool :=
  let n := List.length (r_conditions (localRules prompt)) in
  ((negb (0 <? n) || ((0 <? n) && (n <? 2)))
   && enableProvider && apiKey)%bool.

(** The body shared by the two [try] blocks: call, validate, and return the
    provider's document when it has a condition.  [None] stands for falling
    out of the [if] without returning. *)
Definition askProvider (attempts : nat) : M (option RuleDocument) :=
  providerResp <- callProviderForRulesWithRetries attempts ;;
  match RulesSchema_parse providerResp with
  | Throw e => throw e
  | Ok parsed =>
      if 0 <? List.length (p_conditions parsed)
      then ret (Some (mkRuleDocument (p_logic parsed) (p_conditions parsed)
                        (p_connectors parsed) (Some providerName)))
      else ret None
  end.

Definition tryProvider (attempts : nat) : M (option RuleDocument) :=
  try_catch (askProvider attempts) (fun _ => ret None).

(** [convertNaturalLanguageToRules] *)
Definition convertNaturalLanguageToRules (prompt : string) : M RuleDocument :=
  let rules := localRules prompt in
  first <- (if (enableProvider && apiKey && providerFirst)%bool
            then tryProvider 3 else ret None) ;;
  match first with
  | Some doc => ret doc
  | None =>
      let n := List.length (r_conditions rules) in
      let weak := (negb (0 <? n) || ((0 <? n) && (n <? 2)))%bool in
      second <- (if (weak && enableProvider && apiKey)%bool
                 then tryProvider 2 else ret None) ;;
      match second with
      | Some doc => ret doc
      | None => ret (localDocument prompt)
      end
  end.

End Provider.

(** ** Configurations and providers used in the examples *)

(** Nothing set. *)
Definition env_disabled : Env := mkEnv None None None None None.

(** The Gemini key, its URL and the provider-first flag set, the enable flag
    unset. *)
Definition env_key_only : Env :=
  mkEnv None (Some "true") (Some "key") None (Some "https://gemini.test").

(** Enabled with the OpenAI key: the fallback block only. *)
Definition env_openai : Env := mkEnv (Some "true") None None (Some "key") None.

(** Enabled with the Gemini key and URL, the provider-first flag unset. *)
Definition env_gemini : Env :=
  mkEnv (Some "true") None (Some "key") None (Some "https://gemini.test").

(** A provider every request to which times out. *)
Definition provider_down : nat -> Reply := fun _ => Rejects.

(** [{"logic": "AND", "conditions": [{"field": "email", "operator":
    "contains", "value": "gmail"}], "connectors": ["AND", "OR"]}] *)
Definition twoConnectorsJson : Json :=
  JObj [("logic", JStr "AND");
        ("conditions",
         JArr [JObj [("field", JStr "email"); ("operator", JStr "contains");
                     ("value", JStr "gmail")]]);
        ("connectors", JArr [JStr "AND"; JStr "OR"])].

(** A provider that answers every request with that JSON text. *)
Definition provider_twoConnectors : nat -> Reply :=
  fun _ => Resolves (mkProviderText false (Some twoConnectorsJson)).

End Inferencer.

Import Inferencer.

(* ================================================================== *)
(** * Properties of Stage A *)
(* ================================================================== *)

(** The matcher on a few subjects. *)

Example number_tokens :
  map (fun m => (index m, group "a1.5b22 3." m 1))
      (matchAll numberPattern "a1.5b22 3.")
  = [(1, "1.5"); (5, "22"); (8, "3")].
Proof. vm_compute. reflexivity. Qed.

Example times_pattern_leftmost :
  option_map (fun m => (index m, group "1.2.3 times" m 1))
    (exec timesPattern "1.2.3 times")
  = Some (2, "2.3").
Proof. vm_compute. reflexivity. Qed.

Example spend_pattern_lazy_gap :
  option_map (fun m => (index m, whole "spending about 10, spent 20" m))
    (exec spendPattern "spending about 10, spent 20")
  = Some (0, "spending about 10").
Proof. vm_compute. reflexivity. Qed.

Example between_pattern_phrase :
  map (fun m => (index m, group "customers who spent between 100 and 500" m 1))
      (matchAll betweenPattern "customers who spent between 100 and 500")
  = [(0, "customers who spent")].
Proof. vm_compute. reflexivity. Qed.

Example or_as_a_word :
  test orWord "spent 5 or more" = true /\ test orWord "for orders" = false.
Proof. split; vm_compute; reflexivity. Qed.

Example lower_case_latin1 : toLowerCase "Spent OVER 500" = "spent over 500".
Proof. vm_compute. reflexivity. Qed.

Section SortFacts.

Lemma insert_by_index_In (c x : Candidate) (l : list Candidate) :
  In x (insert_by_index c l) <-> x = c \/ In x l.
Proof.
  induction l as [|h t IH]; simpl.
  - intuition.
  - destruct (c_index c <? c_index h); simpl.
    + intuition.
    + rewrite IH. intuition.
Qed.

Lemma insert_by_index_length (c : Candidate) (l : list Candidate) :
  List.length (insert_by_index c l) = S (List.length l).
Proof.
  induction l as [|h t IH]; simpl; [reflexivity|].
  destruct (c_index c <? c_index h); simpl; congruence.
Qed.

Lemma fold_insert_In (l acc : list Candidate) (x : Candidate) :
  In x (fold_left (fun a c => insert_by_index c a) l acc) <-> In x l \/ In x acc.
Proof.
  revert acc. induction l as [|h t IH]; intros acc; simpl.
  - intuition.
  - rewrite IH, insert_by_index_In. intuition.
Qed.

Lemma fold_insert_length (l acc : list Candidate) :
  List.length (fold_left (fun a c => insert_by_index c a) l acc)
  = List.length l + List.length acc.
Proof.
  revert acc. induction l as [|h t IH]; intros acc; simpl; [reflexivity|].
  rewrite IH, insert_by_index_length. lia.
Qed.

Lemma sort_by_index_In (l : list Candidate) (x : Candidate) :
  In x (sort_by_index l) <-> In x l.
Proof.
  unfold sort_by_index. rewrite fold_insert_In. simpl. intuition.
Qed.

Lemma sort_by_index_length (l : list Candidate) :
  List.length (sort_by_index l) = List.length l.
Proof.
  unfold sort_by_index. rewrite fold_insert_length. simpl. lia.
Qed.

End SortFacts.

Lemma connectorsOf_length (lp : string) (cs : list Candidate) :
  List.length (connectorsOf lp cs) = List.length cs - 1.
Proof.
  induction cs as [|a [|b t] IH]; simpl in *; try reflexivity.
  rewrite IH. lia.
Qed.

Lemma localRules_conditions_length (prompt : string) :
  List.length (r_conditions (localRules prompt))
  = List.length (sort_by_index (pushedCandidates (toLowerCase prompt))).
Proof.
  unfold localRules. simpl. apply length_map.
Qed.

(** The connectors of the local rules: absent below two conditions, else one
    per gap. *)
Lemma localRules_connectors (prompt : string) :
  match r_connectors (localRules prompt) with
  | Some cn =>
      2 <= List.length (r_conditions (localRules prompt))
      /\ List.length cn = List.length (r_conditions (localRules prompt)) - 1
  | None => List.length (r_conditions (localRules prompt)) < 2
  end.
Proof.
  rewrite localRules_conditions_length.
  unfold localRules. cbv zeta. simpl r_connectors.
  set (cs := sort_by_index (pushedCandidates (toLowerCase prompt))).
  destruct (1 <? List.length cs) eqn:E.
  - apply Nat.ltb_lt in E.
    assert (L := connectorsOf_length (toLowerCase prompt) cs).
    destruct (0 <? List.length (connectorsOf (toLowerCase prompt) cs)) eqn:F.
    + split; [lia | exact L].
    + apply Nat.ltb_ge in F. lia.
  - apply Nat.ltb_ge in E. simpl. lia.
Qed.

Lemma localDocument_connectors (prompt : string) :
  match connectors (localDocument prompt) with
  | Some cn =>
      2 <= List.length (conditions (localDocument prompt))
      /\ List.length cn = List.length (conditions (localDocument prompt)) - 1
  | None => List.length (conditions (localDocument prompt)) < 2
  end.
Proof. exact (localRules_connectors prompt). Qed.

(** The assignment of [rules.logic]. *)
Lemma localDocument_logic (prompt : string) :
  logic (localDocument prompt)
  = if (match connectors (localDocument prompt) with
        | None => true
        | Some l => Nat.eqb (List.length l) 0
        end
        && test orWord (toLowerCase prompt)
        && negb (test andWord (toLowerCase prompt)))%bool
    then "OR" else "AND".
Proof. reflexivity. Qed.

(* ================================================================== *)
(** * Properties of the provider orchestration *)
(* ================================================================== *)

Section Orchestration.

Variable replies : nat -> Reply.
Variable env : Env.

Lemma apiCalls_emit_ApiCall (w : World) :
  apiCalls (mkWorld (posted w) (trace w ++ [ApiCall])) = S (apiCalls w).
Proof.
  unfold apiCalls. simpl. rewrite filter_app, length_app. simpl. lia.
Qed.

Lemma apiCalls_emit_Sleep (w : World) (ms p : nat) :
  apiCalls (mkWorld p (trace w ++ [Sleep ms])) = apiCalls w.
Proof.
  unfold apiCalls. simpl. rewrite filter_app, length_app. simpl. lia.
Qed.

Lemma apiCalls_posted (p q : nat) (tr : list Event) :
  apiCalls (mkWorld p tr) = apiCalls (mkWorld q tr).
Proof. reflexivity. Qed.

Lemma post_calls (w : World) :
  exists r w',
    post replies w = (r, w')
    /\ apiCalls w' = apiCalls w
    /\ (forall t, r = Ok (Some t) -> exists n, replies n = Resolves t).
Proof.
  unfold post.
  destruct (replies (posted w)) as [|t0] eqn:E.
  - eexists; eexists; split; [reflexivity|]. split; [reflexivity|].
    intros t H; inversion H.
  - eexists; eexists; split; [reflexivity|]. split; [reflexivity|].
    intros t H; inversion H; subst. exists (posted w); exact E.
Qed.

Lemma callProviderApi_calls (w : World) :
  exists r w',
    callProviderApi replies env w = (r, w')
    /\ apiCalls w' = S (apiCalls w)
    /\ (forall t, r = Ok (Some t) -> exists n, replies n = Resolves t).
Proof.
  unfold callProviderApi, bind, emit.
  set (w1 := mkWorld (posted w) (trace w ++ [ApiCall])).
  assert (C1 : apiCalls w1 = S (apiCalls w)) by apply apiCalls_emit_ApiCall.
  destruct (post_calls w1) as (r & w' & E & C & P).
  destruct (is_set (GEMINI_API_URL env) && is_set (GEMINI_API_KEY env))%bool;
    [| destruct (is_set (OPENAI_API_KEY env))].
  - exists r, w'. rewrite E. repeat split; [lia | exact P].
  - exists r, w'. rewrite E. repeat split; [lia | exact P].
  - exists (Ok None), w1. unfold ret. repeat split; [exact C1|].
    intros t H; inversion H.
Qed.

Lemma attemptOnce_calls (w : World) :
  exists r w',
    attemptOnce replies env w = (r, w')
    /\ apiCalls w' = S (apiCalls w)
    /\ (forall j, r = Ok j ->
        truthy j = true
        /\ exists n t, replies n = Resolves t /\ is_empty t = false
                       /\ extracted_json t = Some j).
Proof.
  unfold attemptOnce, bind.
  destruct (callProviderApi_calls w) as (r & w' & E & C & P).
  rewrite E.
  assert (No : forall e : Error,
             exists r0 w0, (@Throw Json e, w') = (r0, w0)
               /\ apiCalls w0 = S (apiCalls w)
               /\ (forall j, r0 = Ok j ->
                   truthy j = true
                   /\ exists n t, replies n = Resolves t /\ is_empty t = false
                                  /\ extracted_json t = Some j)).
  { intros e. exists (Throw e), w'. repeat split; try exact C; inversion H. }
  destruct r as [[t|]|e]; unfold throw, ret; try apply No.
  destruct (P t eq_refl) as (n & Pn).
  destruct (is_empty t) eqn:Ee; try apply No.
  destruct (extracted_json t) as [j|] eqn:Ej; try apply No.
  destruct (truthy j) eqn:Tj; try apply No.
  exists (Ok j), w'. split; [reflexivity|]. split; [exact C|].
  intros j' H; inversion H; subst. split; [exact Tj|].
  exists n, t. auto.
Qed.

Lemma retryLoop_calls (remaining attempt : nat) (lastErr : option Error)
    (w : World) :
  exists r w',
    retryLoop replies env remaining attempt lastErr w = (r, w')
    /\ (apiCalls w + Nat.min 1 remaining <= apiCalls w'
        /\ apiCalls w' <= apiCalls w + remaining)
    /\ (forall j, r = Ok j ->
        truthy j = true
        /\ exists n t, replies n = Resolves t /\ is_empty t = false
                       /\ extracted_json t = Some j).
Proof.
  revert attempt lastErr w.
  induction remaining as [|k IH]; intros attempt lastErr w.
  - simpl. unfold throw. eexists; eexists. split; [reflexivity|].
    split; [simpl; lia|]. intros j H; inversion H.
  - cbn [retryLoop]. unfold try_catch.
    destruct (attemptOnce_calls w) as (r & w' & E & C & P).
    rewrite E. destruct r as [j|e].
    + exists (Ok j), w'. split; [reflexivity|]. split; [simpl; lia|]. exact P.
    + unfold bind, emit.
      set (w1 := mkWorld (posted w') (trace w' ++ [Sleep (2 ^ S attempt * 200)])).
      destruct (IH (S attempt) (Some e) w1) as (r2 & w2 & E2 & C2 & P2).
      rewrite E2. exists r2, w2. split; [reflexivity|]. split; [|exact P2].
      assert (apiCalls w1 = apiCalls w') by apply apiCalls_emit_Sleep.
      simpl. lia.
Qed.

(** One guarded provider block: it never throws, stays within its attempts,
    and yields a document only out of a reply that passed the schema with a
    condition. *)
Lemma tryProvider_calls (attempts : nat) (w : World) :
  exists r w',
    tryProvider replies env attempts w = (Ok r, w')
    /\ (apiCalls w + Nat.min 1 attempts <= apiCalls w'
        /\ apiCalls w' <= apiCalls w + attempts)
    /\ (forall doc, r = Some doc ->
        exists n t j p,
          replies n = Resolves t /\ extracted_json t = Some j
          /\ unusable (replies n) = false
          /\ RulesSchema_parse j = Ok p
          /\ doc = mkRuleDocument (p_logic p) (p_conditions p) (p_connectors p)
                     (Some (providerName env))).
Proof.
  unfold tryProvider, try_catch, askProvider, bind, callProviderForRulesWithRetries.
  destruct (retryLoop_calls attempts 0 None w) as (r & w' & E & C & P).
  rewrite E. destruct r as [j|e].
  - destruct (P j eq_refl) as (Tj & n & t & Pn & Ee & Ej).
    destruct (RulesSchema_parse j) as [p|e] eqn:Ep.
    + destruct (0 <? List.length (p_conditions p)) eqn:L.
      * unfold ret. eexists; eexists. split; [reflexivity|]. split; [exact C|].
        intros doc H; inversion H; subst.
        exists n, t, j, p. repeat split; auto.
        unfold unusable. rewrite Pn, Ee, Ej, Tj, Ep. simpl.
        apply Nat.ltb_lt in L. apply Nat.eqb_neq. lia.
      * unfold ret. eexists; eexists. split; [reflexivity|]. split; [exact C|].
        intros doc H; inversion H.
    + unfold throw, ret. eexists; eexists. split; [reflexivity|].
      split; [exact C|]. intros doc H; inversion H.
  - unfold ret. eexists; eexists. split; [reflexivity|]. split; [exact C|].
    intros doc H; inversion H.
Qed.

(** Every run returns: either the local document, or a document taken from
    a usable reply and tagged with the provider's name; the provider is
    called at most 3 + 2 times. *)
Lemma convert_returns (prompt : string) (w : World) :
  exists doc w',
    convertNaturalLanguageToRules replies env prompt w = (Ok doc, w')
    /\ (apiCalls w + (if firstGate env then 1 else 0) <= apiCalls w'
        /\ apiCalls w' <= apiCalls w + (if firstGate env then 3 else 0)
                          + (if secondGate env prompt then 2 else 0))
    /\ (doc = localDocument prompt
        \/ exists n t j p,
             replies n = Resolves t /\ extracted_json t = Some j
             /\ unusable (replies n) = false
             /\ RulesSchema_parse j = Ok p
             /\ doc = mkRuleDocument (p_logic p) (p_conditions p)
                        (p_connectors p) (Some (providerName env))).
Proof.
  unfold convertNaturalLanguageToRules, bind.
  fold (firstGate env). fold (secondGate env prompt).
  assert (Step2 : forall w1,
    apiCalls w + (if firstGate env then 1 else 0) <= apiCalls w1 ->
    apiCalls w1 <= apiCalls w + (if firstGate env then 3 else 0) ->
    exists doc w',
      (let (r, w2) := (if secondGate env prompt then tryProvider replies env 2
                       else ret None) w1 in
       match r with
       | Ok (Some d) => ret d w2
       | Ok None => ret (localDocument prompt) w2
       | Throw e => (Throw e, w2)
       end) = (Ok doc, w')
      /\ (apiCalls w + (if firstGate env then 1 else 0) <= apiCalls w'
          /\ apiCalls w' <= apiCalls w + (if firstGate env then 3 else 0)
                            + (if secondGate env prompt then 2 else 0))
      /\ (doc = localDocument prompt
          \/ exists n t j p,
               replies n = Resolves t /\ extracted_json t = Some j
               /\ unusable (replies n) = false
               /\ RulesSchema_parse j = Ok p
               /\ doc = mkRuleDocument (p_logic p) (p_conditions p)
                          (p_connectors p) (Some (providerName env)))).
  { intros w1 Lo Hi. destruct (secondGate env prompt).
    - destruct (tryProvider_calls 2 w1) as (r & w2 & E & [C1 C2] & P).
      rewrite E. destruct r as [d|]; unfold ret.
      + exists d, w2. split; [reflexivity|]. split; [lia|].
        right. exact (P d eq_refl).
      + exists (localDocument prompt), w2. split; [reflexivity|].
        split; [lia|]. left; reflexivity.
    - unfold ret. exists (localDocument prompt), w1. split; [reflexivity|].
      split; [lia|]. left; reflexivity. }
  destruct (firstGate env) eqn:G1.
  - destruct (tryProvider_calls 3 w) as (r & w1 & E & [C1 C2] & P).
    simpl in C1. rewrite E. destruct r as [d|].
    + unfold ret. exists d, w1. split; [reflexivity|].
      split; [lia|]. right. exact (P d eq_refl).
    + destruct (Step2 w1 ltac:(lia) ltac:(lia)) as (doc & w' & E2 & C & P2).
      exists doc, w'. split; [|split; assumption].
      rewrite <- E2.
      destruct ((if secondGate env prompt then tryProvider replies env 2
                 else ret None) w1)
        as [[[d|]|e] w2]; reflexivity.
  - unfold ret at 1.
    destruct (Step2 w ltac:(lia) ltac:(lia)) as (doc & w' & E2 & C & P2).
    exists doc, w'. split; [|split; assumption].
    rewrite <- E2.
    destruct ((if secondGate env prompt then tryProvider replies env 2
               else ret None) w)
      as [[[d|]|e] w2]; reflexivity.
Qed.

(** With the enable flag off neither gate opens: the local document is
    returned and the world is untouched. *)
Lemma convert_disabled (prompt : string) (w : World) :
  enableProvider env = false ->
  convertNaturalLanguageToRules replies env prompt w
  = (Ok (localDocument prompt), w).
Proof.
  intros D. unfold convertNaturalLanguageToRules, bind.
  rewrite D. simpl. rewrite !andb_false_r. reflexivity.
Qed.

End Orchestration.

(** ** Requests sent *)

Section Requests.

Variable replies : nat -> Reply.
Variable env : Env.

(** [callProviderApi] posts one request when it has an endpoint, and
    returns [null] without a request when it has none. *)
Lemma callProviderApi_posted (w : World) :
  posted (snd (callProviderApi replies env w))
  = posted w + (if hasEndpoint env then 1 else 0)
  /\ (hasEndpoint env = false ->
      fst (callProviderApi replies env w) = Ok None).
Proof.
  unfold callProviderApi, hasEndpoint, bind, emit, post, ret.
  destruct (is_set (GEMINI_API_URL env) && is_set (GEMINI_API_KEY env))%bool.
  - cbn [orb posted trace]. destruct (replies (posted w)); cbn [snd fst posted];
      (split; [lia | discriminate]).
  - cbn [orb]. destruct (is_set (OPENAI_API_KEY env)).
    + cbn [posted trace]. destruct (replies (posted w)); cbn [snd fst posted];
        (split; [lia | discriminate]).
    + cbn [snd fst posted]. split; [lia | reflexivity].
Qed.

Lemma attemptOnce_posted (w : World) :
  posted (snd (attemptOnce replies env w))
  = posted w + (if hasEndpoint env then 1 else 0)
  /\ (hasEndpoint env = false ->
      exists e, fst (attemptOnce replies env w) = Throw e).
Proof.
  unfold attemptOnce, bind.
  destruct (callProviderApi_posted w) as [P N].
  destruct (callProviderApi replies env w) as [r w']. cbn [fst snd] in P, N.
  destruct r as [[t|]|e]; unfold throw, ret.
  - destruct (is_empty t).
    + cbn [fst snd]. split; [exact P|]. intros H. specialize (N H).
      discriminate N.
    + destruct (extracted_json t) as [j|].
      * destruct (truthy j); cbn [fst snd]; (split; [exact P|]);
          intros H; specialize (N H); discriminate N.
      * cbn [fst snd]. split; [exact P|]. intros H. specialize (N H).
        discriminate N.
  - cbn [fst snd]. split; [exact P|]. intros _. eexists. reflexivity.
  - cbn [fst snd]. split; [exact P|]. intros _. eexists. reflexivity.
Qed.

Lemma retryLoop_posted (remaining attempt : nat) (lastErr : option Error)
    (w : World) :
  posted w + (if hasEndpoint env then Nat.min 1 remaining else 0)
  <= posted (snd (retryLoop replies env remaining attempt lastErr w))
  /\ (hasEndpoint env = false ->
      posted (snd (retryLoop replies env remaining attempt lastErr w))
      = posted w
      /\ exists e,
           fst (retryLoop replies env remaining attempt lastErr w) = Throw e).
Proof.
  revert attempt lastErr w.
  induction remaining as [|k IH]; intros attempt lastErr w.
  - cbn [retryLoop]. unfold throw. cbn [fst snd]. split.
    + destruct (hasEndpoint env); simpl; lia.
    + intros _. split; [reflexivity|]. eexists. reflexivity.
  - cbn [retryLoop]. unfold try_catch.
    destruct (attemptOnce_posted w) as [P N].
    destruct (attemptOnce replies env w) as [r w']. cbn [fst snd] in P, N.
    destruct r as [j|e].
    + cbn [fst snd]. split.
      * destruct (hasEndpoint env); simpl; lia.
      * intros H. destruct (N H) as (e & He). discriminate He.
    + unfold bind, emit.
      set (w1 := mkWorld (posted w') (trace w' ++ [Sleep (2 ^ S attempt * 200)])).
      destruct (IH (S attempt) (Some e) w1) as [P2 N2].
      change (posted w1) with (posted w') in P2, N2.
      split.
      * destruct (hasEndpoint env); simpl in *; lia.
      * intros H. destruct (N2 H) as [Q2 T2]. split; [|exact T2].
        rewrite Q2, P, H. lia.
Qed.

Lemma tryProvider_posted (attempts : nat) (w : World) :
  posted w + (if hasEndpoint env then Nat.min 1 attempts else 0)
  <= posted (snd (tryProvider replies env attempts w))
  /\ (hasEndpoint env = false ->
      posted (snd (tryProvider replies env attempts w)) = posted w
      /\ fst (tryProvider replies env attempts w) = Ok None).
Proof.
  unfold tryProvider, try_catch, askProvider, bind,
    callProviderForRulesWithRetries.
  destruct (retryLoop_posted attempts 0 None w) as [P N].
  destruct (retryLoop replies env attempts 0 None w) as [r w'].
  cbn [fst snd] in P, N.
  destruct r as [j|e].
  - assert (X : hasEndpoint env = false -> False).
    { intros H. destruct (N H) as (_ & e & He). discriminate He. }
    destruct (RulesSchema_parse j) as [p|e].
    + destruct (0 <? List.length (p_conditions p)); unfold ret; cbn [fst snd];
        (split; [exact P | intros H; destruct (X H)]).
    + unfold throw, ret. cbn [fst snd].
      split; [exact P | intros H; destruct (X H)].
  - unfold ret. cbn [fst snd]. split; [exact P|].
    intros H. destruct (N H) as [Q _]. split; [exact Q | reflexivity].
Qed.

(** When the provider-first block runs, a request is sent before anything
    is returned if there is an endpoint; without one no request is ever
    sent and the local document is returned. *)
Lemma convert_posted (prompt : string) (w : World) :
  firstGate env = true ->
  (hasEndpoint env = true ->
   posted w
   < posted (snd (convertNaturalLanguageToRules replies env prompt w)))
  /\ (hasEndpoint env = false ->
      posted (snd (convertNaturalLanguageToRules replies env prompt w))
      = posted w
      /\ fst (convertNaturalLanguageToRules replies env prompt w)
         = Ok (localDocument prompt)).
Proof.
  intros G. unfold convertNaturalLanguageToRules, bind.
  fold (firstGate env). rewrite G.
  destruct (tryProvider_posted 3 w) as [P1 N1].
  destruct (tryProvider_calls replies env 3 w) as (r1 & w1 & E1 & _ & _).
  rewrite E1 in P1, N1 |- *. cbn [fst snd] in P1, N1.
  set (second := if ((negb (0 <? List.length (r_conditions (localRules prompt)))
                      || (0 <? List.length (r_conditions (localRules prompt)))
                         && (List.length (r_conditions (localRules prompt)) <? 2))
                     && enableProvider env && apiKey env)%bool
                 then tryProvider replies env 2 else ret None).
  assert (S2 : exists r2 w2,
             second w1 = (Ok r2, w2)
             /\ posted w1 <= posted w2
             /\ (hasEndpoint env = false -> posted w2 = posted w1 /\ r2 = None)).
  { unfold second.
    destruct ((negb (0 <? List.length (r_conditions (localRules prompt)))
               || (0 <? List.length (r_conditions (localRules prompt)))
                  && (List.length (r_conditions (localRules prompt)) <? 2))
              && enableProvider env && apiKey env)%bool.
    - destruct (tryProvider_posted 2 w1) as [P2 N2].
      destruct (tryProvider_calls replies env 2 w1) as (r2 & w2 & E2 & _ & _).
      rewrite E2 in P2, N2. cbn [fst snd] in P2, N2.
      exists r2, w2. split; [exact E2|]. split; [lia|].
      intros H. destruct (N2 H) as [Q T]. split; [exact Q|].
      injection T as T. exact T.
    - exists None, w1. unfold ret. split; [reflexivity|]. split; [lia|].
      intros _. auto. }
  destruct S2 as (r2 & w2 & E2 & P2 & N2).
  destruct r1 as [d1|].
  - unfold ret. cbn [fst snd]. split.
    + intros H. rewrite H in P1. simpl in P1. lia.
    + intros H. destruct (N1 H) as [_ T]. discriminate T.
  - rewrite E2. destruct r2 as [d2|]; unfold ret; cbn [fst snd].
    + split.
      * intros H. rewrite H in P1. simpl in P1. lia.
      * intros H. destruct (N2 H) as [_ T]. discriminate T.
    + split.
      * intros H. rewrite H in P1. simpl in P1. lia.
      * intros H. destruct (N1 H) as [Q1 _]. destruct (N2 H) as [Q2 _].
        split; [lia | reflexivity].
Qed.

End Requests.

(* ================================================================== *)
(** * Stage A: what the families push *)
(* ================================================================== *)

Lemma string_length_append (a b : string) :
  String.length (a ++ b) = String.length a + String.length b.
Proof.
  induction a as [|c a IH]; simpl; [reflexivity | rewrite IH; reflexivity].
Qed.

Lemma noun_Count_not_lastVisit (noun : string) :
  noun ++ "Count" <> "lastVisit".
Proof.
  intros H.
  assert (L : String.length (noun ++ "Count") = 9) by (rewrite H; reflexivity).
  rewrite string_length_append in L. simpl in L.
  destruct noun as [|a [|b [|c [|d [|e noun]]]]]; simpl in L; try lia.
  simpl in H. discriminate H.
Qed.

(** ** Doubles *)

Lemma Qred_inject_Z (z : Z) : Qred (inject_Z z) = inject_Z z.
Proof.
  unfold Qred, inject_Z.
  generalize (Z.ggcd_gcd z 1) (Z.ggcd_correct_divisors z 1).
  destruct (Z.ggcd z 1) as [g [a b]]. simpl.
  intros G [A B]. rewrite Z.gcd_1_r in G. subst g.
  assert (a = z) by lia. assert (b = 1%Z) by lia. subst a b. reflexivity.
Qed.

Lemma nearest_factor_nonneg (e n d : Z) :
  (0 <= n)%Z -> (0 < d)%Z -> (0 <= nearest_factor e n d)%Z.
Proof.
  intros Hn Hd. unfold nearest_factor.
  destruct (0 <=? e)%Z eqn:E.
  - apply Z.leb_le in E.
    assert (P : (0 < d * 2 ^ e)%Z)
      by (apply Z.mul_pos_pos; [exact Hd | apply Z.pow_pos_nonneg; lia]).
    assert (D : (0 <= n / (d * 2 ^ e))%Z) by (apply Z.div_pos; lia).
    cbv zeta.
    destruct (2 * (n mod (d * 2 ^ e)) <? d * 2 ^ e)%Z; [exact D|].
    destruct (d * 2 ^ e <? 2 * (n mod (d * 2 ^ e)))%Z; [lia|].
    destruct (Z.even (n / (d * 2 ^ e))); lia.
  - apply Z.leb_gt in E.
    assert (P : (0 <= n * 2 ^ (- e))%Z)
      by (apply Z.mul_nonneg_nonneg; [exact Hn | apply Z.pow_nonneg; lia]).
    assert (D : (0 <= n * 2 ^ (- e) / d)%Z) by (apply Z.div_pos; lia).
    cbv zeta.
    destruct (2 * ((n * 2 ^ (- e)) mod d) <? d)%Z; [exact D|].
    destruct (d <? 2 * ((n * 2 ^ (- e)) mod d))%Z; [lia|].
    destruct (Z.even (n * 2 ^ (- e) / d)); lia.
Qed.

(** A double is never negative when what it rounds is positive. *)
Lemma round_positive_nonneg (n d : Z) :
  (0 <= n)%Z -> (0 < d)%Z ->
  round_positive n d = Infinity false
  \/ exists q, round_positive n d = Finite q /\ (0 <= q)%Q.
Proof.
  intros Hn Hd. unfold round_positive. cbv zeta.
  set (e := Z.max (floor_log2 n d - 52) (-1074)).
  assert (M := nearest_factor_nonneg e n d Hn Hd).
  destruct ((971 <? e)%Z || (e =? 971)%Z && (2 ^ 53 <=? nearest_factor e n d)%Z)%bool;
    [left; reflexivity|].
  right. destruct (0 <=? e)%Z eqn:E.
  - apply Z.leb_le in E. eexists. split; [reflexivity|].
    unfold Qle, inject_Z. simpl.
    assert (0 <= 2 ^ e)%Z by (apply Z.pow_nonneg; lia). nia.
  - eexists. split; [reflexivity|].
    rewrite <- (Qred_correct 0). apply Qred_le.
    unfold Qle. simpl. lia.
Qed.

(** An integer that needs no more than the 53 bits is its own double; any
    other integer rounds to an integer or overflows. *)
Lemma round_positive_integer (p : positive) :
  ((Z.max (floor_log2 (Zpos p) 1 - 52) (-1074) <= 0)%Z ->
   round_positive (Zpos p) 1 = of_int (Zpos p))
  /\ (round_positive (Zpos p) 1 = Infinity false
      \/ exists z, (0 <= z)%Z /\ round_positive (Zpos p) 1 = of_int z).
Proof.
  unfold round_positive. cbv zeta.
  set (e := Z.max (floor_log2 (Zpos p) 1 - 52) (-1074)).
  assert (M := nearest_factor_nonneg e (Zpos p) 1 ltac:(lia) ltac:(lia)).
  assert (Neg : (e < 0)%Z -> nearest_factor e (Zpos p) 1 = (Zpos p * 2 ^ (- e))%Z).
  { intros L. unfold nearest_factor.
    assert (E : (0 <=? e)%Z = false) by (apply Z.leb_gt; exact L).
    rewrite E. cbv zeta. rewrite Z.mod_1_r, Z.div_1_r. reflexivity. }
  assert (Zero : e = 0%Z -> nearest_factor e (Zpos p) 1 = Zpos p).
  { intros L. unfold nearest_factor. rewrite L. cbn [Z.leb Z.compare].
    cbv zeta. change (1 * 2 ^ 0)%Z with 1%Z.
    rewrite Z.mod_1_r, Z.div_1_r. reflexivity. }
  assert (Exact : (e <= 0)%Z ->
            (if ((971 <? e)%Z
                 || (e =? 971)%Z && (2 ^ 53 <=? nearest_factor e (Zpos p) 1)%Z)%bool
             then Infinity false
             else if (0 <=? e)%Z
                  then Finite (inject_Z (nearest_factor e (Zpos p) 1 * 2 ^ e))
                  else Finite (Qred (nearest_factor e (Zpos p) 1
                                     # Z.to_pos (2 ^ (- e)))))
            = of_int (Zpos p)).
  { intros L.
    assert (A : (971 <? e)%Z = false) by (apply Z.ltb_ge; lia).
    assert (B : (e =? 971)%Z = false) by (apply Z.eqb_neq; lia).
    rewrite A, B. cbn [orb andb].
    destruct (0 <=? e)%Z eqn:E.
    - apply Z.leb_le in E. assert (e = 0%Z) by lia.
      rewrite (Zero H). rewrite H. rewrite Z.pow_0_r, Z.mul_1_r. reflexivity.
    - apply Z.leb_gt in E. rewrite (Neg E). unfold of_int. f_equal.
      rewrite <- Qred_inject_Z. apply Qred_complete.
      unfold Qeq, inject_Z. cbn [Qnum Qden].
      assert (0 < 2 ^ (- e))%Z by (apply Z.pow_pos_nonneg; lia).
      rewrite Z2Pos.id by lia. lia. }
  split; [exact Exact|].
  destruct (Z_le_gt_dec e 0) as [L|L].
  - right. exists (Zpos p). split; [lia | exact (Exact L)].
  - destruct ((971 <? e)%Z
              || (e =? 971)%Z && (2 ^ 53 <=? nearest_factor e (Zpos p) 1)%Z)%bool;
      [left; reflexivity|].
    right. assert (E : (0 <=? e)%Z = true) by (apply Z.leb_le; lia).
    rewrite E. eexists. split; [|reflexivity].
    assert (0 <= 2 ^ e)%Z by (apply Z.pow_nonneg; lia). nia.
Qed.

Lemma floor_log2_integer (p : positive) :
  (floor_log2 (Zpos p) 1 <= Z.log2 (Zpos p))%Z.
Proof.
  unfold floor_log2. rewrite Z.log2_1, Z.sub_0_r. cbv zeta.
  destruct (0 <=? Z.log2 (Zpos p))%Z.
  - destruct (1 * 2 ^ Z.log2 (Zpos p) <=? Zpos p)%Z; lia.
  - destruct (1 <=? Zpos p * 2 ^ (- Z.log2 (Zpos p)))%Z; lia.
Qed.

(** Integers below [2^53] are doubles. *)
Lemma round_double_exact (z : Z) :
  (0 <= z < 2 ^ 53)%Z -> round_double (inject_Z z) = of_int z.
Proof.
  intros [Lo Hi]. unfold round_double. cbn [Qnum Qden inject_Z].
  destruct z as [|p|p]; [reflexivity| |lia].
  apply (proj1 (round_positive_integer p)).
  assert (F := floor_log2_integer p).
  assert (L : (Z.log2 (Zpos p) < 53)%Z) by (apply Z.log2_lt_pow2; lia).
  lia.
Qed.

(** The double of a whole number is a whole number, or [Infinity]. *)
Lemma round_double_whole (z : Z) :
  (0 <= z)%Z ->
  round_double (inject_Z z) = Infinity false
  \/ exists z', (0 <= z')%Z /\ round_double (inject_Z z) = of_int z'.
Proof.
  intros Lo. unfold round_double. cbn [Qnum Qden inject_Z].
  destruct z as [|p|p]; [right; exists 0%Z; split; [lia|reflexivity]| |lia].
  exact (proj2 (round_positive_integer p)).
Qed.

(** A number token is read as a double that is not negative. *)
Lemma Number_decimal_nonneg (tok : string) :
  Number_decimal tok = Infinity false
  \/ exists q, Number_decimal tok = Finite q /\ (0 <= q)%Q.
Proof.
  unfold Number_decimal. destruct (split_dot tok) as [ip fp].
  unfold round_double. cbn [Qnum Qden].
  destruct (Z.of_N (digits_value fp (digits_value ip 0))) as [|p|p] eqn:E.
  - right. exists 0%Q. split; [reflexivity | apply Qle_refl].
  - apply round_positive_nonneg; lia.
  - lia.
Qed.

(** [Math.round] of such a number is a whole number, or [Infinity]. *)
Lemma Math_round_nonneg (x : JsNum) :
  (x = Infinity false \/ exists q, x = Finite q /\ (0 <= q)%Q) ->
  Math_round x = Infinity false
  \/ exists z, (0 <= z)%Z /\ Math_round x = of_int z
               /\ exists q, x = Finite q /\ z = Qfloor (q + (1 # 2)).
Proof.
  intros [H|(q & H & P)]; subst x; [left; reflexivity|].
  right. exists (Qfloor (q + (1 # 2))). split.
  - change 0%Z with (Qfloor 0). apply Qfloor_resp_le.
    apply Qle_trans with (1 := P).
    rewrite <- (Qplus_0_r q) at 1. apply Qplus_le_r. discriminate.
  - split; [reflexivity|]. exists q. auto.
Qed.

(** Thirty times a whole number: exact below [2^53]. *)
Lemma mul_30 (z : Z) :
  mul (of_int z) 30 = round_double (inject_Z (z * 30)).
Proof.
  unfold mul, of_int. f_equal.
Qed.

Lemma Math_round_integer (z : Z) : Math_round (of_int z) = of_int z.
Proof.
  unfold Math_round, of_int. f_equal. f_equal.
  unfold Qfloor, Qplus, inject_Z. simpl.
  replace (z * 2 + 1)%Z with (1 + z * 2)%Z by lia.
  rewrite Z.div_add by lia. reflexivity.
Qed.

Lemma windowOp_comparison (nearby : string) (g l : list string) :
  comparison_op (windowOp nearby g l ">=").
Proof.
  unfold windowOp, comparison_op.
  destruct (includes_any nearby g); auto.
  destruct (includes_any nearby l); auto.
Qed.

Section Families.

Variable lp : string.

Lemma nearer_from (ki : nat) (best : option Best) (nm : NumberMatch) :
  forall b, nearer ki best nm = Some b ->
    best = Some b \/ (b_value b = nm_value nm /\ b_index b = nm_index nm).
Proof.
  intros b. unfold nearer. destruct best as [b0|].
  - destruct (abs_diff (nm_index nm) ki <? b_dist b0); intros H;
      inversion H; subst; auto.
  - intros H; inversion H; subst; auto.
Qed.

Lemma fold_nearer_from (ki : nat) (nms : list NumberMatch) :
  forall best b, fold_left (nearer ki) nms best = Some b ->
    best = Some b
    \/ exists nm, In nm nms /\ b_value b = nm_value nm /\ b_index b = nm_index nm.
Proof.
  induction nms as [|nm nms IH]; intros best b H; simpl in H.
  - auto.
  - destruct (IH _ _ H) as [E | (nm' & I & V)].
    + destruct (nearer_from ki best nm b E) as [E' | V]; auto.
      right. exists nm. simpl. auto.
    + right. exists nm'. simpl. auto.
Qed.

(** The number [findNearestNumber] returns is one of the number tokens. *)
Lemma findNearestNumber_token (kws : list string) (v : JsNum) (i : nat) :
  findNearestNumber lp kws = Some (v, i) ->
  exists nm, In nm (numberMatches lp) /\ nm_value nm = v /\ nm_index nm = i.
Proof.
  unfold findNearestNumber.
  assert (G : forall best, best = None ->
            findNearestNumber_loop lp kws best = Some (v, i) ->
            exists nm, In nm (numberMatches lp)
                       /\ nm_value nm = v /\ nm_index nm = i).
  { induction kws as [|kw kws IH]; intros best Hb H; simpl in H.
    - discriminate.
    - destruct (indexOf lp kw) as [ki|].
      + destruct (fold_left (nearer ki) (numberMatches lp) best) as [b|] eqn:F.
        * inversion H; subst.
          destruct (fold_nearer_from ki _ _ _ F) as [E | (nm & I & V1 & V2)].
          -- congruence.
          -- exists nm. auto.
        * apply (IH None eq_refl H).
      + apply (IH best Hb H). }
  apply G. reflexivity.
Qed.

Lemma pushNumericCondition_In (fld : string) (kws : list string) (c : Candidate) :
  In c (pushNumericCondition lp fld kws ">=") ->
  c_field c = fld /\ comparison_op (c_operator c).
Proof.
  unfold pushNumericCondition.
  destruct (findNearestNumber lp kws) as [[v ni]|]; simpl; [|tauto].
  intros [H|[]]. subst c. simpl. split; [reflexivity|].
  apply windowOp_comparison.
Qed.

Lemma spendingCandidates_In (c : Candidate) :
  In c (spendingCandidates lp) ->
  c_field c = "totalSpending" /\ comparison_op (c_operator c).
Proof.
  unfold spendingCandidates.
  destruct (includes lp "spend" || includes lp "spent" || includes lp "spending")%bool;
    [|simpl; tauto].
  destruct (spendMatched lp) as [m|].
  - simpl. intros [H|[]]. subst c. simpl. split; [reflexivity|].
    apply windowOp_comparison.
  - apply pushNumericCondition_In.
Qed.

Lemma visitCandidates_In (c : Candidate) :
  In c (visitCandidates lp) ->
  c_field c = "visitCount" /\ comparison_op (c_operator c).
Proof.
  unfold visitCandidates.
  destruct (visitTriggered lp); [|simpl; tauto].
  destruct (visitMatched lp) as [m|].
  - simpl. intros [H|[]]. subst c. simpl. split; [reflexivity|].
    apply windowOp_comparison.
  - apply pushNumericCondition_In.
Qed.

Lemma recencyCandidates_In (c : Candidate) :
  In c (recencyCandidates lp) ->
  c_field c = "lastVisit" /\ c_operator c = "before"
  /\ exists timeNum ni,
       findNearestNumber lp timeKeywords = Some (timeNum, ni)
       /\ c_value c = daysOf lp timeNum.
Proof.
  unfold recencyCandidates.
  destruct (includes lp "month" || includes lp "months" || includes lp "day"
            || includes lp "days" || includes lp "last")%bool; [|simpl; tauto].
  destruct (findNearestNumber lp timeKeywords) as [[timeNum ni]|] eqn:F;
    [|simpl; tauto].
  simpl. intros [H|[]]. subst c. simpl.
  split; [reflexivity|]. split; [reflexivity|].
  exists timeNum, ni. auto.
Qed.

Lemma countCandidates_In (c : Candidate) :
  In c (countCandidates lp) ->
  (exists noun, c_field c = noun ++ "Count") /\ comparison_op (c_operator c).
Proof.
  unfold countCandidates. rewrite in_flat_map.
  intros (m & _ & H). unfold countCandidate in H. simpl in H.
  destruct H as [H|[]]. subst c. simpl. split.
  - eexists; reflexivity.
  - apply windowOp_comparison.
Qed.

Lemma betweenCandidates_In (c : Candidate) :
  In c (betweenCandidates lp) ->
  (c_field c = "totalSpending" \/ c_field c = "visitCount")
  /\ comparison_op (c_operator c).
Proof.
  unfold betweenCandidates. rewrite in_flat_map.
  intros (m & _ & H). unfold betweenCandidate in H.
  destruct (includes (trim (group lp m 1)) "spend"
            || includes (trim (group lp m 1)) "spent"
            || includes (trim (group lp m 1)) "spending")%bool.
  - simpl in H. unfold comparison_op.
    destruct H as [H|[H|[]]]; subst c; simpl; auto 6.
  - destruct (includes (trim (group lp m 1)) "visit"
              || includes (trim (group lp m 1)) "visits"
              || includes (trim (group lp m 1)) "times")%bool.
    + simpl in H. unfold comparison_op.
      destruct H as [H|[H|[]]]; subst c; simpl; auto 6.
    + destruct H.
Qed.

(** Every pushed candidate is a comparison on some field other than
    [lastVisit], or the recency candidate. *)
Lemma pushedCandidates_In (c : Candidate) :
  In c (pushedCandidates lp) ->
  (c_field c <> "lastVisit" /\ comparison_op (c_operator c))
  \/ In c (recencyCandidates lp).
Proof.
  unfold pushedCandidates. rewrite !in_app_iff.
  intros [H|[H|[H|[H|H]]]].
  - apply spendingCandidates_In in H. destruct H as [F O].
    left. split; [rewrite F; discriminate | exact O].
  - apply visitCandidates_In in H. destruct H as [F O].
    left. split; [rewrite F; discriminate | exact O].
  - right. exact H.
  - apply countCandidates_In in H. destruct H as [(noun & F) O].
    left. split; [rewrite F; apply noun_Count_not_lastVisit | exact O].
  - apply betweenCandidates_In in H. destruct H as [[F|F] O];
      left; (split; [rewrite F; discriminate | exact O]).
Qed.

End Families.

Lemma localDocument_conditions_In (prompt : string) (c : Condition) :
  In c (conditions (localDocument prompt)) <->
  exists cand, In cand (pushedCandidates (toLowerCase prompt))
               /\ c = conditionOf cand.
Proof.
  unfold localDocument, localRules. simpl. rewrite in_map_iff.
  split; intros (cand & A & B).
  - exists cand. rewrite sort_by_index_In in B. auto.
  - exists cand. rewrite sort_by_index_In. auto.
Qed.

(* ================================================================== *)
(** * The inferencer: results *)
(* ================================================================== *)

Lemma provider_down_unusable (n : nat) : unusable (provider_down n) = true.
Proof. reflexivity. Qed.

(** A provider none of whose replies is usable leaves the local document. *)
Lemma convert_degrades (replies : nat -> Reply) (env : Env) (prompt : string)
    (w w' : World) (doc : RuleDocument) :
  (forall n, unusable (replies n) = true) ->
  convertNaturalLanguageToRules replies env prompt w = (Ok doc, w') ->
  doc = localDocument prompt.
Proof.
  intros U E.
  destruct (convert_returns replies env prompt w) as (d & w2 & E2 & _ & P).
  rewrite E in E2. inversion E2; subst d w2.
  destruct P as [P | (n & t & j & p & _ & _ & N & _)]; [exact P|].
  rewrite U in N. discriminate.
Qed.

(** C2.  For every prompt, every configuration and every provider,
    [convertNaturalLanguageToRules] returns a rule document (it ends in [Ok],
    never in [Throw]) within the retry budget: at most 3 calls of the
    provider when the provider-first block runs plus at most 2 when the
    fallback block runs.  When every reply of the provider is unusable (the
    request is rejected or times out, or the text is empty, holds no JSON,
    or fails validation) the document returned is the Stage A document,
    whose [provider] is [null]. *)
Theorem infer_never_throws (replies : nat -> Reply) (env : Env)
    (prompt : string) (w : World) :
  exists doc w',
    convertNaturalLanguageToRules replies env prompt w = (Ok doc, w')
    /\ apiCalls w' <= apiCalls w + (if firstGate env then 3 else 0)
                      + (if secondGate env prompt then 2 else 0)
    /\ apiCalls w' <= apiCalls w + 3 + 2
    /\ ((forall n, unusable (replies n) = true) ->
        doc = localDocument prompt /\ provider doc = None).
Proof.
  destruct (convert_returns replies env prompt w)
    as (doc & w' & E & [_ C] & P).
  exists doc, w'. split; [exact E|]. split; [exact C|]. split.
  - destruct (firstGate env), (secondGate env prompt); lia.
  - intros U.
    assert (D : doc = localDocument prompt)
      by (eapply convert_degrades; eassumption).
    split; [exact D | rewrite D; reflexivity].
Qed.

(** Witness of C2: the Gemini configuration against a provider that is down,
    on a prompt with a single local condition: both provider blocks run. *)
Lemma infer_never_throws_witness :
  (forall n, unusable (provider_down n) = true)
  /\ exists doc w',
       convertNaturalLanguageToRules provider_down env_gemini
         "customers who spent over 500" initial = (Ok doc, w')
       /\ apiCalls w' <= 5
       /\ doc = localDocument "customers who spent over 500"
       /\ provider doc = None.
Proof.
  split; [exact provider_down_unusable|].
  destruct (infer_never_throws provider_down env_gemini
              "customers who spent over 500" initial)
    as (doc & w' & E & _ & C & P).
  exists doc, w'. split; [exact E|]. split; [exact C|].
  exact (P provider_down_unusable).
Defined.

(** The run of the witness of C2, event by event: three attempts of the
    provider-first block and two of the fallback block, each followed by its
    backoff. *)
Example provider_down_trace :
  convertNaturalLanguageToRules provider_down env_gemini
    "customers who spent over 500" initial
  = (Ok (mkRuleDocument "AND"
           [mkCondition "totalSpending" ">" (VNum 500)] None None),
     mkWorld 5 [ApiCall; Sleep 400; ApiCall; Sleep 800; ApiCall; Sleep 1600;
                ApiCall; Sleep 400; ApiCall; Sleep 800]).
Proof. vm_compute. reflexivity. Qed.

(** C3, as stated, fails on a provider document: the schema accepts two
    connectors next to a single condition, and the document is returned as
    it is. *)
Lemma provider_connectors_unchecked :
  convertNaturalLanguageToRules provider_twoConnectors env_openai
    "loyal customers" initial
  = (Ok (mkRuleDocument "AND"
           [mkCondition "email" "contains" (VStr "gmail")]
           (Some ["AND"; "OR"]) (Some "OPENAI")),
     mkWorld 1 [ApiCall])
  /\ List.length ["AND"; "OR"]
     <> List.length [mkCondition "email" "contains" (VStr "gmail")] - 1
  /\ List.length ["AND"; "OR"] + 1
     <> List.length [mkCondition "email" "contains" (VStr "gmail")].
Proof.
  split; [|split].
  - vm_compute. reflexivity.
  - simpl. discriminate.
  - simpl. discriminate.
Qed.

(** C3, amended.  In every rule document that [convertNaturalLanguageToRules]
    returns with [provider = null], that is, in every locally inferred
    document, [connectors] when present has exactly one element fewer than
    [conditions]: its length plus one is the number of conditions, of which
    there are two or more. *)
Theorem local_connectors_length (replies : nat -> Reply) (env : Env)
    (prompt : string) (w w' : World) (doc : RuleDocument) (cn : list string) :
  convertNaturalLanguageToRules replies env prompt w = (Ok doc, w') ->
  provider doc = None ->
  connectors doc = Some cn ->
  List.length cn + 1 = List.length (conditions doc)
  /\ 2 <= List.length (conditions doc).
Proof.
  intros E N Hc.
  destruct (convert_returns replies env prompt w) as (d & w2 & E2 & _ & P).
  rewrite E in E2. inversion E2; subst d w2.
  destruct P as [P | (n & t & j & p & _ & _ & _ & _ & P)].
  - subst doc. assert (L := localDocument_connectors prompt).
    rewrite Hc in L. destruct L as [L1 L2]. lia.
  - subst doc. simpl in N. discriminate.
Qed.

Lemma local_connectors_length_witness :
  convertNaturalLanguageToRules provider_down env_disabled
    "spent over 500 or visited more than 3 times" initial
  = (Ok (mkRuleDocument "AND"
           [mkCondition "totalSpending" ">" (VNum 500);
            mkCondition "visitCount" ">" (VNum 3)]
           (Some ["OR"]) None),
     initial)
  /\ List.length ["OR"] + 1 = 2
  /\ 2 <= 2.
Proof.
  assert (E : convertNaturalLanguageToRules provider_down env_disabled
                "spent over 500 or visited more than 3 times" initial
              = (Ok (mkRuleDocument "AND"
                       [mkCondition "totalSpending" ">" (VNum 500);
                        mkCondition "visitCount" ">" (VNum 3)]
                       (Some ["OR"]) None),
                 initial))
    by (vm_compute; reflexivity).
  split; [exact E|].
  exact (local_connectors_length _ _ _ _ _ _ ["OR"] E eq_refl eq_refl).
Defined.

(** C9.  With the provider disabled the document returned is the local one,
    and its [logic] is ['AND'] as soon as it has two conditions; [logic] is
    ['OR'] only for a document of fewer than two conditions, without
    [connectors], whose prompt has the word "or" and not the word "and". *)
Theorem local_logic_is_AND (replies : nat -> Reply) (env : Env)
    (prompt : string) (w : World) :
  enableProvider env = false ->
  exists doc,
    convertNaturalLanguageToRules replies env prompt w = (Ok doc, w)
    /\ (logic doc = "AND" \/ logic doc = "OR")
    /\ (2 <= List.length (conditions doc) -> logic doc = "AND")
    /\ (logic doc = "OR" ->
        List.length (conditions doc) < 2
        /\ connectors doc = None
        /\ test orWord (toLowerCase prompt) = true
        /\ test andWord (toLowerCase prompt) = false).
Proof.
  intros D. exists (localDocument prompt).
  split; [apply convert_disabled; exact D|].
  assert (L := localDocument_connectors prompt).
  rewrite (localDocument_logic prompt).
  destruct (connectors (localDocument prompt)) as [cn|].
  - destruct L as [L2 L1].
    assert (Z : Nat.eqb (List.length cn) 0 = false)
      by (apply Nat.eqb_neq; lia).
    rewrite Z. cbn [andb]. split; [left; reflexivity|].
    split; [reflexivity|]. intros H; discriminate H.
  - destruct (test orWord (toLowerCase prompt));
      destruct (test andWord (toLowerCase prompt)); cbn [andb negb];
      (split; [auto|]); (split; [intros; try reflexivity; lia|]);
      intros H; try discriminate H.
    repeat split; auto.
Qed.

(** Witness of C9: the prompt has the word "or", the one connector is
    ['OR'], and [logic] is ['AND']. *)
Lemma local_logic_is_AND_witness :
  enableProvider env_disabled = false
  /\ test orWord "spent over 500 or visited more than 3 times" = true
  /\ exists doc,
       convertNaturalLanguageToRules provider_down env_disabled
         "spent over 500 or visited more than 3 times" initial
       = (Ok doc, initial)
       /\ connectors doc = Some ["OR"]
       /\ logic doc = "AND".
Proof.
  split; [reflexivity|]. split; [vm_compute; reflexivity|].
  destruct (local_logic_is_AND provider_down env_disabled
              "spent over 500 or visited more than 3 times" initial eq_refl)
    as (doc & E & _ & A & _).
  exists doc. split; [exact E|].
  assert (E' : convertNaturalLanguageToRules provider_down env_disabled
                 "spent over 500 or visited more than 3 times" initial
               = (Ok (mkRuleDocument "AND"
                        [mkCondition "totalSpending" ">" (VNum 500);
                         mkCondition "visitCount" ">" (VNum 3)]
                        (Some ["OR"]) None),
                  initial))
    by (vm_compute; reflexivity).
  rewrite E' in E. inversion E as [D].
  split; [reflexivity|].
  rewrite D. apply A. rewrite <- D. simpl. lia.
Defined.

(** C4, as stated, fails: besides the two conditions of the between pattern
    the spending family pushes its own condition for the number after
    "spent", so the document has three conditions. *)
Lemma between_example_has_three_conditions :
  exists doc,
    convertNaturalLanguageToRules provider_down env_disabled
      "customers who spent between 100 and 500" initial = (Ok doc, initial)
    /\ List.length (conditions doc) = 3
    /\ conditions doc
       <> [mkCondition "totalSpending" ">=" (VNum 100);
           mkCondition "totalSpending" "<=" (VNum 500)].
Proof.
  exists (localDocument "customers who spent between 100 and 500").
  split; [vm_compute; reflexivity|].
  split; [vm_compute; reflexivity|].
  vm_compute. intros H. discriminate H.
Qed.

(** C4, amended.  With the provider disabled, the prompt "customers who
    spent between 100 and 500" yields the conditions
    [{totalSpending, >=, 100}], [{totalSpending, <=, 500}] and
    [{totalSpending, >=, 100}], in this order, joined by two ['AND']
    connectors: the two conditions of the between pattern, then the one the
    spending family reads off "spent ... 100". *)
Theorem between_example (replies : nat -> Reply) (env : Env) (w : World) :
  enableProvider env = false ->
  convertNaturalLanguageToRules replies env
    "customers who spent between 100 and 500" w
  = (Ok (mkRuleDocument "AND"
           [mkCondition "totalSpending" ">=" (VNum 100);
            mkCondition "totalSpending" "<=" (VNum 500);
            mkCondition "totalSpending" ">=" (VNum 100)]
           (Some ["AND"; "AND"]) None),
     w).
Proof.
  intros D. rewrite convert_disabled by exact D.
  assert (L : localDocument "customers who spent between 100 and 500"
              = mkRuleDocument "AND"
                  [mkCondition "totalSpending" ">=" (VNum 100);
                   mkCondition "totalSpending" "<=" (VNum 500);
                   mkCondition "totalSpending" ">=" (VNum 100)]
                  (Some ["AND"; "AND"]) None)
    by (vm_compute; reflexivity).
  rewrite L. reflexivity.
Qed.

Lemma between_example_witness :
  enableProvider env_key_only = false
  /\ convertNaturalLanguageToRules provider_twoConnectors env_key_only
       "customers who spent between 100 and 500" initial
     = (Ok (mkRuleDocument "AND"
              [mkCondition "totalSpending" ">=" (VNum 100);
               mkCondition "totalSpending" "<=" (VNum 500);
               mkCondition "totalSpending" ">=" (VNum 100)]
              (Some ["AND"; "AND"]) None),
        initial).
Proof.
  split; [reflexivity|].
  exact (between_example provider_twoConnectors env_key_only initial eq_refl).
Defined.

(** C6, as stated, fails: "2.4 months" is rounded to 2 before the factor 30
    is applied, so the value is 60, neither 2.4 * 30 nor 2.4. *)
Lemma months_are_rounded_first :
  map raw (numberMatches "in the last 2.4 months") = ["2.4"]
  /\ map nm_value (numberMatches "in the last 2.4 months")
     = [Number_decimal "2.4"]
  /\ Math_round (Number_decimal "2.4") = of_int 2
  /\ (exists doc,
        convertNaturalLanguageToRules provider_down env_disabled
          "in the last 2.4 months" initial = (Ok doc, initial)
        /\ conditions doc = [mkCondition "lastVisit" "before" (VNum 60)])
  /\ ~ (60 == (12 # 5) * 30)%Q
  /\ ~ (60 == 12 # 5)%Q.
Proof.
  split; [vm_compute; reflexivity|].
  split; [vm_compute; reflexivity|].
  split; [vm_compute; reflexivity|]. split; [|split].
  - exists (localDocument "in the last 2.4 months").
    split; vm_compute; reflexivity.
  - intros H. vm_compute in H. discriminate H.
  - intros H. vm_compute in H. discriminate H.
Qed.

(** The numbers are doubles: a token within half a unit in the last place
    of 2.5 is 2.5 and rounds to 3, and a token of 400 digits is [Infinity],
    which [Math.round] and the factor 30 leave as it is. *)
Fixpoint repeat_digit (c : ascii) (n : nat) : string :=
  match n with
  | O => EmptyString
  | S n' => String c (repeat_digit c n')
  end.

Example recency_of_a_rounded_token :
  Number_decimal "2.49999999999999999999" = Finite (5 # 2)
  /\ conditions (localDocument "in the last 2.49999999999999999999 months")
     = [mkCondition "lastVisit" "before" (VNum 90)].
Proof. split; vm_compute; reflexivity. Qed.

Example recency_of_a_huge_token :
  conditions
    (localDocument ("in the last " ++ repeat_digit "9" 400 ++ " months"))
  = [mkCondition "lastVisit" "before" (VNum (Infinity false))]
  /\ conditions
       (localDocument ("in the last " ++ repeat_digit "9" 400 ++ " days"))
     = [mkCondition "lastVisit" "before" (VNum (Infinity false))].
Proof. split; vm_compute; reflexivity. Qed.

(** C6, amended.  Every [lastVisit] condition of a locally inferred document
    has operator ['before'], and its value is computed from the number token
    nearest the recency keyword, read as a double: [Math.round] of it, times
    30 when the prompt contains "month" and as it is otherwise.  This value
    is a whole number of days that is not negative, or [Infinity] (for a
    token of more than 308 digits); as long as the product stays below
    [2^53] it is exactly the rounded number times 30, or the rounded number.
    No condition of a locally inferred document has operator ['after'].
    "in the last 2 months" yields 60 and "in the last 10 days" yields 10. *)
Theorem lastVisit_in_whole_days :
  (forall (prompt : string) (c : Condition),
     In c (conditions (localDocument prompt)) ->
     operator c <> "after"
     /\ (field c = "lastVisit" ->
         operator c = "before"
         /\ exists nm,
              In nm (numberMatches (toLowerCase prompt))
              /\ (exists m,
                    In m (matchAll numberPattern (toLowerCase prompt))
                    /\ nm_value nm
                       = Number_decimal (group (toLowerCase prompt) m 1))
              /\ findNearestNumber (toLowerCase prompt) timeKeywords
                 = Some (nm_value nm, nm_index nm)
              /\ value c
                 = VNum (if unitIsMonth (toLowerCase prompt)
                         then mul (Math_round (nm_value nm)) 30
                         else Math_round (nm_value nm))
              /\ (value c = VNum (Infinity false)
                  \/ exists days : Z,
                       (0 <= days)%Z /\ value c = VNum (of_int days))
              /\ (forall q : Q,
                    nm_value nm = Finite q ->
                    (Qfloor (q + (1 # 2)) * 30 < 2 ^ 53)%Z ->
                    value c
                    = VNum (of_int
                              (if unitIsMonth (toLowerCase prompt)
                               then (Qfloor (q + (1 # 2)) * 30)%Z
                               else Qfloor (q + (1 # 2)))))))
  /\ (forall z : Z, Math_round (of_int z) = of_int z)
  /\ conditions (localDocument "in the last 2 months")
     = [mkCondition "lastVisit" "before" (VNum 60)]
  /\ conditions (localDocument "in the last 10 days")
     = [mkCondition "lastVisit" "before" (VNum 10)].
Proof.
  split; [|split; [|split]].
  - intros prompt c Hc.
    apply localDocument_conditions_In in Hc. destruct Hc as (cand & I & E).
    subst c. unfold conditionOf. cbn [operator field value].
    destruct (pushedCandidates_In _ _ I) as [[NF O] | R].
    + split.
      * destruct O as [O|[O|[O|O]]]; rewrite O; discriminate.
      * intros F. contradiction.
    + apply recencyCandidates_In in R.
      destruct R as (F & O & timeNum & ni & N & V).
      split; [rewrite O; discriminate|].
      intros _. split; [exact O|].
      destruct (findNearestNumber_token _ _ _ _ N) as (nm & Inm & V1 & V2).
      exists nm. split; [exact Inm|]. subst timeNum ni.
      assert (Tok : exists m,
                 In m (matchAll numberPattern (toLowerCase prompt))
                 /\ nm_value nm
                    = Number_decimal (group (toLowerCase prompt) m 1)).
      { unfold numberMatches in Inm. apply in_map_iff in Inm.
        destruct Inm as (m & Em & Im). exists m. split; [exact Im|].
        subst nm. reflexivity. }
      split; [exact Tok|]. split; [exact N|].
      rewrite V. unfold daysOf. split; [reflexivity|].
      destruct Tok as (m & _ & Tok).
      assert (NN := Number_decimal_nonneg (group (toLowerCase prompt) m 1)).
      rewrite <- Tok in NN. apply Math_round_nonneg in NN.
      destruct NN as [Inf | (z & Z0 & Ez & q0 & Eq & Zq)].
      * rewrite Inf. split.
        -- left. destruct (unitIsMonth (toLowerCase prompt)); reflexivity.
        -- intros q Hq. rewrite Hq in Inf. discriminate Inf.
      * rewrite Ez. split.
        -- destruct (unitIsMonth (toLowerCase prompt)).
           ++ rewrite mul_30.
              destruct (round_double_whole (z * 30) ltac:(lia))
                as [W | (z' & P & W)]; rewrite W.
              ** left. reflexivity.
              ** right. exists z'. auto.
           ++ right. exists z. auto.
        -- intros q Hq Small. rewrite Eq in Hq. injection Hq as Hq. subst q0.
           rewrite <- Zq in *.
           destruct (unitIsMonth (toLowerCase prompt)); [|reflexivity].
           rewrite mul_30, round_double_exact by lia. reflexivity.
  - exact Math_round_integer.
  - vm_compute. reflexivity.
  - vm_compute. reflexivity.
Qed.

Lemma lastVisit_in_whole_days_witness :
  In (mkCondition "lastVisit" "before" (VNum 90))
     (conditions (localDocument "visited in the last 3 months"))
  /\ mkCondition "lastVisit" "before" (VNum 90)
     <> mkCondition "lastVisit" "after" (VNum 90)
  /\ operator (mkCondition "lastVisit" "before" (VNum 90)) <> "after".
Proof.
  assert (I : In (mkCondition "lastVisit" "before" (VNum 90))
                (conditions (localDocument "visited in the last 3 months")))
    by (vm_compute; auto).
  split; [exact I|]. split; [discriminate|].
  exact (proj1 (proj1 lastVisit_in_whole_days _ _ I)).
Defined.

(** C7, as stated, fails: when neither "visited <N>" nor "<N> times|visits"
    matches, the visit family goes through [pushNumericCondition], which
    does read "under" as ['<']. *)
Lemma came_under_is_less_than :
  visitTriggered "came under 5" = true
  /\ includes "came under 5" "under" = true
  /\ includes_any "came under 5" ["less than"; "more than"; "over"] = false
  /\ exists doc,
       convertNaturalLanguageToRules provider_down env_disabled
         "came under 5" initial = (Ok doc, initial)
       /\ conditions doc = [mkCondition "visitCount" "<" (VNum 5)].
Proof.
  split; [vm_compute; reflexivity|].
  split; [vm_compute; reflexivity|].
  split; [vm_compute; reflexivity|].
  exists (localDocument "came under 5"). split; vm_compute; reflexivity.
Qed.

(** C7, amended.  When the visit family is triggered and one of its direct
    patterns ("visited <N>" or "<N> times|visits") matches, the family
    pushes a single [visitCount] condition, which is in the document; its
    operator is ['<'] only if the window around the match contains "less
    than", and it is the default ['>='] whenever the window contains none of
    "more than", "over" and "less than", with or without "under". *)
Theorem visit_direct_match_ignores_under (prompt : string) (m : Matched) :
  visitTriggered (toLowerCase prompt) = true ->
  visitMatched (toLowerCase prompt) = Some m ->
  exists op,
    visitCandidates (toLowerCase prompt)
    = [mkCandidate "visitCount" op (val m) (idx m)]
    /\ In (mkCondition "visitCount" op (VNum (val m)))
          (conditions (localDocument prompt))
    /\ (op = "<" ->
        includes (nearbyOf (toLowerCase prompt) (idx m)) "less than" = true)
    /\ (includes_any (nearbyOf (toLowerCase prompt) (idx m))
          ["more than"; "over"; "less than"] = false ->
        op = ">=").
Proof.
  intros T M.
  set (lp := toLowerCase prompt) in *.
  set (op := windowOp (nearbyOf lp (idx m)) ["more than"; "over"]
               ["less than"] ">=").
  exists op.
  assert (V : visitCandidates lp = [mkCandidate "visitCount" op (val m) (idx m)]).
  { unfold visitCandidates. rewrite T, M. reflexivity. }
  split; [exact V|]. split; [|split].
  - apply localDocument_conditions_In.
    exists (mkCandidate "visitCount" op (val m) (idx m)).
    split; [|reflexivity].
    unfold pushedCandidates. fold lp. rewrite V.
    rewrite !in_app_iff. right. left. simpl. auto.
  - unfold op, windowOp, includes_any. cbn [existsb].
    destruct (includes (nearbyOf lp (idx m)) "more than");
      destruct (includes (nearbyOf lp (idx m)) "over");
      destruct (includes (nearbyOf lp (idx m)) "less than");
      cbn [orb]; intros H; try discriminate H; reflexivity.
  - unfold op, windowOp, includes_any. cbn [existsb].
    destruct (includes (nearbyOf lp (idx m)) "more than");
      destruct (includes (nearbyOf lp (idx m)) "over");
      destruct (includes (nearbyOf lp (idx m)) "less than");
      cbn [orb]; intros H; try discriminate H; reflexivity.
Qed.

Lemma visit_direct_match_ignores_under_witness :
  includes (nearbyOf "visited under 5 times" 0) "under" = true
  /\ In (mkCondition "visitCount" ">=" (VNum 5))
        (conditions (localDocument "visited under 5 times")).
Proof.
  split; [vm_compute; reflexivity|].
  destruct (visit_direct_match_ignores_under "visited under 5 times"
              (mkMatched 5 0))
    as (op & _ & I & _ & D);
    [vm_compute; reflexivity | vm_compute; reflexivity |].
  rewrite <- (D ltac:(vm_compute; reflexivity)). exact I.
Defined.

(** C8, as stated, fails: with the enable flag unset no configuration makes
    the inferencer call the provider.  With the Gemini key, its URL and even
    the provider-first flag set, the local document comes back without a
    single call. *)
Lemma provider_needs_enable_flag :
  convertNaturalLanguageToRules provider_twoConnectors env_key_only
    "loyal customers" initial
  = (Ok (mkRuleDocument "AND" [] None None), initial)
  /\ ~ (exists (replies : nat -> Reply) (env : Env) (prompt : string),
          ENABLE_PROVIDER_NL_TO_RULES env = None
          /\ is_set (GEMINI_API_KEY env) = true
          /\ 0 < apiCalls (snd (convertNaturalLanguageToRules replies env
                                  prompt initial))).
Proof.
  split; [vm_compute; reflexivity|].
  intros (replies & env & prompt & E & _ & C).
  rewrite convert_disabled in C.
  - cbv in C. lia.
  - unfold enableProvider. rewrite E. reflexivity.
Qed.

(** C8, amended.  Provider-first mode activates by itself when the Gemini
    key is configured and the enable flag is ['true'], without the
    provider-first flag: the provider-first block then runs, and
    [callProviderApi] is entered at least once before any document is
    returned.  A request goes out only if [callProviderApi] has an endpoint:
    with [GEMINI_API_URL] or [OPENAI_API_KEY] set, at least one request is
    posted before anything is returned; with neither, [callProviderApi]
    returns [null] each time, no request is posted and the local document
    is returned.  When the enable flag is not ['true'] the provider block
    is never entered: the local document is returned and the world is
    unchanged, whatever keys and flags are set. *)
Theorem gemini_key_activates_provider_first (replies : nat -> Reply)
    (env : Env) (prompt : string) (w : World) :
  (enableProvider env = true ->
   is_set (GEMINI_API_KEY env) = true ->
   providerFirst env = true
   /\ firstGate env = true
   /\ exists doc w',
        convertNaturalLanguageToRules replies env prompt w = (Ok doc, w')
        /\ apiCalls w < apiCalls w'
        /\ (is_set (GEMINI_API_URL env) = true
            \/ is_set (OPENAI_API_KEY env) = true ->
            posted w < posted w')
        /\ (is_set (GEMINI_API_URL env) = false ->
            is_set (OPENAI_API_KEY env) = false ->
            posted w' = posted w /\ doc = localDocument prompt))
  /\ (enableProvider env = false ->
      convertNaturalLanguageToRules replies env prompt w
      = (Ok (localDocument prompt), w)).
Proof.
  split.
  - intros En K.
    assert (PF : providerFirst env = true).
    { unfold providerFirst. rewrite En, K. apply orb_true_r. }
    split; [exact PF|].
    assert (G : firstGate env = true).
    { unfold firstGate, apiKey. rewrite En, K, PF. reflexivity. }
    split; [exact G|].
    destruct (convert_returns replies env prompt w) as (doc & w' & E & C & _).
    destruct (convert_posted replies env prompt w G) as [Sent Unsent].
    rewrite E in Sent, Unsent. cbn [fst snd] in Sent, Unsent.
    exists doc, w'. split; [exact E|].
    split; [rewrite G in C; cbn iota in C; lia|].
    split.
    + intros H. apply Sent. unfold hasEndpoint. rewrite K.
      destruct H as [H|H]; rewrite H; [reflexivity | apply orb_true_r].
    + intros U O. destruct Unsent as [Q D].
      * unfold hasEndpoint. rewrite U, O. reflexivity.
      * split; [exact Q|]. injection D as D. exact D.
  - apply convert_disabled.
Qed.

(** Witness of C8: the enable flag and the Gemini key set, the provider-first
    flag unset; the local heuristics find two conditions, and still the
    provider is asked first and its document returned. *)
Lemma gemini_key_activates_provider_first_witness :
  PROVIDER_FIRST_NL_TO_RULES env_gemini = None
  /\ List.length
       (conditions (localDocument "spent over 500 and visited more than 3 times"))
     = 2
  /\ convertNaturalLanguageToRules provider_twoConnectors env_gemini
       "spent over 500 and visited more than 3 times" initial
     = (Ok (mkRuleDocument "AND"
              [mkCondition "email" "contains" (VStr "gmail")]
              (Some ["AND"; "OR"]) (Some "GEMINI")),
        mkWorld 1 [ApiCall])
  /\ providerFirst env_gemini = true
  /\ firstGate env_gemini = true
  /\ exists doc w',
       convertNaturalLanguageToRules provider_twoConnectors env_gemini
         "spent over 500 and visited more than 3 times" initial = (Ok doc, w')
       /\ apiCalls initial < apiCalls w'
       /\ posted initial < posted w'.
Proof.
  split; [reflexivity|].
  split; [vm_compute; reflexivity|].
  split; [vm_compute; reflexivity|].
  destruct (proj1 (gemini_key_activates_provider_first provider_twoConnectors
                     env_gemini "spent over 500 and visited more than 3 times"
                     initial) eq_refl eq_refl)
    as (PF & G & doc & w' & E & C & Sent & _).
  split; [exact PF|]. split; [exact G|].
  exists doc, w'. split; [exact E|]. split; [exact C|].
  apply Sent. left. reflexivity.
Defined.

(** The Gemini key without [GEMINI_API_URL] and without an OpenAI key: both
    provider blocks run, [callProviderApi] is entered five times and returns
    [null] each time, no request is posted, and the local document comes
    back. *)
Example gemini_key_without_endpoint :
  convertNaturalLanguageToRules provider_twoConnectors
    (mkEnv (Some "true") None (Some "key") None None)
    "customers who spent over 500" initial
  = (Ok (mkRuleDocument "AND"
           [mkCondition "totalSpending" ">" (VNum 500)] None None),
     mkWorld 0 [ApiCall; Sleep 400; ApiCall; Sleep 800; ApiCall; Sleep 1600;
                ApiCall; Sleep 400; ApiCall; Sleep 800]).
Proof. vm_compute. reflexivity. Qed.

(* ================================================================== *)
(** * The rule predicate compilers: results *)
(* ================================================================== *)

Section MapiFacts.

Context {A B : Type}.

Lemma mapi_from_length (f : nat -> A -> B) (l : list A) (i : nat) :
  List.length (mapi_from f i l) = List.length l.
Proof.
  revert i. induction l as [|x l IH]; intros i; simpl; [reflexivity|].
  rewrite IH. reflexivity.
Qed.

Lemma nth_error_mapi_from (f : nat -> A -> B) (l : list A) (i k : nat) :
  nth_error (mapi_from f i l) k = option_map (f (i + k)) (nth_error l k).
Proof.
  revert i k. induction l as [|x l IH]; intros i k; simpl.
  - destruct k; reflexivity.
  - destruct k as [|k]; simpl.
    + rewrite Nat.add_0_r. reflexivity.
    + rewrite IH. replace (S i + k) with (i + S k) by lia. reflexivity.
Qed.

Lemma mapi_from_ext_map (f : nat -> A -> B) (g : A -> B) (l : list A) (i : nat) :
  (forall j x, In x l -> f j x = g x) ->
  mapi_from f i l = map g l.
Proof.
  revert i. induction l as [|x l IH]; intros i H; simpl; [reflexivity|].
  rewrite H by (left; reflexivity).
  rewrite IH; [reflexivity|].
  intros j y Hy. apply H. right. exact Hy.
Qed.

End MapiFacts.

Section CompilerFacts.

Variable StringToNumber : string -> JsNum.
Variable JsDate : Type.
Variable setDateBack : JsDate -> JsNum -> JsDate.

Lemma compile_clauses (clock : nat -> JsDate) (rules : RuleDocument) :
  clauses JsDate (buildWhereClause StringToNumber JsDate setDateBack clock rules)
  = mapi (fun i c => conditionWhere StringToNumber JsDate setDateBack (clock i) c)
      (conditions rules).
Proof.
  unfold buildWhereClause, clauses.
  destruct (logic rules === "OR"); reflexivity.
Qed.

Lemma compileSegment_clauses (rules : RuleDocument) :
  clauses JsDate (buildWhereClauseForSegment StringToNumber JsDate rules)
  = map (conditionWhereForSegment StringToNumber JsDate) (conditions rules).
Proof.
  unfold buildWhereClauseForSegment, clauses.
  destruct (logic rules === "OR"); reflexivity.
Qed.

Lemma unsupported_clause_empty (now : JsDate) (c : Condition) :
  supported c = false ->
  conditionWhere StringToNumber JsDate setDateBack now c = emptyWhere.
Proof.
  unfold supported, conditionWhere. cbv zeta.
  destruct (field c === "totalSpending").
  { destruct (operator c === ">"); [discriminate|].
    destruct (operator c === "<"); [discriminate|].
    destruct (operator c === ">="); [discriminate|].
    destruct (operator c === "<="); [discriminate|reflexivity]. }
  destruct (field c === "visitCount").
  { destruct (operator c === ">"); [discriminate|].
    destruct (operator c === "<"); [discriminate|reflexivity]. }
  destruct (field c === "lastVisit").
  { destruct (operator c === "before"); [discriminate|].
    destruct (operator c === "after"); [discriminate|reflexivity]. }
  destruct (field c === "email").
  { destruct (operator c === "contains"); [discriminate|reflexivity]. }
  reflexivity.
Qed.

Lemma supported_clause_nonempty (now : JsDate) (c : Condition) :
  supported c = true ->
  conditionWhere StringToNumber JsDate setDateBack now c <> emptyWhere.
Proof.
  unfold supported, conditionWhere, emptyWhere. cbv zeta.
  destruct (field c === "totalSpending").
  { destruct (operator c === ">"); [discriminate|].
    destruct (operator c === "<"); [discriminate|].
    destruct (operator c === ">="); [discriminate|].
    destruct (operator c === "<="); discriminate. }
  destruct (field c === "visitCount").
  { destruct (operator c === ">"); [discriminate|].
    destruct (operator c === "<"); discriminate. }
  destruct (field c === "lastVisit").
  { destruct (operator c === "before"); [discriminate|].
    destruct (operator c === "after"); discriminate. }
  destruct (field c === "email").
  { destruct (operator c === "contains"); discriminate. }
  discriminate.
Qed.

Lemma segment_clause_agrees (now : JsDate) (c : Condition) :
  (field c === "lastVisit") = false ->
  conditionWhere StringToNumber JsDate setDateBack now c
  = conditionWhereForSegment StringToNumber JsDate c.
Proof.
  intros H. unfold conditionWhereForSegment, conditionWhere. cbv zeta.
  rewrite H. reflexivity.
Qed.

Lemma segment_clause_drops_lastVisit (c : Condition) :
  field c = "lastVisit" ->
  conditionWhereForSegment StringToNumber JsDate c = emptyWhere.
Proof.
  intros H. unfold conditionWhereForSegment. cbv zeta. rewrite H. reflexivity.
Qed.

(** C1.  The compiler is a total function on rule documents: whatever the
    clock reads, it returns a filter, [{ AND: [...] }] or [{ OR: [...] }],
    with one constraint per condition in order; at every condition whose
    field is unknown or whose operator has no case for its field that
    constraint is the empty object, and only there.  On
    [{logic: 'AND', conditions: [{field: 'unknownField', operator: '>',
    value: 1}]}] the result is [{ AND: [{}] }], which every customer record
    satisfies. *)
Theorem compile_total_permissive (clock : nat -> JsDate) :
  (forall rules : RuleDocument,
     exists cws,
       (buildWhereClause StringToNumber JsDate setDateBack clock rules
        = mkWhere (Some cws) None
        \/ buildWhereClause StringToNumber JsDate setDateBack clock rules
           = mkWhere None (Some cws))
       /\ List.length cws = List.length (conditions rules)
       /\ forall i c,
            nth_error (conditions rules) i = Some c ->
            exists cw,
              nth_error cws i = Some cw
              /\ (supported c = false -> cw = emptyWhere)
              /\ (supported c = true -> cw <> emptyWhere))
  /\ buildWhereClause StringToNumber JsDate setDateBack clock unknownFieldRules
     = mkWhere (Some [emptyWhere]) None
  /\ forall (Customer : Type)
       (s1 s2 : NumFilter -> Customer -> bool)
       (s3 : DateFilter JsDate -> Customer -> bool)
       (s4 : StringFilter -> Customer -> bool) (cust : Customer),
       matchesWhere JsDate Customer s1 s2 s3 s4
         (buildWhereClause StringToNumber JsDate setDateBack clock
            unknownFieldRules) cust
       = true.
Proof.
  split; [|split].
  - intros rules.
    exists (mapi (fun i c => conditionWhere StringToNumber JsDate setDateBack
                               (clock i) c) (conditions rules)).
    split; [|split].
    + unfold buildWhereClause. destruct (logic rules === "OR"); auto.
    + apply mapi_from_length.
    + intros i c Hc.
      exists (conditionWhere StringToNumber JsDate setDateBack (clock i) c).
      split; [|split].
      * unfold mapi. rewrite nth_error_mapi_from, Hc. reflexivity.
      * apply unsupported_clause_empty.
      * apply supported_clause_nonempty.
  - reflexivity.
  - intros Customer s1 s2 s3 s4 cust. reflexivity.
Qed.

(** C5.  The compiled filter depends on [logic] and [conditions] only: two
    rule documents that agree on these two fields, whatever their
    [connectors] (and [provider]) hold, compile to the same filter, with the
    campaign compiler and with the segment compiler. *)
Theorem compile_ignores_connectors (clock : nat -> JsDate)
    (r1 r2 : RuleDocument) :
  logic r1 = logic r2 ->
  conditions r1 = conditions r2 ->
  buildWhereClause StringToNumber JsDate setDateBack clock r1
  = buildWhereClause StringToNumber JsDate setDateBack clock r2
  /\ buildWhereClauseForSegment StringToNumber JsDate r1
     = buildWhereClauseForSegment StringToNumber JsDate r2.
Proof.
  intros Hl Hc. unfold buildWhereClause, buildWhereClauseForSegment.
  rewrite Hl, Hc. split; reflexivity.
Qed.

(** C10.  On a rule document none of whose conditions has field [lastVisit]
    the segment compiler and the campaign compiler build the same filter;
    and at every [lastVisit] condition of any rule document the segment
    compiler's constraint is the empty object. *)
Theorem segment_compiler_agreement (clock : nat -> JsDate)
    (rules : RuleDocument) :
  ((forall c, In c (conditions rules) -> field c <> "lastVisit") ->
   buildWhereClauseForSegment StringToNumber JsDate rules
   = buildWhereClause StringToNumber JsDate setDateBack clock rules)
  /\ (forall i c,
        nth_error (conditions rules) i = Some c ->
        field c = "lastVisit" ->
        nth_error
          (clauses JsDate
             (buildWhereClauseForSegment StringToNumber JsDate rules)) i
        = Some emptyWhere).
Proof.
  split.
  - intros H. unfold buildWhereClauseForSegment, buildWhereClause, mapi.
    rewrite (mapi_from_ext_map
               (fun i c => conditionWhere StringToNumber JsDate setDateBack
                             (clock i) c)
               (conditionWhereForSegment StringToNumber JsDate)).
    + reflexivity.
    + intros j c Hc. apply segment_clause_agrees.
      apply String.eqb_neq. apply H. exact Hc.
  - intros i c Hc Hf. rewrite compileSegment_clauses, nth_error_map, Hc.
    simpl. f_equal. apply segment_clause_drops_lastVisit. exact Hf.
Qed.

End CompilerFacts.

(** Witness of C5: two documents that differ in [connectors] and
    [provider] only. *)
Lemma compile_ignores_connectors_witness :
  buildWhereClause (fun _ => NaN) nat (fun d _ => d) (fun i => i)
    (mkRuleDocument "OR"
       [mkCondition "totalSpending" ">" (VNum 500);
        mkCondition "visitCount" "<" (VNum 3)]
       (Some ["AND"]) (Some "GEMINI"))
  = buildWhereClause (fun _ => NaN) nat (fun d _ => d) (fun i => i)
      (mkRuleDocument "OR"
         [mkCondition "totalSpending" ">" (VNum 500);
          mkCondition "visitCount" "<" (VNum 3)]
         None None).
Proof.
  exact (proj1 (compile_ignores_connectors (fun _ => NaN) nat (fun d _ => d) (fun i => i)
                  (mkRuleDocument "OR"
                     [mkCondition "totalSpending" ">" (VNum 500);
                      mkCondition "visitCount" "<" (VNum 3)]
                     (Some ["AND"]) (Some "GEMINI"))
                  (mkRuleDocument "OR"
                     [mkCondition "totalSpending" ">" (VNum 500);
                      mkCondition "visitCount" "<" (VNum 3)]
                     None None)
                  eq_refl eq_refl)).
Defined.

(** Witness of C10: a document without recency conditions compiles alike on
    both sides; in one with a recency condition the segment side has the
    empty object where the campaign side has a date comparison. *)
Lemma segment_compiler_agreement_witness :
  buildWhereClauseForSegment (fun _ => NaN) nat
    (mkRuleDocument "AND"
       [mkCondition "totalSpending" ">=" (VNum 100);
        mkCondition "email" "contains" (VStr "gmail")] None None)
  = buildWhereClause (fun _ => NaN) nat (fun d _ => d) (fun i => i)
      (mkRuleDocument "AND"
         [mkCondition "totalSpending" ">=" (VNum 100);
          mkCondition "email" "contains" (VStr "gmail")] None None)
  /\ nth_error
       (clauses nat
          (buildWhereClauseForSegment (fun _ => NaN) nat
             (mkRuleDocument "AND"
                [mkCondition "totalSpending" ">=" (VNum 100);
                 mkCondition "lastVisit" "before" (VNum 60)] None None))) 1
     = Some emptyWhere
  /\ nth_error
       (clauses nat
          (buildWhereClause (fun _ => NaN) nat (fun d _ => d) (fun i => i)
             (mkRuleDocument "AND"
                [mkCondition "totalSpending" ">=" (VNum 100);
                 mkCondition "lastVisit" "before" (VNum 60)] None None))) 1
     = Some (mkConditionWhere None None (Some (date_lt 1)) None).
Proof.
  split; [|split].
  - apply (proj1 (segment_compiler_agreement (fun _ => NaN) nat
                    (fun d _ => d) (fun i => i) _)).
    simpl. intros c [H|[H|[]]]; subst c; discriminate.
  - apply (proj2 (segment_compiler_agreement (fun _ => NaN) nat
                    (fun d _ => d) (fun i => i) _) 1
             (mkCondition "lastVisit" "before" (VNum 60))); reflexivity.
  - reflexivity.
Defined.

(* ================================================================== *)
(** * Explanation rendering *)
(* ================================================================== *)

Module Explanation.

(** [a.join(sep)] on strings. *)
Fixpoint join (sep : string) (l : list string) : string :=
  match l with
  | [] => ""
  | [x] => x
  | x :: l' => x ++ sep ++ join sep l'
  end.

Section Render.

(** The rupee sign U+20B9 of the spending phrase lies outside the code
    units the strings of this development have; it stands as [rupee].
    [NumberToString] is [Number.prototype.toString] of the host on the
    finite numbers. *)
Variable rupee : string.
Variable NumberToString : Q -> string.

(** [`${condition.value}`] *)
Definition valueText (v : Value) : string :=
  match v with
  | VNum (Finite q) => NumberToString q
  | VNum (Infinity false) => "Infinity"
  | VNum (Infinity true) => "-Infinity"
  | VNum NaN => "NaN"
  | VStr s => s
  end.

(** The callback of [conditions.map] in [generateRulesExplanation]. *)
Definition explainCondition (condition : Condition) : string :=
  if field condition === "totalSpending" then
    "customers who have spent " ++ operator condition ++ " " ++ rupee
      ++ valueText (value condition)
  else if field condition === "visitCount" then
    "customers with " ++ operator condition ++ " "
      ++ valueText (value condition) ++ " visits"
  else if field condition === "lastVisit" then
    "customers who last visited " ++ operator condition ++ " "
      ++ valueText (value condition) ++ " days ago"
  else
    field condition ++ " " ++ operator condition ++ " "
      ++ valueText (value condition).

(** [generateRulesExplanation]; [rules.conditions || []] is
    [rules.conditions] on a rule document. *)
Definition generateRulesExplanation (rules : RuleDocument) : string :=
  match conditions rules with
  | [] => "No specific conditions identified"
  | _ =>
      let explanations := map explainCondition (conditions rules) in
      let lg := if logic rules === "OR" then " OR " else " AND " in
      "Targeting " ++ join lg explanations
  end.

(** The [data] object of the [/nl-to-rules] answer, once the prompt has
    passed validation: [{ prompt, rules, explanation }]. *)
Record NlToRulesData : Type := mkNlToRulesData {
  d_prompt : string;
  d_rules : RuleDocument;
  d_explanation : string
}.

Definition nlToRules (replies : nat -> Reply) (env : Env) (prompt : string)
  : M NlToRulesData :=
  rules <- convertNaturalLanguageToRules replies env prompt ;;
  ret (mkNlToRulesData prompt rules (generateRulesExplanation rules)).

(** X1.  With the provider disabled, a prompt from which the local
    heuristics draw two or more conditions is explained with its clauses
    joined by " AND ", whatever its connectors say. *)
Theorem local_explanation_joins_with_AND (replies : nat -> Reply) (env : Env)
    (prompt : string) (w : World) :
  enableProvider env = false ->
  2 <= List.length (conditions (localDocument prompt)) ->
  nlToRules replies env prompt w
  = (Ok (mkNlToRulesData prompt (localDocument prompt)
           ("Targeting "
            ++ join " AND "
                 (map explainCondition (conditions (localDocument prompt))))),
     w).
Proof.
  intros D L. unfold nlToRules, bind.
  rewrite convert_disabled by exact D. unfold ret.
  assert (X : generateRulesExplanation (localDocument prompt)
              = "Targeting "
                ++ join " AND "
                     (map explainCondition (conditions (localDocument prompt)))).
  { unfold generateRulesExplanation.
    assert (C := localDocument_connectors prompt).
    rewrite localDocument_logic.
    destruct (conditions (localDocument prompt)) as [|c cs] eqn:E.
    - simpl in L. lia.
    - destruct (connectors (localDocument prompt)) as [cn|].
      + destruct C as [_ C]. simpl in C.
        assert (Z : Nat.eqb (List.length cn) 0 = false)
          by (apply Nat.eqb_neq; simpl in L; lia).
        rewrite Z. reflexivity.
      + simpl in C, L. lia. }
  rewrite X. reflexivity.
Qed.

End Render.

(** Witness of X1: the one connector is ['OR'], the explanation says AND. *)
Lemma local_explanation_joins_with_AND_witness :
  connectors (localDocument "spent over 500 or visited more than 3 times")
  = Some ["OR"]
  /\ nlToRules "Rs " (fun _ => "N") provider_down env_disabled
       "spent over 500 or visited more than 3 times" initial
     = (Ok (mkNlToRulesData "spent over 500 or visited more than 3 times"
              (localDocument "spent over 500 or visited more than 3 times")
              "Targeting customers who have spent > Rs N AND customers with > N visits"),
        initial).
Proof.
  split; [vm_compute; reflexivity|].
  rewrite (local_explanation_joins_with_AND "Rs " (fun _ => "N") provider_down
             env_disabled "spent over 500 or visited more than 3 times"
             initial eq_refl);
    [| vm_compute; lia].
  assert (X : "Targeting "
              ++ join " AND "
                   (map (explainCondition "Rs " (fun _ => "N"))
                      (conditions
                         (localDocument
                            "spent over 500 or visited more than 3 times")))
              = "Targeting customers who have spent > Rs N AND customers with > N visits")
    by (vm_compute; reflexivity).
  rewrite X. reflexivity.
Defined.

End Explanation.

(* ================================================================== *)
(** * Lookalike audiences *)
(* ================================================================== *)

Module Lookalike.

(** The [expandedRules] of [generateLookalikeAudience]: the base rules with
    one more condition at the end.  [draw] is the value of
    [Math.floor(Math.random() * 5000) + 2000]; the [reason] key of the new
    condition is read by no compiler and is left out. *)
Definition expandedRules (baseRules : RuleDocument) (draw : Q) : RuleDocument :=
  mkRuleDocument (logic baseRules)
    (conditions baseRules ++ [mkCondition "totalSpending" ">=" (VNum draw)])%list
    (connectors baseRules)
    (provider baseRules).

Lemma mapi_from_app {A B : Type} (f : nat -> A -> B) (l1 l2 : list A) (i : nat) :
  mapi_from f i (l1 ++ l2)%list
  = (mapi_from f i l1 ++ mapi_from f (i + List.length l1) l2)%list.
Proof.
  revert i. induction l1 as [|x l1 IH]; intros i; simpl.
  - rewrite Nat.add_0_r. reflexivity.
  - rewrite IH. replace (S i + List.length l1) with (i + S (List.length l1)) by lia.
    reflexivity.
Qed.

Section Audience.

Variable StringToNumber : string -> JsNum.
Variable JsDate : Type.
Variable setDateBack : JsDate -> JsNum -> JsDate.
Variable Customer : Type.
Variable sat_totalSpending : NumFilter -> Customer -> bool.
Variable sat_visitCount : NumFilter -> Customer -> bool.
Variable sat_lastVisit : DateFilter JsDate -> Customer -> bool.
Variable sat_email : StringFilter -> Customer -> bool.

(** Whether a customer is in the audience of a rule document. *)
Definition inAudience (clock : nat -> JsDate) (rules : RuleDocument)
    (cust : Customer) : bool :=
  matchesWhere JsDate Customer sat_totalSpending sat_visitCount sat_lastVisit
    sat_email (buildWhereClause StringToNumber JsDate setDateBack clock rules)
    cust.

(** X2.  Under the conjunctive logic the "lookalike" rules select a subset
    of the base audience, and under ['OR'] a superset: the added spending
    condition narrows an AND document and widens an OR document.  The
    connectors are copied as they are, so they are one short for the
    expanded conditions. *)
Theorem lookalike_narrows_AND_widens_OR (clock : nat -> JsDate)
    (baseRules : RuleDocument) (draw : Q) (cust : Customer) :
  ((logic baseRules === "OR") = false ->
   inAudience clock (expandedRules baseRules draw) cust = true ->
   inAudience clock baseRules cust = true)
  /\ ((logic baseRules === "OR") = true ->
      inAudience clock baseRules cust = true ->
      inAudience clock (expandedRules baseRules draw) cust = true)
  /\ connectors (expandedRules baseRules draw) = connectors baseRules
  /\ List.length (conditions (expandedRules baseRules draw))
     = S (List.length (conditions baseRules)).
Proof.
  unfold inAudience, buildWhereClause, expandedRules, matchesWhere, mapi.
  cbn [logic conditions connectors AND OR].
  rewrite mapi_from_app.
  split; [|split; [|split]].
  - intros L. rewrite L. cbn [AND OR]. rewrite !andb_true_r.
    rewrite forallb_app. intros H. apply andb_prop in H. apply H.
  - intros L. rewrite L. cbn [AND OR]. cbn [andb].
    rewrite existsb_app. intros H. rewrite H. reflexivity.
  - reflexivity.
  - rewrite length_app. simpl. lia.
Qed.

End Audience.

(** A store whose customers are their total spending. *)
Definition sat_spent (f : NumFilter) (spent : Q) : bool :=
  match f with
  | gt (Finite n) => negb (Qle_bool spent n)
  | gte (Finite n) => Qle_bool n spent
  | _ => false
  end.

Definition inSpendingAudience (rules : RuleDocument) (spent : Q) : bool :=
  inAudience (fun _ => NaN) nat (fun d _ => d) Q sat_spent sat_spent
    (fun _ _ => true) (fun _ _ => true) (fun i => i) rules spent.

Definition spentMoreThan100 : RuleDocument :=
  mkRuleDocument "AND" [mkCondition "totalSpending" ">" (VNum 100)] None None.

(** Witness of X2: a customer who spent 5000 is in the AND lookalike drawn
    at 4000, hence in the base audience "spent more than 100"; one who spent
    3000 is in the base audience and not in the lookalike. *)
Lemma lookalike_narrows_AND_widens_OR_witness :
  inSpendingAudience (expandedRules spentMoreThan100 4000%Q) 5000%Q = true
  /\ inSpendingAudience spentMoreThan100 5000%Q = true
  /\ inSpendingAudience spentMoreThan100 3000%Q = true
  /\ inSpendingAudience (expandedRules spentMoreThan100 4000%Q) 3000%Q = false.
Proof.
  assert (E : inSpendingAudience (expandedRules spentMoreThan100 4000%Q) 5000%Q
              = true)
    by (vm_compute; reflexivity).
  split; [exact E|]. split.
  - exact (proj1 (lookalike_narrows_AND_widens_OR (fun _ => NaN) nat
                    (fun d _ => d) Q sat_spent sat_spent (fun _ _ => true)
                    (fun _ _ => true) (fun i => i) spentMoreThan100 4000%Q
                    5000%Q)
             eq_refl E).
  - split; vm_compute; reflexivity.
Defined.

End Lookalike.

(* ================================================================== *)
(** * String replacement and message personalization *)
(* ================================================================== *)

Module JsReplace.

(** [GetSubstitution] for a pattern without capture groups: in the
    replacement text [$$] is a dollar sign, [$&] the matched text, [$`] and
    [$'] the text before and after the match; any other [$] stands for
    itself (so does [$1]: there is no group to refer to). *)
Fixpoint expand (replacement matched before after : string) : string :=
  match replacement with
  | EmptyString => EmptyString
  | String c r =>
      if Ascii.eqb c "$" then
        match r with
        | String d r' =>
            if Ascii.eqb d "$" then String "$" (expand r' matched before after)
            else if Ascii.eqb d "&" then matched ++ expand r' matched before after
            else if Ascii.eqb d "`" then before ++ expand r' matched before after
            else if Ascii.eqb d "'" then after ++ expand r' matched before after
            else String c (expand r matched before after)
        | EmptyString => String c EmptyString
        end
      else String c (expand r matched before after)
  end.

(** The scan of [str.replace(/pat/g, replacement)] for a non-empty literal
    pattern: [i] is the index of [rest] in [str], [skip] the number of
    characters still covered by the previous match. *)
Fixpoint replace_from (pat replacement str : string) (rest : string)
    (i skip : nat) : string :=
  match rest with
  | EmptyString => EmptyString
  | String c rest' =>
      match skip with
      | S k => replace_from pat replacement str rest' (S i) k
      | O =>
          if startsWith pat rest
          then expand replacement pat (substring str 0 i)
                 (drop (i + String.length pat) str)
               ++ replace_from pat replacement str rest' (S i)
                    (String.length pat - 1)
          else String c (replace_from pat replacement str rest' (S i) 0)
      end
  end.

(** [str.replace(/pat/g, replacement)] *)
Definition replace_g (pat replacement str : string) : string :=
  replace_from pat replacement str str 0 0.

(** The character [c] occurs in [s]. *)
Fixpoint has_char (c : ascii) (s : string) : bool :=
  match s with
  | EmptyString => false
  | String d s' => (Ascii.eqb c d || has_char c s')%bool
  end.

Lemma includes_char (s : string) (c : ascii) :
  includes s (String c EmptyString) = has_char c s.
Proof.
  unfold includes, indexOf. generalize 0.
  induction s as [|d s IH]; intros n; simpl.
  - reflexivity.
  - destruct (Ascii.eqb c d) eqn:E; simpl; [reflexivity|].
    apply IH.
Qed.

Lemma has_char_append (c : ascii) (a b : string) :
  has_char c (a ++ b) = (has_char c a || has_char c b)%bool.
Proof.
  induction a as [|d a IH]; simpl; [reflexivity|].
  rewrite IH. apply orb_assoc.
Qed.

Lemma expand_plain (replacement matched before after : string) :
  has_char "$" replacement = false ->
  expand replacement matched before after = replacement.
Proof.
  induction replacement as [|c r IH]; cbn [expand has_char]; [reflexivity|].
  intros H. apply orb_false_elim in H. destruct H as [H1 H2].
  rewrite Ascii.eqb_sym in H1. rewrite H1.
  rewrite IH by exact H2. reflexivity.
Qed.

Lemma startsWith_first (pat rest : string) (p : ascii) (pat' : string) :
  pat = String p pat' -> has_char p rest = false -> startsWith pat rest = false.
Proof.
  intros -> H. destruct rest as [|c rest]; simpl; [reflexivity|].
  simpl in H. apply orb_false_elim in H. destruct H as [H _].
  rewrite H. reflexivity.
Qed.

(** Where the first character of the pattern does not occur nothing is
    replaced. *)
Lemma replace_from_absent (pat replacement str rest : string) (i : nat)
    (p : ascii) (pat' : string) :
  pat = String p pat' ->
  has_char p rest = false ->
  replace_from pat replacement str rest i 0 = rest.
Proof.
  intros Hp. revert i. induction rest as [|c rest IH]; intros i H.
  - reflexivity.
  - cbn [replace_from].
    rewrite (startsWith_first pat (String c rest) p pat' Hp H).
    simpl in H. apply orb_false_elim in H. destruct H as [_ H].
    rewrite IH by exact H. reflexivity.
Qed.

Lemma replace_g_absent (pat replacement str : string) (p : ascii)
    (pat' : string) :
  pat = String p pat' ->
  has_char p str = false ->
  replace_g pat replacement str = str.
Proof.
  intros Hp H. unfold replace_g. eapply replace_from_absent; eassumption.
Qed.

Lemma replace_from_skip (pat replacement str x rest : string) (i : nat) :
  replace_from pat replacement str (x ++ rest) i (String.length x)
  = match rest with
    | EmptyString => EmptyString
    | _ => replace_from pat replacement str rest (i + String.length x) 0
    end.
Proof.
  revert i. induction x as [|c x IH]; intros i; simpl.
  - rewrite Nat.add_0_r. destruct rest; reflexivity.
  - rewrite IH. replace (S i + String.length x) with (i + S (String.length x)) by lia.
    reflexivity.
Qed.

Lemma startsWith_append (pat rest : string) : startsWith pat (pat ++ rest) = true.
Proof.
  induction pat as [|c pat IH]; simpl; [reflexivity|].
  rewrite Ascii.eqb_refl. exact IH.
Qed.

Lemma drop_append (a b : string) : drop (String.length a) (a ++ b) = b.
Proof.
  induction a as [|c a IH]; [destruct b; reflexivity | exact IH].
Qed.

Lemma take_append (a b : string) : take (String.length a) (a ++ b) = a.
Proof.
  induction a as [|c a IH]; [destruct b; reflexivity|].
  simpl. rewrite IH. reflexivity.
Qed.

Lemma substring_prefix (a b : string) :
  substring (a ++ b) 0 (String.length a) = a.
Proof.
  unfold substring. rewrite string_length_append.
  rewrite Nat.min_0_l.
  replace (Nat.min (String.length a) (String.length a + String.length b))
    with (String.length a) by lia.
  rewrite Nat.min_0_l, Nat.max_0_l, Nat.sub_0_r. simpl.
  apply take_append.
Qed.

Lemma append_assoc (a b c : string) : (a ++ b) ++ c = a ++ (b ++ c).
Proof. induction a as [|x a IH]; simpl; [reflexivity | rewrite IH; reflexivity]. Qed.

(** A single occurrence, in a text that has the first character of the
    pattern nowhere else, is replaced by the expansion of the replacement
    text. *)
Lemma replace_g_single (pat replacement a b : string) (p : ascii)
    (pat' : string) :
  pat = String p pat' ->
  has_char p a = false ->
  has_char p b = false ->
  replace_g pat replacement (a ++ pat ++ b)
  = a ++ expand replacement pat a b ++ b.
Proof.
  intros Hp Ha Hb. unfold replace_g.
  assert (G : forall a0 a1 : string,
             a = a0 ++ a1 ->
             replace_from pat replacement (a ++ pat ++ b) (a1 ++ pat ++ b)
               (String.length a0) 0
             = a1 ++ expand replacement pat a b ++ b).
  { intros a0 a1. revert a0. induction a1 as [|c a1 IH]; intros a0 E.
    - cbn [append]. subst pat. cbn [append replace_from].
      change (String p (pat' ++ b)) with (String p pat' ++ b).
      rewrite startsWith_append.
      assert (Ea : a = a0).
      { rewrite E. clear. induction a0 as [|x a0 IHa]; simpl;
          [reflexivity | rewrite IHa; reflexivity]. }
      subst a0.
      rewrite substring_prefix.
      rewrite <- (string_length_append a (String p pat')).
      rewrite <- append_assoc. rewrite drop_append.
      f_equal.
      cbn [String.length]. rewrite Nat.sub_succ, Nat.sub_0_r.
      rewrite append_assoc.
      rewrite replace_from_skip.
      destruct b as [|d b]; [reflexivity|].
      eapply replace_from_absent; [reflexivity | exact Hb].
    - cbn [append replace_from].
      assert (Hc : has_char p (String c a1) = false).
      { rewrite E in Ha. rewrite has_char_append in Ha.
        apply orb_false_elim in Ha. apply Ha. }
      assert (Hs : startsWith pat (String c (a1 ++ pat ++ b)) = false).
      { subst pat. simpl. simpl in Hc. apply orb_false_elim in Hc.
        destruct Hc as [Hc _]. rewrite Hc. reflexivity. }
      rewrite Hs. f_equal.
      specialize (IH (a0 ++ String c EmptyString)).
      rewrite string_length_append in IH. simpl in IH.
      rewrite Nat.add_1_r in IH. apply IH.
      rewrite E. rewrite append_assoc. reflexivity. }
  apply (G EmptyString a). reflexivity.
Qed.

Lemma startsWith_split (pat s : string) :
  startsWith pat s = true -> s = pat ++ drop (String.length pat) s.
Proof.
  revert s. induction pat as [|c pat IH]; intros s H.
  - destruct s; reflexivity.
  - destruct s as [|d s]; [discriminate H|].
    cbn [startsWith] in H. apply andb_prop in H. destruct H as [H1 H2].
    apply Ascii.eqb_eq in H1. subst d.
    cbn [append String.length drop]. f_equal. apply IH. exact H2.
Qed.

(** The replacement text [$&] puts every match back. *)
Lemma replace_from_matched (p : ascii) (pat' str rest : string) (i skip : nat) :
  replace_from (String p pat') "$&" str rest i skip = drop skip rest.
Proof.
  revert i skip. induction rest as [|c rest IH]; intros i skip.
  - destruct skip; reflexivity.
  - cbn [replace_from]. destruct skip as [|k].
    + destruct (startsWith (String p pat') (String c rest)) eqn:E.
      * rewrite IH. cbn [expand]. rewrite Ascii.eqb_refl.
        replace (Ascii.eqb "&" "$") with false by reflexivity.
        replace (Ascii.eqb "&" "&") with true by reflexivity.
        cbn [expand drop].
        apply startsWith_split in E. cbn [String.length drop append] in E.
        injection E as Ec Er. subst c.
        cbn [String.length]. rewrite Nat.sub_succ, Nat.sub_0_r.
        cbn [append]. f_equal.
        assert (X : pat' ++ "" = pat').
        { clear. induction pat' as [|x pat' IHp]; cbn [append];
            [reflexivity | rewrite IHp; reflexivity]. }
        rewrite X. symmetry. exact Er.
      * rewrite IH. reflexivity.
    + rewrite IH. reflexivity.
Qed.

(** Every character of the result comes from the subject or, for a
    replacement text without [$], from the replacement text. *)
Lemma replace_from_chars (pat replacement str rest : string) (i skip : nat)
    (c : ascii) :
  has_char "$" replacement = false ->
  has_char c (replace_from pat replacement str rest i skip) = true ->
  has_char c rest = true \/ has_char c replacement = true.
Proof.
  intros Hd. revert i skip. induction rest as [|d rest IH]; intros i skip H.
  - discriminate H.
  - cbn [replace_from] in H. destruct skip as [|k].
    + destruct (startsWith pat (String d rest)).
      * rewrite expand_plain in H by exact Hd.
        rewrite has_char_append in H. apply orb_prop in H.
        destruct H as [H|H]; [right; exact H|].
        destruct (IH _ _ H) as [H'|H']; [left|right; exact H'].
        cbn [has_char]. rewrite H'. apply orb_true_r.
      * cbn [has_char] in H. apply orb_prop in H. destruct H as [H|H].
        -- left. cbn [has_char]. rewrite H. reflexivity.
        -- destruct (IH _ _ H) as [H'|H']; [left|right; exact H'].
           cbn [has_char]. rewrite H'. apply orb_true_r.
    + destruct (IH _ _ H) as [H'|H']; [left|right; exact H'].
      cbn [has_char]. rewrite H'. apply orb_true_r.
Qed.

(** Replacing a one-character pattern leaves no occurrence of it, unless
    the replacement text brings one. *)
Lemma replace_from_char_gone (p : ascii) (replacement str rest : string)
    (i : nat) :
  has_char "$" replacement = false ->
  has_char p replacement = false ->
  has_char p
    (replace_from (String p EmptyString) replacement str rest i 0) = false.
Proof.
  intros Hd Hp. revert i. induction rest as [|d rest IH]; intros i.
  - reflexivity.
  - cbn [replace_from startsWith String.length].
    destruct (Ascii.eqb p d) eqn:E; cbn [andb].
    + rewrite expand_plain by exact Hd.
      rewrite has_char_append, Hp, IH. reflexivity.
    + cbn [has_char]. rewrite E, IH. reflexivity.
Qed.

End JsReplace.

Module Personalize.

Import JsReplace.

(** The customer columns [personalizeMessage] reads. *)
Record Customer : Type := mkCustomer {
  cust_name : string;
  cust_email : string;
  cust_totalSpending : option Q
}.

(** The [customerData] object of [/personalize-content], with string (or
    absent) name and email. *)
Record CustomerData : Type := mkCustomerData {
  cd_name : option string;
  cd_email : option string;
  cd_totalSpending : option Value
}.

(** [a || b] on strings, [a] possibly undefined. *)
Definition or_default (a : option string) (b : string) : string :=
  match a with
  | Some s => if s === "" then b else s
  | None => b
  end.

Section Render.

Variable NumberToString : Q -> string.

(** [customer.totalSpending?.toString() || '0'] *)
Definition spendingText (totalSpending : option Q) : string :=
  or_default (option_map NumberToString totalSpending) "0".

(** [personalizeMessage] of the campaign routes. *)
Definition personalizeMessage (template : string) (customer : Customer)
  : string :=
  replace_g "{spending}" (spendingText (cust_totalSpending customer))
    (replace_g "{email}" (cust_email customer)
       (replace_g "{name}" (cust_name customer) template)).

Definition valueToString (v : Value) : string :=
  match v with
  | VNum (Finite q) => NumberToString q
  | VNum (Infinity false) => "Infinity"
  | VNum (Infinity true) => "-Infinity"
  | VNum NaN => "NaN"
  | VStr s => s
  end.

(** [personalizeContent] of the AI routes. *)
Definition personalizeContent (template : string) (customerData : CustomerData)
    (tone : string) : string :=
  let personalized :=
    replace_g "{spending}"
      (or_default (option_map valueToString (cd_totalSpending customerData)) "0")
      (replace_g "{email}" (or_default (cd_email customerData) "")
         (replace_g "{name}"
            (or_default (cd_name customerData) "Valued Customer") template)) in
  if tone === "casual" then
    replace_g "Dear " "Hi " (replace_g "Hi " "Hey " personalized)
  else if tone === "formal" then
    replace_g "Hi " "Dear " (replace_g "Hey " "Dear " personalized)
  else personalized.

End Render.

(** [generateContentVariations]: the loop pushes the same text [count]
    times. *)
Fixpoint generateContentVariations (content : string) (count : nat)
  : list string :=
  match count with
  | O => []
  | S n =>
      replace_g "exciting" "amazing" (replace_g "!" "." content)
        :: generateContentVariations content n
  end.

Section Facts.

Variable NumberToString : Q -> string.

(** X3.  A template without an opening brace comes back unchanged, for any
    customer, from [personalizeMessage], and from [personalizeContent] under
    any tone other than 'casual' and 'formal'. *)
Theorem template_without_braces_unchanged (template : string)
    (customer : Customer) (customerData : CustomerData) (tone : string) :
  includes template "{" = false ->
  personalizeMessage NumberToString template customer = template
  /\ ((tone === "casual") = false -> (tone === "formal") = false ->
      personalizeContent NumberToString template customerData tone = template).
Proof.
  intros H. rewrite includes_char in H.
  assert (R : forall pat' r, replace_g (String "{" pat') r template = template).
  { intros pat' r. eapply replace_g_absent; [reflexivity | exact H]. }
  split.
  - unfold personalizeMessage. rewrite !R. reflexivity.
  - intros C F. unfold personalizeContent. cbv zeta. rewrite C, F, !R.
    reflexivity.
Qed.

(** X4.  In a template with a single placeholder [{name}] and no other
    brace, the placeholder gives way to the expansion of the customer's
    name as a replacement text, provided the expansion has no brace; a name
    without a dollar sign is its own expansion. *)
Theorem name_placeholder_replaced (a b : string) (customer : Customer) :
  includes a "{" = false ->
  includes b "{" = false ->
  includes (expand (cust_name customer) "{name}" a b) "{" = false ->
  personalizeMessage NumberToString (a ++ "{name}" ++ b) customer
  = a ++ expand (cust_name customer) "{name}" a b ++ b
  /\ (includes (cust_name customer) "$" = false ->
      expand (cust_name customer) "{name}" a b = cust_name customer).
Proof.
  intros Ha Hb He. rewrite includes_char in Ha, Hb, He.
  split.
  - unfold personalizeMessage.
    rewrite (replace_g_single "{name}" (cust_name customer) a b "{" "name}")
      by (reflexivity || assumption).
    assert (N : has_char "{" (a ++ expand (cust_name customer) "{name}" a b ++ b)
                = false).
    { rewrite !has_char_append, Ha, Hb, He. reflexivity. }
    rewrite (replace_g_absent "{email}" _ _ "{" "email}") by (reflexivity || exact N).
    rewrite (replace_g_absent "{spending}" _ _ "{" "spending}")
      by (reflexivity || exact N).
    reflexivity.
  - intros Hd. rewrite includes_char in Hd. apply expand_plain. exact Hd.
Qed.

(** X5.  A customer whose name and e-mail address are the two characters
    [$&] keeps every [{name}] and [{email}] placeholder of every template:
    the replacement text is read as a pattern, and [$&] puts the match
    back. *)
Theorem matched_text_pattern_keeps_placeholders (template : string)
    (customer : Customer) :
  cust_name customer = "$&" ->
  cust_email customer = "$&" ->
  personalizeMessage NumberToString template customer
  = replace_g "{spending}"
      (spendingText NumberToString (cust_totalSpending customer)) template.
Proof.
  intros Hn He. unfold personalizeMessage. rewrite Hn, He.
  unfold replace_g at 3. rewrite replace_from_matched. cbn [drop].
  unfold replace_g at 2. rewrite replace_from_matched. cbn [drop].
  destruct template; reflexivity.
Qed.

(** X6.  [generateContentVariations] returns [count] texts, all the same,
    none of which contains an exclamation mark. *)
Theorem variations_have_no_exclamation (content : string) (count : nat) :
  List.length (generateContentVariations content count) = count
  /\ forall v, In v (generateContentVariations content count) ->
       includes v "!" = false
       /\ v = replace_g "exciting" "amazing" (replace_g "!" "." content).
Proof.
  split.
  - induction count as [|n IH]; simpl; [reflexivity | rewrite IH; reflexivity].
  - intros v Hv.
    assert (E : v = replace_g "exciting" "amazing" (replace_g "!" "." content)).
    { induction count as [|n IH]; simpl in Hv; [contradiction|].
      destruct Hv as [Hv|Hv]; [symmetry; exact Hv | exact (IH Hv)]. }
    split; [|exact E].
    rewrite includes_char. subst v.
    destruct (has_char "!"
                (replace_g "exciting" "amazing" (replace_g "!" "." content)))
      eqn:H; [|reflexivity].
    unfold replace_g at 1 in H.
    apply replace_from_chars in H; [|reflexivity].
    destruct H as [H|H]; [|discriminate H].
    unfold replace_g in H.
    rewrite replace_from_char_gone in H by reflexivity. discriminate H.
Qed.

End Facts.

Lemma template_without_braces_unchanged_witness :
  includes "Big sale today!" "{" = false
  /\ personalizeMessage (fun _ => "0") "Big sale today!"
       (mkCustomer "Ann" "ann@example.com" None)
     = "Big sale today!".
Proof.
  split; [vm_compute; reflexivity|].
  exact (proj1 (template_without_braces_unchanged (fun _ => "0")
                  "Big sale today!" (mkCustomer "Ann" "ann@example.com" None)
                  (mkCustomerData None None None) "friendly"
                  ltac:(vm_compute; reflexivity))).
Defined.

Lemma name_placeholder_replaced_witness :
  personalizeMessage (fun _ => "0") ("Hi " ++ "{name}" ++ ", welcome back")
    (mkCustomer "Ann" "ann@example.com" None)
  = "Hi " ++ "Ann" ++ ", welcome back"
  /\ personalizeMessage (fun _ => "0") ("Hi " ++ "{name}" ++ ", welcome back")
       (mkCustomer "$'" "ann@example.com" None)
     = "Hi " ++ ", welcome back" ++ ", welcome back".
Proof.
  split.
  - exact (proj1 (name_placeholder_replaced (fun _ => "0") "Hi "
                    ", welcome back" (mkCustomer "Ann" "ann@example.com" None)
                    ltac:(vm_compute; reflexivity)
                    ltac:(vm_compute; reflexivity)
                    ltac:(vm_compute; reflexivity))).
  - exact (proj1 (name_placeholder_replaced (fun _ => "0") "Hi "
                    ", welcome back" (mkCustomer "$'" "ann@example.com" None)
                    ltac:(vm_compute; reflexivity)
                    ltac:(vm_compute; reflexivity)
                    ltac:(vm_compute; reflexivity))).
Defined.

Lemma matched_text_pattern_keeps_placeholders_witness :
  personalizeMessage (fun _ => "0") "Hi {name} <{email}>"
    (mkCustomer "$&" "$&" None)
  = "Hi {name} <{email}>".
Proof.
  rewrite (matched_text_pattern_keeps_placeholders (fun _ => "0")
             "Hi {name} <{email}>" (mkCustomer "$&" "$&" None)
             eq_refl eq_refl).
  vm_compute. reflexivity.
Defined.

End Personalize.

(* ================================================================== *)
(** * Locating JSON in a provider text *)
(* ================================================================== *)

Module JsonText.

Import JsReplace.

(** [s.lastIndexOf(p)], with [None] for -1. *)
Fixpoint lastIndexOf_from (p s : string) (i : nat) (found : option nat)
  : option nat :=
  let found' := if startsWith p s then Some i else found in
  match s with
  | EmptyString => found'
  | String _ s' => lastIndexOf_from p s' (S i) found'
  end.

Definition lastIndexOf (s p : string) : option nat :=
  lastIndexOf_from p s 0 None.

(** The text from the first [open] to the last [close], when the latter
    comes after the former. *)
Definition candidate (open close text : string) : option string :=
  match indexOf text open, lastIndexOf text close with
  | Some first, Some last =>
      if first <? last then Some (substring text first (last + 1)) else None
  | _, _ => None
  end.

Section Extract.

(** [JSON.parse] of the host; [None] when it throws. *)
Variable JSON_parse : string -> option Json.

(** [extractJsonFromText]; [JNull] is [null]. *)
Definition extractJsonFromText (text : string) : Json :=
  if text === "" then JNull
  else
    let whole_text :=
      match JSON_parse (trim text) with
      | Some j => j
      | None => JNull
      end in
    let array_root :=
      match candidate "[" "]" text with
      | Some c =>
          match JSON_parse c with
          | Some j => j
          | None => whole_text
          end
      | None => whole_text
      end in
    match candidate "{" "}" text with
    | Some c =>
        match JSON_parse c with
        | Some j => j
        | None => array_root
        end
    | None => array_root
    end.

End Extract.

Lemma indexOf_from_char (c : ascii) (pre rest : string) (i : nat) :
  has_char c pre = false ->
  indexOf_from (String c EmptyString) (pre ++ String c rest) i
  = Some (i + String.length pre).
Proof.
  revert i. induction pre as [|d pre IH]; intros i H.
  - cbn. rewrite Ascii.eqb_refl. rewrite Nat.add_0_r. reflexivity.
  - cbn [has_char] in H. apply orb_false_elim in H. destruct H as [H1 H2].
    cbn [append indexOf_from startsWith]. rewrite H1. cbn [andb].
    rewrite IH by exact H2. cbn [String.length]. f_equal. lia.
Qed.

Lemma lastIndexOf_from_absent (c : ascii) (s : string) (i : nat)
    (found : option nat) :
  has_char c s = false ->
  lastIndexOf_from (String c EmptyString) s i found = found.
Proof.
  revert i. induction s as [|d s IH]; intros i H.
  - reflexivity.
  - cbn [has_char] in H. apply orb_false_elim in H. destruct H as [H1 H2].
    cbn [lastIndexOf_from startsWith]. rewrite H1. cbn [andb].
    apply IH. exact H2.
Qed.

Lemma lastIndexOf_from_char (c : ascii) (x post : string) (i : nat)
    (found : option nat) :
  has_char c post = false ->
  lastIndexOf_from (String c EmptyString) (x ++ String c post) i found
  = Some (i + String.length x).
Proof.
  revert i found. induction x as [|d x IH]; intros i found H.
  - cbn [append lastIndexOf_from startsWith]. rewrite Ascii.eqb_refl.
    cbn [andb]. rewrite lastIndexOf_from_absent by exact H.
    cbn [String.length]. f_equal. lia.
  - cbn [append lastIndexOf_from]. rewrite IH by exact H.
    cbn [String.length]. f_equal. lia.
Qed.

Lemma substring_middle (pre mid post : string) :
  substring (pre ++ mid ++ post) (String.length pre)
    (String.length pre + String.length mid)
  = mid.
Proof.
  unfold substring. rewrite !string_length_append.
  replace (Nat.min (String.length pre)
             (String.length pre + (String.length mid + String.length post)))
    with (String.length pre) by lia.
  replace (Nat.min (String.length pre + String.length mid)
             (String.length pre + (String.length mid + String.length post)))
    with (String.length pre + String.length mid) by lia.
  replace (Nat.min (String.length pre) (String.length pre + String.length mid))
    with (String.length pre) by lia.
  replace (Nat.max (String.length pre) (String.length pre + String.length mid)
           - String.length pre)
    with (String.length mid) by lia.
  rewrite drop_append. apply take_append.
Qed.

(** The candidate of a text [pre open body close post] whose [pre] has no
    [open] and whose [post] has no [close] is [open body close]. *)
Lemma candidate_wrapped (o c : ascii) (pre body post : string) :
  has_char o pre = false ->
  has_char c post = false ->
  candidate (String o EmptyString) (String c EmptyString)
    (pre ++ String o (body ++ String c post))
  = Some (String o (body ++ String c EmptyString)).
Proof.
  intros Ho Hc. unfold candidate, indexOf, lastIndexOf.
  rewrite indexOf_from_char by exact Ho.
  replace (pre ++ String o (body ++ String c post))
    with ((pre ++ String o body) ++ String c post)
    by (rewrite append_assoc; reflexivity).
  rewrite lastIndexOf_from_char by exact Hc.
  rewrite string_length_append. cbn [String.length Nat.add].
  replace (String.length pre <? String.length pre + S (String.length body))
    with true by (symmetry; apply Nat.ltb_lt; lia).
  f_equal.
  replace ((pre ++ String o body) ++ String c post)
    with (pre ++ String o (body ++ String c EmptyString) ++ post)
    by (rewrite !append_assoc; cbn [append]; rewrite append_assoc; reflexivity).
  replace (String.length pre + S (String.length body) + 1)
    with (String.length pre
          + String.length (String o (body ++ String c EmptyString)))
    by (cbn [String.length]; rewrite string_length_append; simpl; lia).
  apply substring_middle.
Qed.

Section Facts.

Variable JSON_parse : string -> option Json.

(** X7.  A JSON object wrapped in prose is found: when the text is
    [pre { body } post], [pre] has no opening brace, [post] has no closing
    brace and [{ body }] parses, the result is that parse, whatever else
    the text holds (an enclosing array included). *)
Theorem wrapped_object_is_extracted (pre body post : string) (j : Json) :
  includes pre "{" = false ->
  includes post "}" = false ->
  JSON_parse ("{" ++ body ++ "}") = Some j ->
  extractJsonFromText JSON_parse (pre ++ "{" ++ body ++ "}" ++ post) = j.
Proof.
  intros Hpre Hpost Hj. rewrite includes_char in Hpre, Hpost.
  unfold extractJsonFromText.
  assert (NE : (pre ++ "{" ++ body ++ "}" ++ post === "") = false).
  { apply String.eqb_neq. destruct pre; discriminate. }
  rewrite NE. cbv zeta.
  change (pre ++ "{" ++ body ++ "}" ++ post)
    with (pre ++ String "{" (body ++ String "}" post)).
  rewrite candidate_wrapped by assumption.
  change (String "{" (body ++ String "}" EmptyString))
    with ("{" ++ body ++ "}").
  rewrite Hj. reflexivity.
Qed.

(** X8.  When the text from the first opening brace to the last closing
    brace is missing or does not parse, a JSON array wrapped in prose is
    found: for a text [pre [ body ] post] whose [pre] has no opening
    bracket and whose [post] has no closing bracket, the result is the
    parse of [[ body ]]. *)
Theorem wrapped_array_is_the_fallback (pre body post : string) (j : Json) :
  includes pre "[" = false ->
  includes post "]" = false ->
  match candidate "{" "}" (pre ++ "[" ++ body ++ "]" ++ post) with
  | Some c => JSON_parse c = None
  | None => True
  end ->
  JSON_parse ("[" ++ body ++ "]") = Some j ->
  extractJsonFromText JSON_parse (pre ++ "[" ++ body ++ "]" ++ post) = j.
Proof.
  intros Hpre Hpost Hbrace Hj. rewrite includes_char in Hpre, Hpost.
  unfold extractJsonFromText.
  assert (NE : (pre ++ "[" ++ body ++ "]" ++ post === "") = false).
  { apply String.eqb_neq. destruct pre; discriminate. }
  rewrite NE. cbv zeta.
  assert (A : candidate "[" "]" (pre ++ "[" ++ body ++ "]" ++ post)
              = Some ("[" ++ body ++ "]")).
  { change (pre ++ "[" ++ body ++ "]" ++ post)
      with (pre ++ String "[" (body ++ String "]" post)).
    rewrite candidate_wrapped by assumption. reflexivity. }
  rewrite A, Hj.
  destruct (candidate "{" "}" (pre ++ "[" ++ body ++ "]" ++ post)) as [c|];
    [rewrite Hbrace|]; reflexivity.
Qed.

End Facts.

(** A parser that knows two texts, for the witnesses: [JSON.parse('{}')] is
    the empty object and [JSON.parse('[]')] the empty array. *)
Definition parse_empty (s : string) : option Json :=
  if s === "{}" then Some (JObj [])
  else if s === "[]" then Some (JArr [])
  else None.

Lemma wrapped_object_is_extracted_witness :
  extractJsonFromText parse_empty ("Here you go: [" ++ "{" ++ "" ++ "}" ++ "] done")
  = JObj [].
Proof.
  apply (wrapped_object_is_extracted parse_empty "Here you go: [" "" "] done");
    vm_compute; reflexivity.
Defined.

Lemma wrapped_array_is_the_fallback_witness :
  extractJsonFromText parse_empty ("Rules: " ++ "[" ++ "" ++ "]" ++ " } {")
  = JArr [].
Proof.
  apply (wrapped_array_is_the_fallback parse_empty "Rules: " "" " } {");
    vm_compute; reflexivity.
Defined.

End JsonText.

(* ================================================================== *)
(** * Reading the text out of a provider response *)
(* ================================================================== *)

Module ResponseText.

(** A JavaScript value here is [option Json]: [None] is [undefined],
    [Some JNull] is [null]. *)
Definition truthy_opt (v : option Json) : bool :=
  match v with
  | Some j => truthy j
  | None => false
  end.

(** [v?.key] for the keys [extractTextFromProviderResponse] reads
    (candidates, content, output, parts, text, choices, message, results,
    generatedText, generated_text): none of them is a property of an array,
    a string, a number or a boolean.  Every plain [v.key] of the source has
    a receiver that a guard has just found truthy, so it is the same
    access. *)
Definition dot (v : option Json) (key : string) : option Json :=
  match v with
  | Some (JObj members) => get key members
  | _ => None
  end.

(** [v?.[0]]: the first element of an array, the first character of a
    string, the key "0" of an object. *)
Definition at0 (v : option Json) : option Json :=
  match v with
  | Some (JArr (x :: _)) => Some x
  | Some (JStr (String c _)) => Some (JStr (String c EmptyString))
  | Some (JObj members) => get "0" members
  | _ => None
  end.

(** [Array.isArray(v)] *)
Definition isArray (v : option Json) : bool :=
  match v with
  | Some (JArr _) => true
  | _ => false
  end.

(** [a || b] *)
Definition or_ (a b : option Json) : option Json :=
  if truthy_opt a then a else b.

Section Extract.

(** [JSON.parse] ([None] when it throws) and [String(v)] on a value that is
    not a string, both of the host. *)
Variable JSON_parse : string -> option Json.
Variable ToStringOther : Json -> string.

(** [String(v).trim()] on a truthy value. *)
Definition trimmedText (v : option Json) : string :=
  match v with
  | Some (JStr s) => trim s
  | Some j => trim (ToStringOther j)
  | None => trim "undefined"
  end.

(** The block under [if (cand)]; [None] is falling through. *)
Definition fromCandidate (cand : option Json) : option string :=
  let content := or_ (dot cand "content") (or_ (dot cand "output") cand) in
  if truthy_opt content then
    let parts :=
      or_ (dot content "parts")
        (or_ (dot (dot (at0 content) "content") "parts")
           (or_ (dot (dot content "content") "parts") content)) in
    if (isArray parts && truthy_opt (dot (at0 parts) "text"))%bool
    then Some (trimmedText (dot (at0 parts) "text"))
    else if (truthy_opt (dot parts "parts") && isArray (dot parts "parts")
             && truthy_opt (dot (at0 (dot parts "parts")) "text"))%bool
    then Some (trimmedText (dot (at0 (dot parts "parts")) "text"))
    else if (truthy_opt (dot content "parts") && isArray (dot content "parts")
             && truthy_opt (dot (at0 (dot content "parts")) "text"))%bool
    then Some (trimmedText (dot (at0 (dot content "parts")) "text"))
    else None
  else None.

(** The first truthy path of a list of paths, rendered. *)
Fixpoint firstTruthy (vs : list (option Json)) : option string :=
  match vs with
  | [] => None
  | v :: vs' => if truthy_opt v then Some (trimmedText v) else firstTruthy vs'
  end.

(** The [try] block, on the response once it is not a string. *)
Definition fromData (data : option Json) : option string :=
  let cand := at0 (dot data "candidates") in
  match (if truthy_opt cand then fromCandidate cand else None) with
  | Some text => Some text
  | None =>
      firstTruthy
        [dot (at0 (dot (at0 (dot data "candidates")) "parts")) "text";
         dot (at0 (dot data "choices")) "text";
         dot (dot (at0 (dot data "choices")) "message") "content";
         dot (at0 (dot (at0 (dot data "output")) "content")) "text";
         dot (at0 (dot (dot (at0 (dot data "results")) "output") "content"))
           "text";
         dot data "generatedText";
         dot data "generated_text"]
  end.

(** [extractTextFromProviderResponse]; [None] is [null]. *)
Definition extractTextFromProviderResponse (data : Json) : option string :=
  if negb (truthy data) then None
  else
    match data with
    | JStr text =>
        let s := trim text in
        if (startsWith "{" s || startsWith "[" s)%bool
        then match JSON_parse s with
             | Some parsed => fromData (Some parsed)
             | None => Some s
             end
        else Some s
    | _ => fromData (Some data)
    end.

(** X9.  A Gemini-style response is read at
    [candidates[0].content.parts[0].text]: when that text is a non-empty
    string, it is returned trimmed, whatever other keys (choices included)
    the response has. *)
Theorem gemini_text_is_read (members cand content part : list (string * Json))
    (candidates parts : list Json) (text : string) :
  get "candidates" members = Some (JArr (JObj cand :: candidates)) ->
  get "content" cand = Some (JObj content) ->
  get "parts" content = Some (JArr (JObj part :: parts)) ->
  get "text" part = Some (JStr text) ->
  text <> "" ->
  extractTextFromProviderResponse (JObj members) = Some (trim text).
Proof.
  intros Hc Hct Hp Ht Hne.
  assert (T : (text === "") = false) by (apply String.eqb_neq; exact Hne).
  assert (C : or_ (dot (Some (JObj cand)) "content")
                (or_ (dot (Some (JObj cand)) "output") (Some (JObj cand)))
              = Some (JObj content)).
  { cbn [dot]. rewrite Hct. reflexivity. }
  assert (P : forall b, or_ (dot (Some (JObj content)) "parts") b
                        = Some (JArr (JObj part :: parts))).
  { intros b. cbn [dot]. rewrite Hp. reflexivity. }
  assert (F : fromCandidate (Some (JObj cand)) = Some (trim text)).
  { unfold fromCandidate. cbv zeta. rewrite C, P.
    cbn [truthy_opt truthy isArray at0 dot]. rewrite Ht.
    cbn [truthy_opt truthy]. rewrite T. reflexivity. }
  unfold extractTextFromProviderResponse, fromData. cbn [truthy negb dot].
  rewrite Hc. cbn [at0 truthy_opt truthy]. rewrite F. reflexivity.
Qed.

(** X10.  An OpenAI-style response without [candidates] is read at
    [choices[0].text], and at [choices[0].message.content] when the former
    is missing: a non-empty string there is returned trimmed. *)
Theorem openai_text_is_read (members choice message : list (string * Json))
    (choices : list Json) (text : string) :
  get "candidates" members = None ->
  get "choices" members = Some (JArr (JObj choice :: choices)) ->
  text <> "" ->
  (get "text" choice = Some (JStr text) ->
   extractTextFromProviderResponse (JObj members) = Some (trim text))
  /\ (get "text" choice = None ->
      get "message" choice = Some (JObj message) ->
      get "content" message = Some (JStr text) ->
      extractTextFromProviderResponse (JObj members) = Some (trim text)).
Proof.
  intros Hc Hch Hne.
  assert (T : (text === "") = false) by (apply String.eqb_neq; exact Hne).
  unfold extractTextFromProviderResponse, fromData. cbn [truthy negb dot].
  rewrite Hc. cbn [at0 dot truthy_opt firstTruthy]. rewrite Hch.
  cbn [at0 dot].
  split.
  - intros Ht. rewrite Ht. cbn [truthy_opt truthy]. rewrite T.
    cbn [negb trimmedText]. reflexivity.
  - intros Ht Hm Hcn. rewrite Ht, Hm. cbn [truthy_opt dot]. rewrite Hcn.
    cbn [truthy_opt truthy]. rewrite T. cbn [negb trimmedText]. reflexivity.
Qed.

(** X11.  A response object with none of the keys [candidates], [choices],
    [output], [results], [generatedText] and [generated_text] yields
    [null]; so do [null], [false], [0] and the empty string. *)
Theorem unknown_shape_yields_null (members : list (string * Json)) :
  get "candidates" members = None ->
  get "choices" members = None ->
  get "output" members = None ->
  get "results" members = None ->
  get "generatedText" members = None ->
  get "generated_text" members = None ->
  extractTextFromProviderResponse (JObj members) = None
  /\ extractTextFromProviderResponse JNull = None
  /\ extractTextFromProviderResponse (JBool false) = None
  /\ extractTextFromProviderResponse (JNum 0) = None
  /\ extractTextFromProviderResponse (JStr "") = None.
Proof.
  intros H1 H2 H3 H4 H5 H6.
  split; [|repeat split; reflexivity].
  unfold extractTextFromProviderResponse, fromData. cbn [truthy negb dot].
  rewrite H1, H2, H3, H4, H5, H6. reflexivity.
Qed.

(** X12.  A response that is a string not starting (once trimmed) with a
    brace or a bracket is returned trimmed, and a string that starts with
    one and does not parse is returned trimmed as well. *)
Theorem plain_string_is_trimmed (text : string) :
  text <> "" ->
  (startsWith "{" (trim text) = false ->
   startsWith "[" (trim text) = false ->
   extractTextFromProviderResponse (JStr text) = Some (trim text))
  /\ (JSON_parse (trim text) = None ->
      extractTextFromProviderResponse (JStr text) = Some (trim text)).
Proof.
  intros Hne.
  assert (T : (text === "") = false) by (apply String.eqb_neq; exact Hne).
  unfold extractTextFromProviderResponse. cbn [truthy]. rewrite T.
  cbn [negb]. cbv zeta. split.
  - intros H1 H2. rewrite H1, H2. reflexivity.
  - intros H.
    destruct (startsWith "{" (trim text) || startsWith "[" (trim text))%bool;
      [rewrite H|]; reflexivity.
Qed.

End Extract.

(** A response with both an OpenAI and a Gemini part. *)
Definition partOfGemini : list (string * Json) :=
  [("text", JStr "  from parts ")].

Definition contentOfGemini : list (string * Json) :=
  [("parts", JArr [JObj partOfGemini])].

Definition candidateOfGemini : list (string * Json) :=
  [("content", JObj contentOfGemini)].

Definition mixedResponse : list (string * Json) :=
  [("choices", JArr [JObj [("text", JStr "from choices")]]);
   ("candidates", JArr [JObj candidateOfGemini])].

Lemma gemini_text_is_read_witness :
  extractTextFromProviderResponse (fun _ => None) (fun _ => "")
    (JObj mixedResponse)
  = Some "from parts".
Proof.
  exact (gemini_text_is_read (fun _ => None) (fun _ => "") mixedResponse
           candidateOfGemini contentOfGemini partOfGemini [] []
           "  from parts " eq_refl eq_refl eq_refl eq_refl
           ltac:(discriminate)).
Defined.

Lemma openai_text_is_read_witness :
  extractTextFromProviderResponse (fun _ => None) (fun _ => "")
    (JObj [("choices", JArr [JObj [("text", JStr " hello ")]])])
  = Some "hello"
  /\ extractTextFromProviderResponse (fun _ => None) (fun _ => "")
       (JObj [("choices",
               JArr [JObj [("message", JObj [("content", JStr " hello ")])]])])
     = Some "hello".
Proof.
  split.
  - exact (proj1 (openai_text_is_read (fun _ => None) (fun _ => "")
                    [("choices", JArr [JObj [("text", JStr " hello ")]])]
                    [("text", JStr " hello ")] [] [] " hello "
                    eq_refl eq_refl ltac:(discriminate)) eq_refl).
  - exact (proj2 (openai_text_is_read (fun _ => None) (fun _ => "")
                    [("choices",
                      JArr [JObj [("message",
                                   JObj [("content", JStr " hello ")])]])]
                    [("message", JObj [("content", JStr " hello ")])]
                    [("content", JStr " hello ")] [] " hello "
                    eq_refl eq_refl ltac:(discriminate))
             eq_refl eq_refl eq_refl).
Defined.

Lemma unknown_shape_yields_null_witness :
  extractTextFromProviderResponse (fun _ => None) (fun _ => "")
    (JObj [("error", JObj [("message", JStr "quota exceeded")])])
  = None.
Proof.
  exact (proj1 (unknown_shape_yields_null (fun _ => None) (fun _ => "")
                  [("error", JObj [("message", JStr "quota exceeded")])]
                  eq_refl eq_refl eq_refl eq_refl eq_refl eq_refl)).
Defined.

Lemma plain_string_is_trimmed_witness :
  extractTextFromProviderResponse (fun _ => None) (fun _ => "")
    (JStr "  Sure, here are the rules. ")
  = Some "Sure, here are the rules."
  /\ extractTextFromProviderResponse (fun _ => None) (fun _ => "")
       (JStr " {not json ")
     = Some "{not json".
Proof.
  split.
  - exact (proj1 (plain_string_is_trimmed (fun _ => None) (fun _ => "")
                    "  Sure, here are the rules. " ltac:(discriminate))
             eq_refl eq_refl).
  - exact (proj2 (plain_string_is_trimmed (fun _ => None) (fun _ => "")
                    " {not json " ltac:(discriminate)) eq_refl).
Defined.

End ResponseText.

(* ================================================================== *)
(** * Sending the messages of a campaign *)
(* ================================================================== *)

Module Delivery.

Inductive MessageStatus : Type := PENDING | SENT | DELIVERED | FAILED.

(** The columns of a communication log that [sendCampaignMessages] writes
    (the timestamps apart). *)
Record Row : Type := mkRow {
  status : MessageStatus;
  errorMessage : option string
}.

(** What one [axios.post] to the vendor comes to: the response passes the
    test [resp && resp.data && (resp.data.success || resp.status === 200)],
    or it does not, or the call throws. *)
Inductive VendorOutcome : Type := Accepted | Refused | CallThrows.

(** The store and the vendor as the run sees them: the rows by id, the
    number of vendor calls and of store writes made so far, and the batches
    handed to [updateMany], oldest first. *)
Record World : Type := mkWorld {
  table : nat -> Row;
  vendorCalls : nat;
  writes : nat;
  batches : list (list nat)
}.

(** [acceptedIds.length >= batchSize] *)
Definition reached (len : nat) (batchSize : JsNum) : bool :=
  match batchSize with
  | NaN => false
  | Infinity negative => negative
  | Finite q => Qle_bool q (inject_Z (Z.of_nat len))
  end.

Section Run.

(** [vendor n] is the outcome of the [n]-th vendor call, [writeFails n]
    whether the [n]-th write to the store throws. *)
Variable vendor : nat -> VendorOutcome.
Variable writeFails : nat -> bool.
Variable batchSize : JsNum.

(** [prisma.communicationLog.update({ where: { id }, data: { status:
    FAILED, errorMessage } })]; the boolean tells whether it threw. *)
Definition markFailed (id : nat) (message : string) (w : World)
  : bool * World :=
  if writeFails (writes w)
  then (true, mkWorld (table w) (vendorCalls w) (S (writes w)) (batches w))
  else (false,
        mkWorld (fun i => if Nat.eqb i id then mkRow FAILED (Some message)
                          else table w i)
          (vendorCalls w) (S (writes w)) (batches w)).

(** [prisma.communicationLog.updateMany({ where: { id: { in: ids } },
    data: { status: SENT } })], inside its [try]. *)
Definition markSent (ids : list nat) (w : World) : World :=
  if writeFails (writes w)
  then mkWorld (table w) (vendorCalls w) (S (writes w))
         (batches w ++ [ids])%list
  else mkWorld (fun i => if existsb (Nat.eqb i) ids
                         then mkRow SENT (errorMessage (table w i))
                         else table w i)
         (vendorCalls w) (S (writes w)) (batches w ++ [ids])%list.

(** The first [try] of the loop body with its [catch]. *)
Definition callVendor (id : nat) (acceptedIds : list nat) (w : World)
  : list nat * World :=
  let w1 := mkWorld (table w) (S (vendorCalls w)) (writes w) (batches w) in
  match vendor (vendorCalls w) with
  | Accepted => ((acceptedIds ++ [id])%list, w1)
  | Refused =>
      let '(threw, w2) := markFailed id "Vendor did not accept message" w1 in
      if threw
      then (acceptedIds, snd (markFailed id "Vendor call failed" w2))
      else (acceptedIds, w2)
  | CallThrows => (acceptedIds, snd (markFailed id "Vendor call failed" w1))
  end.

(** The flush at the end of the loop body. *)
Definition flush (last : bool) (acceptedIds : list nat) (w : World)
  : list nat * World :=
  if (reached (List.length acceptedIds) batchSize || last)%bool
  then if 0 <? List.length acceptedIds
       then ([], markSent acceptedIds w)
       else (acceptedIds, w)
  else (acceptedIds, w).

(** The [for] loop over [pendingLogs.entries()]. *)
Fixpoint sendLoop (pendingLogs : list nat) (acceptedIds : list nat) (w : World)
  : World :=
  match pendingLogs with
  | [] => w
  | id :: rest =>
      let '(accepted1, w1) := callVendor id acceptedIds w in
      let last := match rest with [] => true | _ => false end in
      let '(accepted2, w2) := flush last accepted1 w1 in
      sendLoop rest accepted2 w2
  end.

(** [sendCampaignMessages], from the result of [findMany] on: the ids of
    the pending logs of the campaign, or [None] when the query threw. *)
Definition sendCampaignMessages (found : option (list nat)) (w : World)
  : World :=
  match found with
  | None => w
  | Some pendingLogs => sendLoop pendingLogs [] w
  end.

End Run.

(** [Number(process.env.VENDOR_BATCH_SIZE || 50)] *)
Definition batchSizeOf (StringToNumber : string -> JsNum)
    (VENDOR_BATCH_SIZE : option string) : JsNum :=
  match VENDOR_BATCH_SIZE with
  | Some s => if s === "" then Finite 50 else StringToNumber s
  | None => Finite 50
  end.

(** The status a log must end in. *)
Definition outcomeStatus (o : VendorOutcome) : MessageStatus :=
  match o with
  | Accepted => SENT
  | Refused => FAILED
  | CallThrows => FAILED
  end.

Definition never (n : nat) : bool := false.

(** The ids the vendor accepts, in order, when the first call is call [n]. *)
Fixpoint acceptedIn (vendor : nat -> VendorOutcome) (n : nat)
    (pendingLogs : list nat) : list nat :=
  match pendingLogs with
  | [] => []
  | id :: rest =>
      match vendor n with
      | Accepted => id :: acceptedIn vendor (S n) rest
      | _ => acceptedIn vendor (S n) rest
      end
  end.

Section Facts.

Variable vendor : nat -> VendorOutcome.
Variable batchSize : JsNum.

Lemma existsb_eqb_In (i : nat) (ids : list nat) :
  existsb (Nat.eqb i) ids = true <-> In i ids.
Proof.
  rewrite existsb_exists. split.
  - intros (x & Hx & E). apply Nat.eqb_eq in E. subst x. exact Hx.
  - intros H. exists i. split; [exact H | apply Nat.eqb_refl].
Qed.

(** What [callVendor] does to the world, whatever the store does. *)
Lemma callVendor_shape (writeFails : nat -> bool) (id : nat)
    (acceptedIds : list nat) (w : World) :
  let r := callVendor vendor writeFails id acceptedIds w in
  vendorCalls (snd r) = S (vendorCalls w)
  /\ batches (snd r) = batches w
  /\ fst r = match vendor (vendorCalls w) with
             | Accepted => (acceptedIds ++ [id])%list
             | _ => acceptedIds
             end.
Proof.
  unfold callVendor, markFailed. cbn [table vendorCalls writes batches].
  destruct (vendor (vendorCalls w)); cbn [fst snd].
  - repeat split.
  - destruct (writeFails (writes w)); cbn [writes].
    + destruct (writeFails (S (writes w))); repeat split.
    + repeat split.
  - destruct (writeFails (writes w)); repeat split.
Qed.

(** What [callVendor] does to the rows when no write fails. *)
Lemma callVendor_rows (id : nat) (acceptedIds : list nat) (w : World) :
  let r := callVendor vendor never id acceptedIds w in
  match vendor (vendorCalls w) with
  | Accepted => table (snd r) = table w
  | _ =>
      status (table (snd r) id) = FAILED
      /\ forall i, i <> id -> table (snd r) i = table w i
  end.
Proof.
  unfold callVendor, markFailed, never.
  destruct (vendor (vendorCalls w)); cbn [fst snd table].
  - reflexivity.
  - rewrite Nat.eqb_refl. split; [reflexivity|].
    intros i Hi. apply Nat.eqb_neq in Hi. rewrite Hi. reflexivity.
  - rewrite Nat.eqb_refl. split; [reflexivity|].
    intros i Hi. apply Nat.eqb_neq in Hi. rewrite Hi. reflexivity.
Qed.

Lemma flush_shape (writeFails : nat -> bool) (last : bool)
    (acceptedIds : list nat) (w : World) :
  let r := flush writeFails batchSize last acceptedIds w in
  vendorCalls (snd r) = vendorCalls w
  /\ ((fst r = acceptedIds /\ snd r = w
       /\ (last = true -> acceptedIds = [])
       /\ (reached (List.length acceptedIds) batchSize = true ->
           acceptedIds = []))
      \/ (fst r = [] /\ acceptedIds <> []
          /\ batches (snd r) = (batches w ++ [acceptedIds])%list
          /\ (reached (List.length acceptedIds) batchSize = true
              \/ last = true))).
Proof.
  unfold flush, markSent.
  destruct (reached (List.length acceptedIds) batchSize) eqn:R;
    destruct last; cbn [orb];
    try (destruct acceptedIds as [|a l]; cbn [List.length Nat.ltb Nat.leb];
         [ split; [reflexivity|]; left; repeat split; reflexivity
         | destruct (writeFails (writes w)); cbn [fst snd vendorCalls batches];
           (split; [reflexivity|]); right;
           (split; [reflexivity|]); (split; [discriminate|]);
           (split; [reflexivity|]); auto ]).
  cbn [fst snd]. split; [reflexivity|]. left.
  repeat split; intros H; discriminate H.
Qed.

Lemma flush_rows (last : bool) (acceptedIds : list nat) (w : World) :
  let r := flush never batchSize last acceptedIds w in
  fst r = acceptedIds /\ snd r = w
  \/ (fst r = []
      /\ (forall i, In i acceptedIds -> status (table (snd r) i) = SENT)
      /\ (forall i, ~ In i acceptedIds -> table (snd r) i = table w i)).
Proof.
  unfold flush, markSent, never.
  destruct (reached (List.length acceptedIds) batchSize || last)%bool;
    [|left; split; reflexivity].
  destruct (0 <? List.length acceptedIds); [|left; split; reflexivity].
  right. cbn [fst snd table]. split; [reflexivity|]. split.
  - intros i Hi. apply existsb_eqb_In in Hi. rewrite Hi. reflexivity.
  - intros i Hi.
    destruct (existsb (Nat.eqb i) acceptedIds) eqn:E; [|reflexivity].
    apply existsb_eqb_In in E. contradiction.
Qed.

End Facts.

Section Results.

Variable vendor : nat -> VendorOutcome.
Variable batchSize : JsNum.

(** The invariant of the loop when no write fails: the ids waiting in
    [acceptedIds] end up SENT, the logs still to come end up as the vendor
    decides, and no other row is touched. *)
Lemma sendLoop_rows (pendingLogs acceptedIds : list nat) (w : World) :
  (pendingLogs = [] -> acceptedIds = []) ->
  NoDup (acceptedIds ++ pendingLogs) ->
  (forall i, In i acceptedIds ->
     status (table (sendLoop vendor never batchSize pendingLogs acceptedIds w) i)
     = SENT)
  /\ (forall k i, nth_error pendingLogs k = Some i ->
        status (table (sendLoop vendor never batchSize pendingLogs acceptedIds w) i)
        = outcomeStatus (vendor (vendorCalls w + k)))
  /\ (forall i, ~ In i (acceptedIds ++ pendingLogs) ->
        table (sendLoop vendor never batchSize pendingLogs acceptedIds w) i
        = table w i).
Proof.
  revert acceptedIds w.
  induction pendingLogs as [|id rest IH]; intros acc w Hne Hnd.
  - rewrite (Hne eq_refl). cbn [sendLoop]. split; [|split].
    + intros i [].
    + intros k i H. destruct k; discriminate H.
    + reflexivity.
  - clear Hne. cbn [sendLoop].
    assert (S1 := callVendor_shape vendor never id acc w).
    assert (R1 := callVendor_rows vendor id acc w).
    destruct (callVendor vendor never id acc w) as [acc1 w1].
    cbv zeta in S1, R1. cbn [fst snd] in S1, R1.
    destruct S1 as (V1 & _ & A1).
    set (last := match rest with [] => true | _ :: _ => false end).
    assert (S2 := flush_shape batchSize never last acc1 w1).
    assert (R2 := flush_rows batchSize last acc1 w1).
    destruct (flush never batchSize last acc1 w1) as [acc2 w2].
    cbv zeta in S2, R2. cbn [fst snd] in S2, R2.
    destruct S2 as (V2 & S2).
    (* the ids of the list are distinct *)
    assert (Nid_acc : ~ In id acc).
    { apply NoDup_remove_2 in Hnd. intros H. apply Hnd.
      apply in_or_app. left. exact H. }
    assert (Nid_rest : ~ In id rest).
    { apply NoDup_remove_2 in Hnd. intros H. apply Hnd.
      apply in_or_app. right. exact H. }
    assert (Nacc_rest : forall i, In i acc -> ~ In i rest).
    { intros i Hi Hr. apply NoDup_remove_1 in Hnd.
      clear - Hnd Hi Hr. induction acc as [|a acc IHa]; [destruct Hi|].
      simpl in Hnd. inversion Hnd as [|x l Hx Hl]; subst.
      destruct Hi as [Hi|Hi].
      - subst a. apply Hx. apply in_or_app. right. exact Hr.
      - apply IHa; assumption. }
    assert (Nd_rest : NoDup rest).
    { apply NoDup_remove_1 in Hnd. clear - Hnd.
      induction acc as [|a acc IHa]; [exact Hnd|].
      simpl in Hnd. inversion Hnd; subst. apply IHa. assumption. }
    (* after the vendor call *)
    assert (HA_sub : forall i, In i acc1 -> In i acc \/ i = id).
    { intros i Hi. rewrite A1 in Hi.
      destruct (vendor (vendorCalls w)); auto.
      apply in_app_or in Hi. destruct Hi as [Hi|[Hi|[]]]; auto. }
    assert (HA_acc : forall i, In i acc -> In i acc1).
    { intros i Hi. rewrite A1.
      destruct (vendor (vendorCalls w)); auto.
      apply in_or_app. left. exact Hi. }
    assert (HA_tab : forall i, i <> id -> table w1 i = table w i).
    { intros i Hi. destruct (vendor (vendorCalls w));
        [rewrite R1; reflexivity | apply R1; exact Hi | apply R1; exact Hi]. }
    assert (HA_id : (In id acc1 /\ outcomeStatus (vendor (vendorCalls w)) = SENT)
                    \/ (~ In id acc1 /\ status (table w1 id) = FAILED
                         /\ outcomeStatus (vendor (vendorCalls w)) = FAILED)).
    { rewrite A1. destruct (vendor (vendorCalls w)).
      - left. split; [|reflexivity]. apply in_or_app. right. left. reflexivity.
      - right. split; [exact Nid_acc|]. split; [apply R1 | reflexivity].
      - right. split; [exact Nid_acc|]. split; [apply R1 | reflexivity]. }
    assert (Nacc1_rest : forall i, In i acc1 -> ~ In i rest).
    { intros i Hi. destruct (HA_sub i Hi) as [H|H];
        [apply Nacc_rest; exact H | subst i; exact Nid_rest]. }
    (* after the flush *)
    assert (HF_sub : forall i, In i acc2 -> In i acc1).
    { intros i Hi. destruct R2 as [[E _]|[E _]]; rewrite E in Hi;
        [exact Hi | destruct Hi]. }
    assert (HF_tab : forall i, ~ In i acc1 -> table w2 i = table w1 i).
    { intros i Hi. destruct R2 as [[_ E]|[_ [_ E]]];
        [rewrite E; reflexivity | apply E; exact Hi]. }
    assert (HF_sent : forall i, In i acc1 ->
              In i acc2 \/ (~ In i acc2 /\ status (table w2 i) = SENT)).
    { intros i Hi. destruct R2 as [[E _]|[E [E' _]]].
      - left. rewrite E. exact Hi.
      - right. split; [rewrite E; intros []|]. apply E'. exact Hi. }
    assert (Hlast : rest = [] -> acc2 = []).
    { intros Hr. destruct S2 as [(E & _ & L & _)|(E & _)]; [|exact E].
      rewrite E. apply L. unfold last. rewrite Hr. reflexivity. }
    assert (Hnd2 : NoDup (acc2 ++ rest)).
    { destruct R2 as [[E _]|[E _]]; rewrite E; [|exact Nd_rest].
      rewrite A1. destruct (vendor (vendorCalls w)).
      - rewrite <- app_assoc. exact Hnd.
      - apply NoDup_remove_1 in Hnd. exact Hnd.
      - apply NoDup_remove_1 in Hnd. exact Hnd. }
    destruct (IH acc2 w2 Hlast Hnd2) as (I1 & I2 & I3).
    assert (G : forall i, In i acc1 ->
              status (table (sendLoop vendor never batchSize rest acc2 w2) i)
              = SENT).
    { intros i Hi. destruct (HF_sent i Hi) as [H|[H1 H2]].
      - apply I1. exact H.
      - rewrite I3; [exact H2|]. intros H. apply in_app_or in H.
        destruct H as [H|H]; [exact (H1 H) | exact (Nacc1_rest i Hi H)]. }
    split; [|split].
    + intros i Hi. apply G. apply HA_acc. exact Hi.
    + intros k i Hk. destruct k as [|k]; cbn [nth_error] in Hk.
      * inversion Hk; subst i. rewrite Nat.add_0_r.
        destruct HA_id as [[Hin Ho]|(Hnin & Hf & Ho)].
        -- rewrite Ho. apply G. exact Hin.
        -- rewrite Ho. rewrite I3.
           ++ rewrite HF_tab by exact Hnin. exact Hf.
           ++ intros H. apply in_app_or in H. destruct H as [H|H];
                [exact (Hnin (HF_sub id H)) | exact (Nid_rest H)].
      * rewrite (I2 k i Hk). rewrite V2, V1.
        replace (S (vendorCalls w) + k) with (vendorCalls w + S k) by lia.
        reflexivity.
    + intros i Hi.
      assert (Hi_acc : ~ In i acc)
        by (intros H; apply Hi; apply in_or_app; left; exact H).
      assert (Hi_id : i <> id)
        by (intros H; apply Hi; apply in_or_app; right; left; symmetry; exact H).
      assert (Hi_rest : ~ In i rest)
        by (intros H; apply Hi; apply in_or_app; right; right; exact H).
      assert (Hi_acc1 : ~ In i acc1)
        by (intros H; destruct (HA_sub i H); contradiction).
      rewrite I3.
      * rewrite HF_tab by exact Hi_acc1. apply HA_tab. exact Hi_id.
      * intros H. apply in_app_or in H. destruct H as [H|H];
          [exact (Hi_acc1 (HF_sub i H)) | exact (Hi_rest H)].
Qed.

(** X13.  When no write to the store fails and nothing else writes the
    rows, a run of [sendCampaignMessages] over pending logs of distinct ids
    leaves every one of them SENT if the vendor accepted its message and
    FAILED otherwise, none PENDING, whatever the batch size; the rows of
    other logs are untouched. *)
Theorem every_pending_log_is_settled (pendingLogs : list nat) (w : World) :
  NoDup pendingLogs ->
  vendorCalls w = 0 ->
  (forall k i, nth_error pendingLogs k = Some i ->
     status (table (sendCampaignMessages vendor never batchSize
                      (Some pendingLogs) w) i)
     = outcomeStatus (vendor k)
     /\ status (table (sendCampaignMessages vendor never batchSize
                         (Some pendingLogs) w) i)
        <> PENDING)
  /\ (forall i, ~ In i pendingLogs ->
        table (sendCampaignMessages vendor never batchSize
                 (Some pendingLogs) w) i
        = table w i).
Proof.
  intros Hnd Hv. cbn [sendCampaignMessages].
  destruct (sendLoop_rows pendingLogs [] w (fun _ => eq_refl) Hnd)
    as (_ & I2 & I3).
  split.
  - intros k i Hk. rewrite (I2 k i Hk), Hv. cbn [Nat.add]. split; [reflexivity|].
    destruct (vendor k); discriminate.
  - intros i Hi. apply I3. exact Hi.
Qed.

End Results.

Section Batches.

Variable vendor : nat -> VendorOutcome.
Variable writeFails : nat -> bool.
Variable batchSize : JsNum.

(** Whatever the store does: one vendor call per log, and the batches,
    laid end to end, are the ids that waited followed by the ids the
    vendor accepts. *)
Lemma sendLoop_batches (pendingLogs acceptedIds : list nat) (w : World) :
  (pendingLogs = [] -> acceptedIds = []) ->
  List.concat (batches (sendLoop vendor writeFails batchSize pendingLogs
                     acceptedIds w))
  = (List.concat (batches w) ++ acceptedIds
     ++ acceptedIn vendor (vendorCalls w) pendingLogs)%list
  /\ vendorCalls (sendLoop vendor writeFails batchSize pendingLogs
                    acceptedIds w)
     = vendorCalls w + List.length pendingLogs.
Proof.
  revert acceptedIds w.
  induction pendingLogs as [|id rest IH]; intros acc w Hne.
  - rewrite (Hne eq_refl). cbn [sendLoop acceptedIn List.length].
    rewrite !app_nil_r. split; [reflexivity | lia].
  - clear Hne. cbn [sendLoop].
    assert (S1 := callVendor_shape vendor writeFails id acc w).
    destruct (callVendor vendor writeFails id acc w) as [acc1 w1].
    cbv zeta in S1. cbn [fst snd] in S1. destruct S1 as (V1 & B1 & A1).
    set (last := match rest with [] => true | _ :: _ => false end).
    assert (S2 := flush_shape batchSize writeFails last acc1 w1).
    destruct (flush writeFails batchSize last acc1 w1) as [acc2 w2].
    cbv zeta in S2. cbn [fst snd] in S2. destruct S2 as (V2 & S2).
    assert (Hlast : rest = [] -> acc2 = []).
    { intros Hr. destruct S2 as [(E & _ & L & _)|(E & _)]; [|exact E].
      rewrite E. apply L. unfold last. rewrite Hr. reflexivity. }
    destruct (IH acc2 w2 Hlast) as (C & V).
    split.
    + rewrite C, V2, V1. cbn [acceptedIn].
      assert (K : (List.concat (batches w2) ++ acc2)%list
                  = (List.concat (batches w) ++ acc1)%list).
      { destruct S2 as [(E & Ew & _)|(E & _ & Eb & _)].
        - rewrite E, Ew, B1. reflexivity.
        - rewrite E, Eb, B1, concat_app. cbn [List.concat].
          rewrite !app_nil_r. reflexivity. }
      rewrite app_assoc, K, A1.
      destruct (vendor (vendorCalls w)); cbn [app];
        rewrite <- ?app_assoc; reflexivity.
    + rewrite V, V2, V1. cbn [List.length]. lia.
Qed.

Lemma reached_nat (len b : nat) :
  reached len (Finite (inject_Z (Z.of_nat b))) = (b <=? len).
Proof.
  unfold reached, Qle_bool, inject_Z. cbn [Qnum Qden].
  rewrite !Z.mul_1_r.
  destruct (b <=? len) eqn:E.
  - apply Nat.leb_le in E. apply Z.leb_le. lia.
  - apply Nat.leb_gt in E. apply Z.leb_gt. lia.
Qed.

(** With a whole batch size of at least 1, no batch is empty and none is
    larger than the batch size. *)
Lemma sendLoop_batch_sizes (b : nat) (pendingLogs acceptedIds : list nat)
    (w : World) :
  batchSize = Finite (inject_Z (Z.of_nat b)) ->
  1 <= b ->
  List.length acceptedIds < b ->
  Forall (fun l => 1 <= List.length l <= b) (batches w) ->
  Forall (fun l => 1 <= List.length l <= b)
    (batches (sendLoop vendor writeFails batchSize pendingLogs acceptedIds w)).
Proof.
  intros Hb H1. revert acceptedIds w.
  induction pendingLogs as [|id rest IH]; intros acc w Hacc Hw.
  - exact Hw.
  - cbn [sendLoop].
    assert (S1 := callVendor_shape vendor writeFails id acc w).
    destruct (callVendor vendor writeFails id acc w) as [acc1 w1].
    cbv zeta in S1. cbn [fst snd] in S1. destruct S1 as (_ & B1 & A1).
    assert (L1 : List.length acc1 <= b).
    { rewrite A1. destruct (vendor (vendorCalls w));
        rewrite ?length_app; cbn [List.length]; lia. }
    set (last := match rest with [] => true | _ :: _ => false end).
    assert (S2 := flush_shape batchSize writeFails last acc1 w1).
    destruct (flush writeFails batchSize last acc1 w1) as [acc2 w2].
    cbv zeta in S2. cbn [fst snd] in S2. destruct S2 as (_ & S2).
    apply IH.
    + destruct S2 as [(E & _ & _ & R)|(E & _)].
      * rewrite E. rewrite Hb, reached_nat in R.
        destruct (b <=? List.length acc1) eqn:Le.
        -- rewrite (R eq_refl). cbn [List.length]. lia.
        -- apply Nat.leb_gt in Le. exact Le.
      * rewrite E. cbn [List.length]. lia.
    + destruct S2 as [(_ & Ew & _)|(_ & Hne & Eb & _)].
      * rewrite Ew, B1. exact Hw.
      * rewrite Eb, B1. apply Forall_app. split; [exact Hw|].
        constructor; [|constructor].
        split; [|exact L1].
        destruct acc1; [contradiction Hne; reflexivity | cbn [List.length]; lia].
Qed.

(** X14.  From a fresh count, [sendCampaignMessages] calls the vendor once
    per pending log, and the id lists it hands to [updateMany], laid end to
    end, are exactly the ids the vendor accepted, in order, each once: this
    holds even when writes fail.  With a whole batch size [b >= 1] every
    such list has between 1 and [b] ids. *)
Theorem accepted_ids_are_batched_once (pendingLogs : list nat) (w : World) :
  vendorCalls w = 0 ->
  batches w = [] ->
  List.concat (batches (sendCampaignMessages vendor writeFails batchSize
                     (Some pendingLogs) w))
  = acceptedIn vendor 0 pendingLogs
  /\ vendorCalls (sendCampaignMessages vendor writeFails batchSize
                    (Some pendingLogs) w)
     = List.length pendingLogs
  /\ (forall b, batchSize = Finite (inject_Z (Z.of_nat b)) -> 1 <= b ->
      Forall (fun l => 1 <= List.length l <= b)
        (batches (sendCampaignMessages vendor writeFails batchSize
                    (Some pendingLogs) w))).
Proof.
  intros Hv Hb. cbn [sendCampaignMessages].
  destruct (sendLoop_batches pendingLogs [] w (fun _ => eq_refl)) as (C & V).
  rewrite Hv, Hb in C. rewrite Hv in V. cbn [List.concat app] in C.
  split; [exact C|]. split; [exact V|].
  intros b Eb H1.
  assert (L0 : @List.length nat [] < b) by (cbn [List.length]; lia).
  assert (F0 : Forall (fun l : list nat => 1 <= List.length l <= b) (batches w))
    by (rewrite Hb; constructor).
  exact (sendLoop_batch_sizes b pendingLogs [] w Eb H1 L0 F0).
Qed.

End Batches.

(** A vendor that accepts every other message, and a fresh world of
    pending rows. *)
Definition everyOther (n : nat) : VendorOutcome :=
  if Nat.even n then Accepted else Refused.

Definition fresh : World :=
  mkWorld (fun _ => mkRow PENDING None) 0 0 [].

Lemma every_pending_log_is_settled_witness :
  map (fun i => status (table (sendCampaignMessages everyOther never
                                 (Finite 2) (Some [10; 11; 12; 13; 14]) fresh) i))
      [10; 11; 12; 13; 14; 15]
  = [SENT; FAILED; SENT; FAILED; SENT; PENDING]
  /\ status (table (sendCampaignMessages everyOther never (Finite 2)
                      (Some [10; 11; 12; 13; 14]) fresh) 12)
     = outcomeStatus (everyOther 2).
Proof.
  split; [vm_compute; reflexivity|].
  assert (Hnd : NoDup [10; 11; 12; 13; 14]).
  { repeat constructor; simpl; intros H;
      repeat (destruct H as [H|H]; [discriminate H|]); exact H. }
  exact (proj1 (proj1 (every_pending_log_is_settled everyOther (Finite 2)
                         [10; 11; 12; 13; 14] fresh Hnd eq_refl)
                  2 12 eq_refl)).
Defined.

Lemma accepted_ids_are_batched_once_witness :
  batches (sendCampaignMessages everyOther (fun _ => true) (Finite 2)
             (Some [10; 11; 12; 13; 14]) fresh)
  = [[10; 12]; [14]]
  /\ List.concat (batches (sendCampaignMessages everyOther (fun _ => true)
                        (Finite 2) (Some [10; 11; 12; 13; 14]) fresh))
     = acceptedIn everyOther 0 [10; 11; 12; 13; 14].
Proof.
  split; [vm_compute; reflexivity|].
  exact (proj1 (accepted_ids_are_batched_once everyOther (fun _ => true)
                  (Finite 2) [10; 11; 12; 13; 14] fresh eq_refl eq_refl)).
Defined.

End Delivery.

(* ================================================================== *)
(** * From a prompt to an audience *)
(* ================================================================== *)

Module Pipeline.

(** A field name made by the count pattern is none of the other fields the
    compiler knows. *)
Lemma noun_Count_not_totalSpending (noun : string) :
  noun ++ "Count" <> "totalSpending".
Proof.
  intros H.
  assert (L : String.length (noun ++ "Count") = 13) by (rewrite H; reflexivity).
  rewrite string_length_append in L. simpl in L.
  do 9 (destruct noun as [|? noun]; simpl in L; try lia).
  simpl in H. discriminate H.
Qed.

Lemma noun_Count_not_email (noun : string) : noun ++ "Count" <> "email".
Proof.
  intros H.
  assert (L : String.length (noun ++ "Count") = 5) by (rewrite H; reflexivity).
  rewrite string_length_append in L. simpl in L.
  destruct noun as [|? noun]; simpl in L; try lia.
  simpl in H. discriminate H.
Qed.

(** What a pushed candidate can be, family by family. *)
Lemma pushedCandidates_kinds (lp : string) (c : Candidate) :
  In c (pushedCandidates lp) ->
  (c_field c = "totalSpending" /\ comparison_op (c_operator c))
  \/ (c_field c = "visitCount" /\ comparison_op (c_operator c))
  \/ (c_field c = "lastVisit" /\ c_operator c = "before")
  \/ ((exists noun, c_field c = noun ++ "Count")
      /\ c_field c <> "visitCount" /\ comparison_op (c_operator c)).
Proof.
  unfold pushedCandidates. rewrite !in_app_iff.
  intros [H|[H|[H|[H|H]]]].
  - left. apply (spendingCandidates_In lp). exact H.
  - right; left. apply (visitCandidates_In lp). exact H.
  - right; right; left. apply recencyCandidates_In in H.
    destruct H as (F & O & _). auto.
  - apply countCandidates_In in H. destruct H as [(noun & F) O].
    destruct (String.eqb_spec (c_field c) "visitCount") as [E|E].
    + right; left. auto.
    + right; right; right. split; [exists noun; exact F | auto].
  - apply betweenCandidates_In in H. destruct H as [[F|F] O]; auto.
Qed.

Section Audience.

Variable StringToNumber : string -> JsNum.
Variable JsDate : Type.
Variable setDateBack : JsDate -> JsNum -> JsDate.

(** X15.  Which locally inferred conditions reach the store: a condition
    of a local document is given a constraint by the campaign compiler
    exactly when its field is [totalSpending] or [lastVisit], or its field
    is [visitCount] and its operator ['>'] or ['<'].  A visit count inferred
    with ['>='] or ['<='], and any other "<noun>Count" field, compile to the
    empty object. *)
Theorem local_conditions_that_compile (prompt : string) (now : JsDate)
    (c : Condition) :
  In c (conditions (localDocument prompt)) ->
  (conditionWhere StringToNumber JsDate setDateBack now c <> emptyWhere
   <-> field c = "totalSpending" \/ field c = "lastVisit"
       \/ (field c = "visitCount" /\ (operator c = ">" \/ operator c = "<")))
  /\ (conditionWhere StringToNumber JsDate setDateBack now c = emptyWhere
      <-> supported c = false).
Proof.
  intros Hc.
  assert (E : conditionWhere StringToNumber JsDate setDateBack now c = emptyWhere
              <-> supported c = false).
  { split.
    - intros H. destruct (supported c) eqn:S; [|reflexivity].
      exfalso. revert H. apply supported_clause_nonempty. exact S.
    - apply unsupported_clause_empty. }
  split; [|exact E].
  apply localDocument_conditions_In in Hc. destruct Hc as (cand & I & Ec).
  apply pushedCandidates_kinds in I.
  assert (S : supported c = true
              <-> field c = "totalSpending" \/ field c = "lastVisit"
                  \/ (field c = "visitCount"
                      /\ (operator c = ">" \/ operator c = "<"))).
  { subst c. unfold conditionOf, supported. cbn [field operator].
    destruct I as [[F O]|[[F O]|[[F O]|[(noun & F) [NV O]]]]].
    - rewrite F. cbn [String.eqb Ascii.eqb Bool.eqb].
      split; [intros _; left; reflexivity|]. intros _.
      destruct O as [O|[O|[O|O]]]; rewrite O; reflexivity.
    - rewrite F. split.
      + intros H. right; right. split; [reflexivity|].
        destruct O as [O|[O|[O|O]]]; rewrite O in *; auto;
          vm_compute in H; discriminate H.
      + intros [H|[H|[_ [H|H]]]]; try discriminate H; rewrite H; reflexivity.
    - rewrite F, O. split; [intros _; right; left; reflexivity|].
      intros _. reflexivity.
    - assert (N1 : (c_field cand === "totalSpending") = false)
        by (apply String.eqb_neq; rewrite F; apply noun_Count_not_totalSpending).
      assert (N2 : (c_field cand === "visitCount") = false)
        by (apply String.eqb_neq; exact NV).
      assert (N3 : (c_field cand === "lastVisit") = false)
        by (apply String.eqb_neq; rewrite F; apply noun_Count_not_lastVisit).
      assert (N4 : (c_field cand === "email") = false)
        by (apply String.eqb_neq; rewrite F; apply noun_Count_not_email).
      rewrite N1, N2, N3, N4. split; [intros H; discriminate H|].
      apply String.eqb_neq in N1, N3.
      intros [H|[H|[H _]]]; contradiction. }
  rewrite <- S. split.
  - intros H. destruct (supported c) eqn:Sc; [reflexivity|].
    exfalso. apply H. apply E. reflexivity.
  - intros H. apply supported_clause_nonempty. exact H.
Qed.

Variable Customer : Type.
Variable sat_totalSpending : NumFilter -> Customer -> bool.
Variable sat_visitCount : NumFilter -> Customer -> bool.
Variable sat_lastVisit : DateFilter JsDate -> Customer -> bool.
Variable sat_email : StringFilter -> Customer -> bool.

(** X16.  A prompt from which the local heuristics draw no condition
    selects everybody or nobody: its document is [{ AND: [] }], which every
    customer satisfies, unless the prompt has the word "or" and not the word
    "and": then it is [{ OR: [] }], which no customer satisfies. *)
Theorem empty_local_document_all_or_nothing (prompt : string)
    (clock : nat -> JsDate) (cust : Customer) :
  conditions (localDocument prompt) = [] ->
  matchesWhere JsDate Customer sat_totalSpending sat_visitCount sat_lastVisit
    sat_email
    (buildWhereClause StringToNumber JsDate setDateBack clock
       (localDocument prompt)) cust
  = negb (test orWord (toLowerCase prompt)
          && negb (test andWord (toLowerCase prompt))).
Proof.
  intros H.
  assert (C := localDocument_connectors prompt).
  assert (L := localDocument_logic prompt).
  unfold buildWhereClause, matchesWhere, mapi. rewrite L, H.
  destruct (connectors (localDocument prompt)) as [cn|].
  - rewrite H in C. simpl in C. lia.
  - cbn [andb].
    destruct (test orWord (toLowerCase prompt));
      destruct (test andWord (toLowerCase prompt)); reflexivity.
Qed.

End Audience.

Lemma local_conditions_that_compile_witness :
  In (mkCondition "visitCount" ">=" (VNum 3))
     (conditions (localDocument "customers who visited 3 times"))
  /\ conditionWhere (fun _ => NaN) nat (fun d _ => d) 0
       (mkCondition "visitCount" ">=" (VNum 3))
     = emptyWhere.
Proof.
  assert (I : In (mkCondition "visitCount" ">=" (VNum 3))
                (conditions (localDocument "customers who visited 3 times")))
    by (vm_compute; auto).
  split; [exact I|].
  apply (proj2 (local_conditions_that_compile (fun _ => NaN) nat (fun d _ => d)
                  "customers who visited 3 times" 0 _ I)).
  reflexivity.
Defined.

Lemma empty_local_document_all_or_nothing_witness :
  matchesWhere nat unit (fun _ _ => true) (fun _ _ => true) (fun _ _ => true)
    (fun _ _ => true)
    (buildWhereClause (fun _ => NaN) nat (fun d _ => d) (fun i => i)
       (localDocument "customers from delhi or mumbai")) tt
  = false
  /\ matchesWhere nat unit (fun _ _ => true) (fun _ _ => true)
       (fun _ _ => true) (fun _ _ => true)
       (buildWhereClause (fun _ => NaN) nat (fun d _ => d) (fun i => i)
          (localDocument "customers from delhi")) tt
     = true.
Proof.
  split.
  - rewrite (empty_local_document_all_or_nothing (fun _ => NaN) nat
               (fun d _ => d) unit (fun _ _ => true) (fun _ _ => true)
               (fun _ _ => true) (fun _ _ => true)
               "customers from delhi or mumbai" (fun i => i) tt)
      by (vm_compute; reflexivity).
    vm_compute. reflexivity.
  - rewrite (empty_local_document_all_or_nothing (fun _ => NaN) nat
               (fun d _ => d) unit (fun _ _ => true) (fun _ _ => true)
               (fun _ _ => true) (fun _ _ => true)
               "customers from delhi" (fun i => i) tt)
      by (vm_compute; reflexivity).
    vm_compute. reflexivity.
Defined.

End Pipeline.

(* ================================================================== *)
(** * The password policy *)
(* ================================================================== *)

Module Password.

(** A character class without quantifier. *)
Definition one (cls : ascii -> bool) : regex := Rep cls 1 (Some 1) false.

Definition is_alnum (c : ascii) : bool := (is_alpha c || is_digit c)%bool.

Record Checks : Type := mkChecks {
  chk_length : bool;
  chk_upper : bool;
  chk_lower : bool;
  chk_number : bool;
  chk_symbol : bool
}.

Record Policy : Type := mkPolicy {
  ok : bool;
  checks : Checks
}.

(** [passwordPolicy]; [pwd.length] counts the code units of the string. *)
Definition passwordPolicy (pwd : string) : Policy :=
  let checks := mkChecks
    (8 <=? String.length pwd)
    (test (one is_upper) pwd)
    (test (one is_lower) pwd)
    (test (one is_digit) pwd)
    (test (one (fun c => negb (is_alnum c))) pwd) in
  mkPolicy
    (forallb (fun b : bool => b)
       [chk_length checks; chk_upper checks; chk_lower checks;
        chk_number checks; chk_symbol checks])
    checks.

(** A one-character class is found in a text exactly when the text has a
    character of the class. *)
Lemma search_one (cls : ascii -> bool) (s : string) (pv : option ascii)
    (i : nat) :
  search_from (one cls) s pv i <> None
  <-> exists c, In c (list_ascii_of_string s) /\ cls c = true.
Proof.
  revert pv i. induction s as [|c s IH]; intros pv i.
  - simpl. split; [intros H; exfalso; apply H; reflexivity|].
    intros (c & [] & _).
  - cbn [search_from]. unfold match_at, one. cbn [run rest prev pos rep_from].
    destruct (cls c) eqn:E.
    + cbn [andb may_repeat]. cbn [Nat.pred dec_max].
      assert (R : forall (k : cursor -> option rmatch) cu,
                 k (mkCursor (Some c) s (S i)) = Some cu ->
                 rep_from cls false s (Some c) (S i) 0 (Some 0) k = Some cu).
      { intros k cu Hk. destruct s as [|d s']; cbn [rep_from].
        - unfold or_else. cbn [Nat.eqb]. exact Hk.
        - rewrite Bool.andb_false_r. unfold or_else. cbn [Nat.eqb]. exact Hk. }
      erewrite R by reflexivity. cbn [or_else].
      split; [intros _|intros _; discriminate].
      exists c. split; [left; reflexivity | exact E].
    + cbn [andb or_else Nat.eqb]. rewrite IH. cbn [list_ascii_of_string].
      split.
      * intros (d & I & D). exists d. split; [right; exact I | exact D].
      * intros (d & [I|I] & D).
        -- subst d. rewrite E in D. discriminate D.
        -- exists d. auto.
Qed.

Lemma test_one (cls : ascii -> bool) (s : string) :
  test (one cls) s = true
  <-> exists c, In c (list_ascii_of_string s) /\ cls c = true.
Proof.
  rewrite <- (search_one cls s None 0). unfold test, exec.
  destruct (search_from (one cls) s None 0); split; intros H;
    try reflexivity; try discriminate; try congruence.
Qed.

(** X17.  A password passes the policy exactly when it has eight code
    units or more, an upper-case letter, a lower-case letter, a digit,
    and a character that is neither a letter nor a digit (a space is one). *)
Theorem policy_ok_iff (pwd : string) :
  ok (passwordPolicy pwd) = true
  <-> 8 <= String.length pwd
      /\ (exists c, In c (list_ascii_of_string pwd) /\ is_upper c = true)
      /\ (exists c, In c (list_ascii_of_string pwd) /\ is_lower c = true)
      /\ (exists c, In c (list_ascii_of_string pwd) /\ is_digit c = true)
      /\ (exists c, In c (list_ascii_of_string pwd)
                    /\ is_upper c = false /\ is_lower c = false
                    /\ is_digit c = false).
Proof.
  unfold passwordPolicy. cbn [ok forallb chk_length chk_upper chk_lower
                               chk_number chk_symbol].
  rewrite !Bool.andb_true_iff, !test_one, Nat.leb_le.
  assert (S : (exists c, In c (list_ascii_of_string pwd)
                         /\ negb (is_alnum c) = true)
              <-> (exists c, In c (list_ascii_of_string pwd)
                             /\ is_upper c = false /\ is_lower c = false
                             /\ is_digit c = false)).
  { split; intros (c & I & H); exists c; (split; [exact I|]).
    - unfold is_alnum, is_alpha in H.
      destruct (is_upper c), (is_lower c), (is_digit c); try discriminate H;
        auto.
    - destruct H as (U & L & D). unfold is_alnum, is_alpha.
      rewrite U, L, D. reflexivity. }
  rewrite S. tauto.
Qed.

End Password.

(* ================================================================== *)
(** * The CORS origin rule *)
(* ================================================================== *)

Module Cors.

Record Env : Type := mkEnv {
  FRONTEND_URLS : option string;
  FRONTEND_URL : option string;
  NODE_ENV : option string
}.

(** [a || b] on values that are a string or undefined. *)
Definition or_string (a : option string) (b : string) : string :=
  match a with
  | Some EmptyString | None => b
  | Some s => s
  end.

(** [s.split(',')] *)
Fixpoint split_comma (s : string) : list string :=
  match s with
  | EmptyString => [EmptyString]
  | String c s' =>
      if Ascii.eqb c ","%char then EmptyString :: split_comma s'
      else match split_comma s' with
           | h :: t => String c h :: t
           | [] => [String c EmptyString]
           end
  end.

Definition nonEmpty (s : string) : bool :=
  match s with EmptyString => false | _ => true end.

Definition allowedOrigins (env : Env) : list string :=
  filter nonEmpty
    (map trim
       (split_comma
          (or_string (FRONTEND_URLS env)
             (or_string (FRONTEND_URL env) "http://localhost:3000")))).

(** [^https?:\/\/localhost(:\d+)?$] *)
Definition localhostRegex : regex :=
  seqs [Lit "http"; Opt (Lit "s"); Lit "://localhost";
        Opt (Group 1 (Seq (Lit ":") (plus is_digit)))].

(** [r.test(s)] for a pattern between [^] and [$], without the [m] flag:
    the match is tried at index 0 only, and has to end where the subject
    ends. *)
Definition at_end (cu : cursor) : option unit :=
  match rest cu with EmptyString => Some tt | _ => None end.

Definition test_anchored (r : regex) (s : string) : bool :=
  match run r (start_cursor s) [] (fun cu _ => at_end cu) with
  | Some _ => true
  | None => false
  end.

(** The [origin] function given to the cors middleware: [true] stands for
    [callback(null, true)], [false] for the callback with an error.
    [origin] is [None] for a request without an Origin header. *)
Definition originAllowed (env : Env) (origin : option string) : bool :=
  match origin with
  | None | Some EmptyString => true
  | Some o =>
      if existsb (String.eqb o) (allowedOrigins env) then true
      else
        match NODE_ENV env with
        | Some mode =>
            if mode === "development" then test_anchored localhostRegex o
            else false
        | None => false
        end
  end.

(** ** The pattern, read on the text *)

Fixpoint strip (p s : string) : option string :=
  match p with
  | EmptyString => Some s
  | String a p' =>
      match s with
      | String c s' => if Ascii.eqb a c then strip p' s' else None
      | EmptyString => None
      end
  end.

Fixpoint last_of (p : string) (pv : option ascii) : option ascii :=
  match p with
  | EmptyString => pv
  | String a p' => last_of p' (Some a)
  end.

Fixpoint all_digits (s : string) : bool :=
  match s with
  | EmptyString => true
  | String c s' => (is_digit c && all_digits s')%bool
  end.

Lemma eat_cursor (p : string) (pv : option ascii) (s : string) (i : nat) :
  eat p (mkCursor pv s i)
  = option_map (fun r => mkCursor (last_of p pv) r (i + String.length p))
      (strip p s).
Proof.
  revert pv s i. induction p as [|a p IH]; intros pv s i.
  - simpl. rewrite Nat.add_0_r. reflexivity.
  - cbn [eat strip]. unfold step. cbn [rest pos]. destruct s as [|c s].
    + reflexivity.
    + destruct (Ascii.eqb_spec a c) as [Eq|Eq]; [|reflexivity]. subst c.
      rewrite IH. cbn [last_of String.length].
      rewrite Nat.add_succ_r. reflexivity.
Qed.

Lemma strip_spec (p s r : string) : strip p s = Some r <-> s = p ++ r.
Proof.
  revert s. induction p as [|a p IH]; intros s.
  - simpl. split; congruence.
  - cbn [strip append]. destruct s as [|c s].
    + split; discriminate.
    + destruct (Ascii.eqb_spec a c) as [E|E].
      * subst c. rewrite IH. split; [intros ->; reflexivity|].
        intros H. injection H as H. exact H.
      * split; [discriminate|]. intros H. injection H as H1 H2. congruence.
Qed.

Lemma digits_to_the_end (s : string) (pv : option ascii) (i min : nat) :
  rep_from is_digit false s pv i min None at_end = Some tt
  <-> all_digits s = true /\ min <= String.length s.
Proof.
  revert pv i min. induction s as [|c s IH]; intros pv i min.
  - cbn [rep_from or_else]. unfold at_end. cbn [rest all_digits String.length].
    destruct min; cbn [Nat.eqb]; split; auto with arith.
    + intros H. discriminate H.
    + intros [_ H]. lia.
  - cbn [rep_from all_digits String.length may_repeat dec_max].
    rewrite Bool.andb_true_r.
    destruct (is_digit c).
    + cbn [andb].
      destruct (rep_from is_digit false s (Some c) (S i) (Nat.pred min) None
                  at_end) as [[]|] eqn:R.
      * cbn [or_else]. apply IH in R. destruct R as [D L].
        split; [intros _|reflexivity]. split; [exact D | lia].
      * cbn [or_else]. unfold at_end. cbn [rest].
        assert (N : ~ (all_digits s = true /\ Nat.pred min <= String.length s)).
        { intros H. apply IH with (pv := Some c) (i := S i) in H.
          rewrite R in H. discriminate H. }
        split.
        -- intros H. destruct (Nat.eqb min 0); discriminate H.
        -- intros [D L]. exfalso. apply N. split; [exact D | lia].
    + cbn [andb or_else]. unfold at_end. cbn [rest].
      split.
      * intros H. destruct (Nat.eqb min 0); discriminate H.
      * intros [D _]. discriminate D.
Qed.

(** [(:\d+)?$] on the rest of the subject. *)
Definition portOK (port : string) : Prop :=
  port = "" \/ exists ds, port = ":" ++ ds /\ ds <> "" /\ all_digits ds = true.

Definition isLocalhostOrigin (origin : string) : Prop :=
  exists port,
    portOK port
    /\ (origin = "http://localhost" ++ port
        \/ origin = "https://localhost" ++ port).

Lemma port_to_the_end (r : string) (pv : option ascii) (i : nat)
    (caps : captures) :
  run (Opt (Group 1 (Seq (Lit ":") (plus is_digit)))) (mkCursor pv r i) caps
    (fun cu _ => at_end cu) = Some tt
  <-> portOK r.
Proof.
  unfold plus. cbn [run]. rewrite eat_cursor.
  destruct (strip ":" r) as [ds|] eqn:E.
  - cbn [option_map rest prev pos].
    apply strip_spec in E. subst r.
    match goal with
    | |- or_else (rep_from _ _ _ ?p ?j _ _ ?k) _ = _ <-> _ =>
        change k with at_end;
        assert (D := digits_to_the_end ds p j 1);
        destruct (rep_from is_digit false ds p j 1 None at_end) as [[]|]
    end.
    + cbn [or_else]. split; [intros _|reflexivity].
      right. exists ds. destruct D as [D _]. destruct (D eq_refl) as [A L].
      split; [reflexivity|]. split; [|exact A].
      intros Z. subst ds. simpl in L. lia.
    + cbn [or_else]. unfold at_end. cbn [rest append].
      split; [discriminate|].
      intros [H|(ds' & H & NE & A)]; [discriminate H|].
      injection H as H. subst ds'. exfalso.
      assert (X : all_digits ds = true /\ 1 <= String.length ds).
      { split; [exact A|]. destruct ds; [contradiction|simpl; lia]. }
      apply D in X. discriminate X.
  - cbn [option_map or_else]. unfold at_end. cbn [rest].
    destruct r as [|c r].
    + split; [intros _; left; reflexivity | reflexivity].
    + split; [discriminate|].
      intros [H|(ds & H & _)]; [discriminate H|].
      apply strip_spec in H. rewrite H in E. discriminate E.
Qed.

Lemma host_to_the_end (r : string) (pv : option ascii) (i : nat)
    (caps : captures) :
  run (Seq (Lit "://localhost") (Opt (Group 1 (Seq (Lit ":") (plus is_digit)))))
    (mkCursor pv r i) caps (fun cu _ => at_end cu) = Some tt
  <-> exists port, portOK port /\ r = "://localhost" ++ port.
Proof.
  cbn [run]. rewrite eat_cursor.
  destruct (strip "://localhost" r) as [port|] eqn:E.
  - cbn [option_map]. apply strip_spec in E. subst r.
    assert (P := port_to_the_end port (last_of "://localhost" pv)
                   (i + String.length "://localhost") caps).
    cbn [run] in P. rewrite P. split.
    + intros H. exists port. auto.
    + intros (port' & H & Eq). injection Eq as Eq. subst port'. exact H.
  - cbn [option_map]. split; [discriminate|].
    intros (port & _ & Eq). apply strip_spec in Eq. rewrite Eq in E.
    discriminate E.
Qed.

Lemma or_else_unit (a : option unit) (b : unit -> option unit) :
  or_else a b = Some tt <-> a = Some tt \/ b tt = Some tt.
Proof.
  destruct a as [[]|]; unfold or_else.
  - split; intros _; [left|]; reflexivity.
  - split; [intros H; right; exact H|].
    intros [H|H]; [discriminate H | exact H].
Qed.

Lemma localhostRegex_spec (origin : string) :
  test_anchored localhostRegex origin = true <-> isLocalhostOrigin origin.
Proof.
  unfold test_anchored, localhostRegex, start_cursor, isLocalhostOrigin.
  cbn [seqs].
  match goal with
  | |- (match ?x with Some _ => true | None => false end) = true <-> _ =>
      assert (B : (match x with Some _ => true | None => false end) = true
                  <-> x = Some tt)
        by (destruct x as [[]|]; split; intros H; try reflexivity;
            try discriminate H);
      rewrite B; clear B
  end.
  cbn [run]. rewrite eat_cursor.
  destruct (strip "http" origin) as [r1|] eqn:E1.
  - cbn [option_map]. apply strip_spec in E1. subst origin.
    rewrite eat_cursor.
    assert (H1 := host_to_the_end r1 (last_of "http" None)
                    (0 + String.length "http") []).
    cbn [run] in H1.
    destruct (strip "s" r1) as [r2|] eqn:E2.
    + cbn [option_map]. apply strip_spec in E2. subst r1.
      match goal with
      | |- or_else ?a ?b = _ <-> _ => rewrite (or_else_unit a b)
      end.
      cbv beta. rewrite H1.
      assert (H2 := host_to_the_end r2 (last_of "s" (last_of "http" None))
                      (0 + String.length "http" + String.length "s") []).
      cbn [run] in H2. rewrite H2.
      split.
      * intros [(port & P & Eq)|(port & P & Eq)].
        -- exists port. split; [exact P|]. right. rewrite Eq. reflexivity.
        -- discriminate Eq.
      * intros (port & P & [Eq|Eq]).
        -- discriminate Eq.
        -- left. exists port. split; [exact P|].
           injection Eq as Eq. exact Eq.
    + cbn [option_map or_else]. rewrite H1. split.
      * intros (port & P & Eq). exists port. split; [exact P|]. left.
        rewrite Eq. reflexivity.
      * intros (port & P & [Eq|Eq]).
        -- exists port. split; [exact P|]. injection Eq as Eq. exact Eq.
        -- injection Eq as Eq. subst r1. simpl in E2. discriminate E2.
  - cbn [option_map]. split; [discriminate|].
    intros (port & _ & [Eq|Eq]); subst origin; simpl in E1; discriminate E1.
Qed.

(** X18.  A request is let through by the origin rule exactly when it has
    no origin, or its origin is one of the configured ones, or the server
    runs in development mode and the origin is [http://localhost] or
    [https://localhost], alone or followed by [:] and one or more digits,
    with nothing after. *)
Theorem origin_allowed_iff (env : Env) (origin : option string) :
  originAllowed env origin = true
  <-> origin = None \/ origin = Some ""
      \/ (exists o, origin = Some o /\ In o (allowedOrigins env))
      \/ (NODE_ENV env = Some "development"
          /\ exists o, origin = Some o /\ isLocalhostOrigin o).
Proof.
  unfold originAllowed. destruct origin as [o|]; [|tauto].
  destruct o as [|c o]; [tauto|].
  set (oo := String c o).
  assert (I : existsb (String.eqb oo) (allowedOrigins env) = true
              <-> In oo (allowedOrigins env)).
  { rewrite existsb_exists. split.
    - intros (x & Hx & E). apply String.eqb_eq in E. subst x. exact Hx.
    - intros H. exists oo. split; [exact H | apply String.eqb_refl]. }
  destruct (existsb (String.eqb oo) (allowedOrigins env)) eqn:Ex.
  - split; [intros _|reflexivity]. right; right; left.
    exists oo. split; [reflexivity | apply I; reflexivity].
  - assert (NI : ~ In oo (allowedOrigins env))
      by (intros H; apply I in H; discriminate H).
    destruct (NODE_ENV env) as [mode|].
    + destruct (String.eqb_spec mode "development") as [M|M].
      * subst mode. rewrite localhostRegex_spec. split.
        -- intros H. right; right; right. split; [reflexivity|].
           exists oo. auto.
        -- intros [H|[H|[(x & H & Hx)|(_ & x & H & Hx)]]];
             try discriminate H; injection H as H; subst x;
             [contradiction | exact Hx].
      * split; [discriminate|].
        intros [H|[H|[(x & H & Hx)|(Md & _)]]]; try discriminate H.
        -- injection H as H; subst x. contradiction.
        -- injection Md as Md. contradiction.
    + split; [discriminate|].
      intros [H|[H|[(x & H & Hx)|(Md & _)]]]; try discriminate H.
      * injection H as H; subst x. contradiction.
      * discriminate Md.
Qed.

End Cors.

(* ================================================================== *)
(** * The authentication middleware *)
(* ================================================================== *)

Module Auth.

(** What the middleware reads of a request: the Authorization header, and
    the cookie jar ([None] when [req.cookies] is not there) with its
    [auth_token] entry. *)
Record Request : Type := mkRequest {
  authorization : option string;
  cookies : option (option string)
}.

Record User : Type := mkUser {
  u_id : string;
  u_email : string;
  u_name : option string
}.

Record ReqUser : Type := mkReqUser {
  ru_id : string;
  ru_email : string;
  ru_name : string
}.

(** [jwt.verify]: the payload's [userId] (which a payload may lack), a
    [JsonWebTokenError], or another exception. *)
Inductive Verification : Type :=
| Verified (userId : option string)
| JsonWebTokenError
| VerifyThrows.

Inductive Lookup : Type :=
| Found (user : User)
| NotFound
| LookupThrows.

(** The middleware either answers with a status and an error text, or sets
    [req.user] and calls [next]. *)
Inductive Outcome : Type :=
| Respond (status : nat) (error : string)
| Next (user : ReqUser).

Definition truthyString (s : option string) : bool :=
  match s with
  | Some EmptyString | None => false
  | Some _ => true
  end.

Definition bearer (authHeader : option string) : bool :=
  match authHeader with
  | Some h => (truthyString authHeader && startsWith "Bearer " h)%bool
  | None => false
  end.

Definition header_token (authHeader : option string) : option string :=
  match authHeader with
  | Some h => Some (drop 7 h)
  | None => None
  end.

(** [extractAuthToken]; [None] stands for [null]. *)
Definition extractAuthToken (req : Request) : option string :=
  if bearer (authorization req) then header_token (authorization req)
  else
    match cookies req with
    | Some (Some t) => if truthyString (Some t) then Some t else None
    | _ => None
    end.

Section Middleware.

Variable JWT_SECRET : option string.
Variable verify : string -> string -> Verification.
Variable findUnique : option string -> Lookup.

Definition authenticateUser (req : Request) : Outcome :=
  let authHeader := authorization req in
  let cookieToken :=
    match cookies req with
    | Some jar => jar
    | None => None
    end in
  let token :=
    if bearer authHeader then header_token authHeader else cookieToken in
  match token with
  | None | Some EmptyString => Respond 401 "No token provided"
  | Some t =>
      match JWT_SECRET with
      | None | Some EmptyString => Respond 500 "JWT secret not configured"
      | Some secret =>
          match verify t secret with
          | JsonWebTokenError => Respond 401 "Invalid token"
          | VerifyThrows => Respond 500 "Internal server error"
          | Verified userId =>
              match findUnique userId with
              | LookupThrows => Respond 500 "Internal server error"
              | NotFound => Respond 401 "User not found"
              | Found user =>
                  match u_name user with
                  | None | Some EmptyString => Respond 401 "User not found"
                  | Some name => Next (mkReqUser (u_id user) (u_email user) name)
                  end
              end
          end
      end
  end.

(** X19.  The middleware calls [next] only for a request that carries a
    non-empty token, the one [extractAuthToken] returns, which verifies
    under a configured secret to the id of a stored user with a non-empty
    name; [req.user] is that user. *)
Theorem next_only_for_a_verified_user (req : Request) (user : ReqUser) :
  authenticateUser req = Next user ->
  exists token secret userId stored,
    extractAuthToken req = Some token /\ token <> ""
    /\ JWT_SECRET = Some secret /\ secret <> ""
    /\ verify token secret = Verified userId
    /\ findUnique userId = Found stored
    /\ u_name stored = Some (ru_name user) /\ ru_name user <> ""
    /\ ru_id user = u_id stored /\ ru_email user = u_email stored.
Proof.
  unfold authenticateUser, extractAuthToken. cbv zeta.
  destruct (bearer (authorization req)).
  - destruct (header_token (authorization req)) as [[|c t]|]; try discriminate.
    destruct JWT_SECRET as [[|d sec]|]; try discriminate.
    destruct (verify (String c t) (String d sec)) as [uid| |] eqn:V;
      try discriminate.
    destruct (findUnique uid) as [st| |] eqn:F; try discriminate.
    destruct (u_name st) as [[|e nm]|] eqn:N; try discriminate.
    intros H. injection H as H. subst user.
    exists (String c t), (String d sec), uid, st. cbn [ru_name ru_id ru_email].
    repeat split; auto; discriminate.
  - destruct (cookies req) as [[[|c t]|]|]; try discriminate.
    destruct JWT_SECRET as [[|d sec]|]; try discriminate.
    destruct (verify (String c t) (String d sec)) as [uid| |] eqn:V;
      try discriminate.
    destruct (findUnique uid) as [st| |] eqn:F; try discriminate.
    destruct (u_name st) as [[|e nm]|] eqn:N; try discriminate.
    intros H. injection H as H. subst user.
    exists (String c t), (String d sec), uid, st. cbn [ru_name ru_id ru_email].
    cbn [truthyString].
    repeat split; auto; discriminate.
Qed.

(** X20.  A header that starts with "Bearer " decides alone: the cookie
    is not looked at, so the outcome is that of the same request without
    cookies.  With nothing after "Bearer " the answer is 401, whatever the
    cookie holds. *)
Theorem bearer_header_masks_the_cookie (req : Request) (t : string) :
  authorization req = Some ("Bearer " ++ t) ->
  extractAuthToken req = Some t
  /\ authenticateUser req
     = authenticateUser (mkRequest (authorization req) None)
  /\ (t = "" -> authenticateUser req = Respond 401 "No token provided").
Proof.
  intros H. unfold authenticateUser, extractAuthToken.
  cbn [authorization cookies]. rewrite H.
  change (bearer (Some ("Bearer " ++ t))) with true.
  cbn [header_token]. change (drop 7 ("Bearer " ++ t)) with t.
  cbv zeta.
  split; [reflexivity|]. split; [reflexivity|].
  intros ->. reflexivity.
Qed.

End Middleware.

(** A store with one user, tokens that verify to their own text when the
    secret is "s3cret". *)
Definition verifyToy (token secret : string) : Verification :=
  if secret === "s3cret" then
    if token === "bad" then JsonWebTokenError else Verified (Some token)
  else JsonWebTokenError.

Definition findToy (userId : option string) : Lookup :=
  match userId with
  | Some id =>
      if id === "u1" then Found (mkUser "u1" "a@b.c" (Some "Asha"))
      else NotFound
  | None => LookupThrows
  end.

Lemma next_only_for_a_verified_user_witness :
  authenticateUser (Some "s3cret") verifyToy findToy
    (mkRequest None (Some (Some "u1")))
  = Next (mkReqUser "u1" "a@b.c" "Asha")
  /\ exists token secret userId stored,
       extractAuthToken (mkRequest None (Some (Some "u1"))) = Some token
       /\ token <> ""
       /\ Some "s3cret" = Some secret /\ secret <> ""
       /\ verifyToy token secret = Verified userId
       /\ findToy userId = Found stored
       /\ u_name stored = Some "Asha" /\ "Asha" <> ""
       /\ "u1" = u_id stored /\ "a@b.c" = u_email stored.
Proof.
  split; [reflexivity|].
  exact (next_only_for_a_verified_user (Some "s3cret") verifyToy findToy
           (mkRequest None (Some (Some "u1")))
           (mkReqUser "u1" "a@b.c" "Asha") eq_refl).
Defined.

Lemma bearer_header_masks_the_cookie_witness :
  authenticateUser (Some "s3cret") verifyToy findToy
    (mkRequest (Some "Bearer ") (Some (Some "u1")))
  = Respond 401 "No token provided"
  /\ authenticateUser (Some "s3cret") verifyToy findToy
       (mkRequest None (Some (Some "u1")))
     = Next (mkReqUser "u1" "a@b.c" "Asha").
Proof.
  split; [|reflexivity].
  exact (proj2 (proj2
           (bearer_header_masks_the_cookie (Some "s3cret") verifyToy findToy
              (mkRequest (Some "Bearer ") (Some (Some "u1"))) "" eq_refl))
           eq_refl).
Defined.

End Auth.
